(** * Real-time collaboration SDK: the LWW document replica and its server

    A shallow embedding of [sdk/src/collab-doc.ts] (class [CollabDoc]) and of
    [server/src/index.ts] (the Socket.IO room server), with the properties of
    the replication engine proved or refuted on it.

    Conventions of the embedding.
    - A JavaScript value is a tree ([jsval]).  Values received from the wire
      or passed by the caller are not aliased with anything else, so the
      in-place mutation of the document is rendered as rebuilding the spine
      that leads to the mutated node.  One sharing the code does have is not
      rendered: an operation in the Offline Queue holds the very object that
      [applyOperation] stored in the document, so a later edit below its
      path changes the queued operation too.  What is said about the values
      in the queue is said for queues of primitive values
      ([holds_primitives]).
    - The document of a replica and of a room is an object
      ([doc: Record<string, any>] on the client, [{}] on the server, both
      only mutated in place), so the root and every cursor of a walk is a
      [container]: an object or an array, never a primitive or [null].
    - JavaScript numbers that the engine compares or indexes with
      (timestamps, versions, array indices) are integers ([Z]), and a
      number used as a property key is written in decimal: the integers a
      double holds exactly and JavaScript writes without an exponent
      (below 10^21 in absolute value).
    - A string is a sequence of code units ([string]); [<] on strings is the
      lexicographic order on code units ([String.ltb]).
    - Objects are their own properties, a finite map from property keys to
      values.  Members inherited from [Object.prototype] and the [length]
      member of arrays are not represented.  The definitions of [CollabDoc]
      and [Server] give what the code computes when every key it touches is
      an ordinary own key and no call raises; those of [ClientRun] and
      [ServerRun] follow the same lines and tell the three cases apart:
      the code returns, it raises, or it touches [__proto__] or the
      [length] of an array, where the tree has no answer.  An array hole
      and an element holding [undefined] are the same thing here; the
      engine cannot tell them apart (every test it makes on an element
      sends both down the same branch).
    - A handler is a function from the state before to the state after and
      the list of what it did to the outside, in order: events emitted to
      the listeners and calls on the socket.  [Date.now()] and
      [Math.random()] are arguments of the calls that read them.
    - [console.log]/[console.warn] produce nothing that is observed.
    - Listeners run by [emit] do not call back into the replica. *)

From Stdlib Require Import ZArith String Ascii List Bool Lia.
From stdpp Require Import gmap strings list pretty.

Set Warnings "-register-all".
Local Open Scope string_scope.
Local Open Scope list_scope.
Local Open Scope Z_scope.

(** ** JavaScript values *)

Inductive jsval :=
| VUndef
| VNull
| VBool (b : bool)
| VNum (n : Z)
| VStr (s : string)
| VArr (els : list jsval) (named : gmap string jsval)
| VObj (props : gmap string jsval).

(** A value that is an object and not [null]: the only values the engine
    reads properties from or writes properties to. *)
Inductive container :=
| CArr (els : list jsval) (named : gmap string jsval)
| CObj (props : gmap string jsval).

Definition of_container (c : container) : jsval :=
  match c with
  | CArr els named => VArr els named
  | CObj props => VObj props
  end.

Definition as_container (v : jsval) : option container :=
  match v with
  | VArr els named => Some (CArr els named)
  | VObj props => Some (CObj props)
  | _ => None
  end.

(** [typeof v === 'object'] *)
Definition typeof_object (v : jsval) : bool :=
  match v with
  | VNull | VArr _ _ | VObj _ => true
  | _ => false
  end.

(** [v === null] *)
Definition is_null (v : jsval) : bool :=
  match v with
  | VNull => true
  | _ => false
  end.

(** [Array.isArray(v)] *)
Definition Array_isArray (v : jsval) : bool :=
  match v with
  | VArr _ _ => true
  | _ => false
  end.

(** ** Paths and property keys *)

(** [type Path = (string | number)[]] *)
Inductive segment :=
| SStr (s : string)
| SNum (n : Z).

Definition Path := list segment.

(** [typeof segment === 'number']; the last segment of an empty path is
    [undefined], which is not a number. *)
Definition is_number (s : option segment) : bool :=
  match s with
  | Some (SNum _) => true
  | _ => false
  end.

(** The property key a segment denotes in [current[segment]]. *)
Definition ToPropertyKey (s : option segment) : string :=
  match s with
  | Some (SStr k) => k
  | Some (SNum n) => pretty n
  | None => "undefined"
  end.

Definition digit_of (c : ascii) : option N :=
  let n := N_of_ascii c in
  if ((48 <=? n) && (n <=? 57))%N then Some (n - 48)%N else None.

Fixpoint parse_digits (acc : N) (s : string) : option N :=
  match s with
  | EmptyString => Some acc
  | String c rest =>
      match digit_of c with
      | Some d => parse_digits (10 * acc + d)%N rest
      | None => None
      end
  end.

(** A key is an array index when it is the canonical decimal writing of a
    natural number. *)
Definition array_index (key : string) : option nat :=
  match key with
  | EmptyString => None
  | _ =>
      match parse_digits 0%N key with
      | Some n => if String.eqb (pretty n) key then Some (N.to_nat n) else None
      | None => None
      end
  end.

(** ** Property access on containers *)

(** [current.hasOwnProperty(key)], when the call finds the method of
    [Object.prototype] ([shadows_hasOwnProperty] below tells when it does
    not).  It also stands for the server's [key in current]: the members a
    container inherits hold functions, [__proto__] apart, and the test that
    follows, [typeof current[key] !== 'object'], sends a function down the
    branch of an absent key.  [__proto__] and the [length] of an array are
    left to [exotic_key]. *)
Definition hasOwnProperty (current : container) (key : string) : bool :=
  match current with
  | CObj props => bool_decide (is_Some (props !! key))
  | CArr els named =>
      match array_index key with
      | Some i => bool_decide (i < length els)%nat
      | None => bool_decide (is_Some (named !! key))
      end
  end.

(** [current[key]] *)
Definition get_prop (current : container) (key : string) : jsval :=
  match current with
  | CObj props => default VUndef (props !! key)
  | CArr els named =>
      match array_index key with
      | Some i => default VUndef (els !! i)
      | None => default VUndef (named !! key)
      end
  end.

(** [current[key] = v]; writing past the end of an array extends it. *)
Definition set_prop (current : container) (key : string) (v : jsval) : container :=
  match current with
  | CObj props => CObj (<[key := v]> props)
  | CArr els named =>
      match array_index key with
      | Some i =>
          if bool_decide (i < length els)%nat
          then CArr (<[i := v]> els) named
          else CArr (els ++ replicate (i - length els) VUndef ++ [v]) named
      | None => CArr els (<[key := v]> named)
      end
  end.

(** [delete current[key]]; on an array element it leaves a hole. *)
Definition delete_prop (current : container) (key : string) : container :=
  match current with
  | CObj props => CObj (delete key props)
  | CArr els named =>
      match array_index key with
      | Some i => CArr (<[i := VUndef]> els) named
      | None => CArr els (delete key named)
      end
  end.

(** [current.splice(i, 1)] for [0 <= i < current.length] *)
Definition splice1 (els : list jsval) (i : Z) : list jsval :=
  delete (Z.to_nat i) els.

(** ** [JSON.stringify] of a path: the key of the metadata map *)

Definition dquote : ascii := ascii_of_nat 34.
Definition backslash : ascii := ascii_of_nat 92.

Definition hex_digit (n : N) : ascii :=
  if (n <? 10)%N then ascii_of_N (48 + n) else ascii_of_N (87 + n).

(** One code unit inside a JSON string literal. *)
Definition quote_char (c : ascii) : string :=
  let n := N_of_ascii c in
  if (n =? 34)%N then String backslash (String dquote EmptyString)
  else if (n =? 92)%N then String backslash (String backslash EmptyString)
  else if (n =? 8)%N then String backslash "b"
  else if (n =? 12)%N then String backslash "f"
  else if (n =? 10)%N then String backslash "n"
  else if (n =? 13)%N then String backslash "r"
  else if (n =? 9)%N then String backslash "t"
  else if (n <? 32)%N then
    String backslash ("u00" +:+ String (hex_digit (n / 16)) (String (hex_digit (n mod 16)) EmptyString))
  else String c EmptyString.

Fixpoint quote_body (s : string) : string :=
  match s with
  | EmptyString => EmptyString
  | String c rest => quote_char c +:+ quote_body rest
  end.

Definition JSON_quote (s : string) : string :=
  String dquote (quote_body s +:+ String dquote EmptyString).

Definition stringify_segment (s : segment) : string :=
  match s with
  | SStr k => JSON_quote k
  | SNum n => pretty n
  end.

Fixpoint join_comma (l : list string) : string :=
  match l with
  | [] => EmptyString
  | [x] => x
  | x :: rest => x +:+ "," +:+ join_comma rest
  end.

(** [JSON.stringify(path)] *)
Definition JSON_stringify (path : Path) : string :=
  "[" +:+ join_comma (map stringify_segment path) +:+ "]".

(** ** Operations and metadata *)

Inductive OpKind := OpSet | OpDel.

Module Metadata.
Record t := mk { timestamp : Z; actorId : string; version : Z }.
End Metadata.

Module Operation.
Record t := mk {
  id : string;
  path : Path;
  op : OpKind;
  value : jsval;
  timestamp : Z;
  actorId : string;
  version : Z
}.

(** The metadata an applied [set] leaves at its path. *)
Definition triple (o : t) : Metadata.t :=
  Metadata.mk (timestamp o) (actorId o) (version o).
End Operation.

(** ** The merge decision *)

(** Strict lexicographic order on strings, by code unit. *)
Inductive lex_lt : string -> string -> Prop :=
| lex_lt_nil c s : lex_lt EmptyString (String c s)
| lex_lt_head c1 c2 s1 s2 :
    (N_of_ascii c1 < N_of_ascii c2)%N -> lex_lt (String c1 s1) (String c2 s2)
| lex_lt_tail c s1 s2 : lex_lt s1 s2 -> lex_lt (String c s1) (String c s2).

Module Merge.

(** [collab-doc.ts], [applyOperation], the value of [incomingWins]. *)
Definition incomingWins (op : Operation.t) (existingMetadata : Metadata.t) : bool :=
  let incomingWinsByTimestamp :=
    Metadata.timestamp existingMetadata <? Operation.timestamp op in
  let timestampsAreEqual :=
    Operation.timestamp op =? Metadata.timestamp existingMetadata in
  let incomingWinsByActorId :=
    timestampsAreEqual && String.ltb (Operation.actorId op) (Metadata.actorId existingMetadata) in
  incomingWinsByTimestamp || incomingWinsByActorId.

(** [collab-doc.ts], [applyOperation], the value of [apply] when the walk
    starts. *)
Definition client_apply (isRemote : bool) (existingMetadata : option Metadata.t)
    (op : Operation.t) : bool :=
  match existingMetadata with
  | Some m => if isRemote then (if negb (incomingWins op m) then false else true) else true
  | None => true
  end.

(** [server/src/index.ts], the ['operation'] handler, the value of
    [applyServerOp]. *)
Definition server_apply (existingMetadata : option Metadata.t) (operation : Operation.t) : bool :=
  match existingMetadata with
  | Some m =>
      let incomingWinsByTimestamp :=
        Metadata.timestamp m <? Operation.timestamp operation in
      let timestampsAreEqual :=
        Operation.timestamp operation =? Metadata.timestamp m in
      let incomingWinsByActorId :=
        timestampsAreEqual && String.ltb (Operation.actorId operation) (Metadata.actorId m) in
      if negb incomingWinsByTimestamp && negb incomingWinsByActorId then false else true
  | None => true
  end.

End Merge.

(** ** The client replica: [class CollabDoc] *)

Module CollabDoc.

(** What a handler does to the outside: [this.emit(...)] to the listeners,
    and calls on [this.socket]. *)
Inductive Effect :=
| Emit_change (path : Path) (action : OpKind) (value : jsval) (isRemote : bool)
| Emit_connect
| Emit_disconnect (reason : string)
| Emit_synced
| Emit_error (err : jsval)
| Emit_pause
| Emit_resume
| Socket_emit_join_room (roomId : string)
| Socket_emit_operation (roomId : string) (op : Operation.t)
| Socket_connect
| Socket_disconnect.

Record t := mk {
  roomId : string;
  actorId : string;
  doc : container;
  metadata : gmap string Metadata.t;
  offlineQueue : list Operation.t;
  connected : bool;
  syncedWithServer : bool;
  isLiveMode : bool;
  remoteOperationsBuffer : list Operation.t
}.

Definition set_doc (st : t) (d : container) : t :=
  mk (roomId st) (actorId st) d (metadata st) (offlineQueue st) (connected st)
     (syncedWithServer st) (isLiveMode st) (remoteOperationsBuffer st).
Definition set_metadata (st : t) (m : gmap string Metadata.t) : t :=
  mk (roomId st) (actorId st) (doc st) m (offlineQueue st) (connected st)
     (syncedWithServer st) (isLiveMode st) (remoteOperationsBuffer st).
Definition set_offlineQueue (st : t) (q : list Operation.t) : t :=
  mk (roomId st) (actorId st) (doc st) (metadata st) q (connected st)
     (syncedWithServer st) (isLiveMode st) (remoteOperationsBuffer st).
Definition set_connected (st : t) (b : bool) : t :=
  mk (roomId st) (actorId st) (doc st) (metadata st) (offlineQueue st) b
     (syncedWithServer st) (isLiveMode st) (remoteOperationsBuffer st).
Definition set_syncedWithServer (st : t) (b : bool) : t :=
  mk (roomId st) (actorId st) (doc st) (metadata st) (offlineQueue st) (connected st)
     b (isLiveMode st) (remoteOperationsBuffer st).
Definition set_isLiveMode (st : t) (b : bool) : t :=
  mk (roomId st) (actorId st) (doc st) (metadata st) (offlineQueue st) (connected st)
     (syncedWithServer st) b (remoteOperationsBuffer st).
Definition set_remoteOperationsBuffer (st : t) (b : list Operation.t) : t :=
  mk (roomId st) (actorId st) (doc st) (metadata st) (offlineQueue st) (connected st)
     (syncedWithServer st) (isLiveMode st) b.

(** Run a second handler on the state the first one left, effects in order. *)
Definition and_then (r : t * list Effect) (k : t -> t * list Effect) : t * list Effect :=
  let '(st1, e1) := r in
  let '(st2, e2) := k st1 in
  (st2, e1 ++ e2).

(** [constructor] *)
Definition new (roomId actorId : string) : t :=
  mk roomId actorId (CObj ∅) ∅ [] false false true [].

(** [get(path)], from the cursor [current] on: what it returns on
    ordinary keys ([ClientRun.get_from] adds the call that raises). *)
Fixpoint get_from (current : jsval) (path : Path) : jsval :=
  match path with
  | [] => current
  | segment :: rest =>
      match as_container current with
      | None => VUndef
      | Some c =>
          if negb (hasOwnProperty c (ToPropertyKey (Some segment))) then VUndef
          else get_from (get_prop c (ToPropertyKey (Some segment))) rest
      end
  end.

Definition get (st : t) (path : Path) : jsval :=
  get_from (of_container (doc st)) path.

(** [getMetadata(path)] *)
Definition getMetadata (st : t) (path : Path) : option Metadata.t :=
  metadata st !! JSON_stringify path.

(** [generateOperationId()], given the clock reading and the random suffix. *)
Definition generateOperationId (st : t) (now : Z) (rnd : string) : string :=
  actorId st +:+ "-" +:+ pretty now +:+ "-" +:+ rnd.

(** [applyOperation], after the loop: the assignment or removal at
    [lastSegment] in [current]. *)
Definition last_step (action : OpKind) (current : container) (lastSegment : option segment)
    (targetValue : jsval) : container :=
  match action with
  | OpSet => set_prop current (ToPropertyKey lastSegment) targetValue
  | OpDel =>
      match current, lastSegment with
      | CArr els named, Some (SNum n) =>
          if (0 <=? n) && (n <? Z.of_nat (length els))
          then CArr (splice1 els n) named
          else current
      | _, _ =>
          if hasOwnProperty current (ToPropertyKey lastSegment)
          then delete_prop current (ToPropertyKey lastSegment)
          else current
      end
  end.

(** [applyOperation], the walk from the cursor [current] down [path] and the
    last step, on ordinary keys and when no call raises ([ClientRun.walk]
    adds what is left out here).  The boolean tells whether control reached
    the end of the walk ([true]) or left [applyOperation] through a
    [return] ([false]).
    The cursor is the root document or a value that the test below has just
    accepted or replaced, so the guard
    [typeof current !== 'object' || current === null] never fires; the type
    of [current] records it. *)
Fixpoint walk (action : OpKind) (current : container) (path : Path) (targetValue : jsval)
    : container * bool :=
  match path with
  | segment :: ((next :: _) as rest) =>
      let key := ToPropertyKey (Some segment) in
      let child := get_prop current key in
      if negb (hasOwnProperty current key) || is_null child || negb (typeof_object child)
         || negb (Bool.eqb (Array_isArray child) (is_number (Some next)))
      then
        match action with
        | OpSet =>
            let fresh := if is_number (Some next) then CArr [] ∅ else CObj ∅ in
            let '(c, finished) := walk action fresh rest targetValue in
            (set_prop current key (of_container c), finished)
        | OpDel => (current, false)
        end
      else
        match as_container child with
        | Some c0 =>
            let '(c, finished) := walk action c0 rest targetValue in
            (set_prop current key (of_container c), finished)
        | None => (current, false) (* not reached: [child] is a non-null object *)
        end
  | _ => (last_step action current (head path) targetValue, true)
  end.

(** [applyOperation(op, isRemote)] *)
Definition applyOperation (st : t) (op : Operation.t) (isRemote : bool) : t * list Effect :=
  let pathKey := JSON_stringify (Operation.path op) in
  let existingMetadata := metadata st !! pathKey in
  if Merge.client_apply isRemote existingMetadata op then
    let '(d, finished) :=
      walk (Operation.op op) (doc st) (Operation.path op) (Operation.value op) in
    if finished then
      let m :=
        match Operation.op op with
        | OpDel => delete pathKey (metadata st)
        | OpSet => <[pathKey := Operation.triple op]> (metadata st)
        end in
      (set_metadata (set_doc st d) m,
       [Emit_change (Operation.path op) (Operation.op op) (Operation.value op) isRemote])
    else (set_doc st d, [])
  else (st, []).

(** [queueOrSendOperation(op)] *)
Definition queueOrSendOperation (st : t) (op : Operation.t) : t * list Effect :=
  if negb (isLiveMode st) then (set_offlineQueue st (offlineQueue st ++ [op]), [])
  else if connected st && syncedWithServer st
  then (st, [Socket_emit_operation (roomId st) op])
  else (set_offlineQueue st (offlineQueue st ++ [op]), []).

(** [processOfflineQueue()] *)
Definition processOfflineQueue (st : t) : t * list Effect :=
  if connected st && syncedWithServer st && bool_decide (0 < length (offlineQueue st))%nat
  then
    let opsToSend := offlineQueue st in
    (set_offlineQueue st [], map (Socket_emit_operation (roomId st)) opsToSend)
  else (st, []).

(** [offlineQueue.findIndex(queuedOp => queuedOp.id === id)]; [None] is -1. *)
Fixpoint findIndex (id : string) (queue : list Operation.t) : option nat :=
  match queue with
  | [] => None
  | queuedOp :: rest =>
      if String.eqb (Operation.id queuedOp) id then Some 0%nat
      else option_map S (findIndex id rest)
  end.

(** [applyRemoteOperation(op)] *)
Definition applyRemoteOperation (st : t) (op : Operation.t) : t * list Effect :=
  match findIndex (Operation.id op) (offlineQueue st) with
  | Some indexInQueue => (set_offlineQueue st (delete indexInQueue (offlineQueue st)), [])
  | None =>
      if negb (isLiveMode st)
      then (set_remoteOperationsBuffer st (remoteOperationsBuffer st ++ [op]), [])
      else applyOperation st op true
  end.

(** [set(path, value)]; [idNow] and [now] are the two readings of
    [Date.now()], [rnd] the random suffix of the id. *)
Definition local_op (st : t) (kind : OpKind) (path : Path) (value : jsval)
    (idNow : Z) (rnd : string) (now : Z) : Operation.t :=
  Operation.mk (generateOperationId st idNow rnd) path kind value now (actorId st)
    (match getMetadata st path with
     | Some m => if Metadata.version m =? 0 then 0 else Metadata.version m
     | None => 0
     end + 1).

Definition set (st : t) (path : Path) (value : jsval) (idNow : Z) (rnd : string) (now : Z)
    : t * list Effect :=
  let op := local_op st OpSet path value idNow rnd now in
  and_then (applyOperation st op false) (fun st1 => queueOrSendOperation st1 op).

(** [delete(path)] *)
Definition delete_ (st : t) (path : Path) (idNow : Z) (rnd : string) (now : Z)
    : t * list Effect :=
  let op := local_op st OpDel path VUndef idNow rnd now in
  and_then (applyOperation st op false) (fun st1 => queueOrSendOperation st1 op).

(** [pause()] *)
Definition pause (st : t) : t * list Effect :=
  if isLiveMode st then (set_isLiveMode st false, [Emit_pause]) else (st, []).

(** [resume()], the [while] loop: one [shift()] and one merge per round,
    until the buffer is empty. *)
Fixpoint drain (st : t) (buffer : list Operation.t) : t * list Effect :=
  match buffer with
  | [] => (st, [])
  | op :: rest =>
      and_then (applyOperation (set_remoteOperationsBuffer st rest) op true)
               (fun st1 => drain st1 rest)
  end.

(** [resume()] *)
Definition resume (st : t) : t * list Effect :=
  if negb (isLiveMode st) then
    and_then (drain (set_isLiveMode st true) (remoteOperationsBuffer st)) (fun st1 =>
    and_then (processOfflineQueue (set_remoteOperationsBuffer st1 [])) (fun st2 =>
    (st2, [Emit_resume])))
  else (st, []).

(** [connect()] and [disconnect()] *)
Definition connect (st : t) : t * list Effect :=
  if negb (connected st) then (st, [Socket_connect]) else (st, []).

Definition disconnect (st : t) : t * list Effect :=
  if connected st then (st, [Socket_disconnect]) else (st, []).

(** The socket handlers installed by the constructor. *)
Definition on_connect (st : t) : t * list Effect :=
  (set_connected st true, [Emit_connect; Socket_emit_join_room (roomId st)]).

Definition on_disconnect (st : t) (reason : string) : t * list Effect :=
  (set_connected st false, [Emit_disconnect reason]).

(** [JSON.parse(JSON.stringify(x))] copies a value that came from the wire;
    on trees without aliasing the copy is the value.  [initialDocState] is
    what the socket delivers: of a document some server holds in memory it
    is the round trip, [JSON_roundtrip_doc] below. *)
Definition on_initial_state (st : t) (initialDocState : container)
    (initialMetadata : gmap string Metadata.t) : t * list Effect :=
  let st1 := set_syncedWithServer (set_metadata (set_doc st initialDocState) initialMetadata) true in
  and_then (st1, [Emit_synced]) processOfflineQueue.

Definition on_operation (st : t) (room : string) (op : Operation.t) : t * list Effect :=
  if String.eqb room (roomId st) then applyRemoteOperation st op else (st, []).

Definition on_error (st : t) (err : jsval) : t * list Effect :=
  (st, [Emit_error err]).

(** Everything that can happen to a replica: a call of its public interface
    or an event of its socket. *)
Inductive Input :=
| Call_connect
| Call_disconnect
| Call_set (path : Path) (value : jsval) (idNow : Z) (rnd : string) (now : Z)
| Call_delete (path : Path) (idNow : Z) (rnd : string) (now : Z)
| Call_pause
| Call_resume
| Sock_connect
| Sock_disconnect (reason : string)
| Sock_initial_state (initialDocState : container) (initialMetadata : gmap string Metadata.t)
| Sock_operation (room : string) (op : Operation.t)
| Sock_error (err : jsval).

Definition step (st : t) (i : Input) : t * list Effect :=
  match i with
  | Call_connect => connect st
  | Call_disconnect => disconnect st
  | Call_set path value idNow rnd now => set st path value idNow rnd now
  | Call_delete path idNow rnd now => delete_ st path idNow rnd now
  | Call_pause => pause st
  | Call_resume => resume st
  | Sock_connect => on_connect st
  | Sock_disconnect reason => on_disconnect st reason
  | Sock_initial_state d m => on_initial_state st d m
  | Sock_operation room op => on_operation st room op
  | Sock_error err => on_error st err
  end.

(** The state after a sequence of inputs, with the effects of each input. *)
Fixpoint run (st : t) (inputs : list Input) : t * list (list Effect) :=
  match inputs with
  | [] => (st, [])
  | i :: rest =>
      let '(st1, e) := step st i in
      let '(st2, es) := run st1 rest in
      (st2, e :: es)
  end.

(** A state some sequence of inputs leads a fresh replica to. *)
Definition reachable (st : t) : Prop :=
  exists room actor inputs, fst (run (new room actor) inputs) = st.

(** A [socket.emit('operation', ...)] among the effects. *)
Definition is_send (e : Effect) : bool :=
  match e with
  | Socket_emit_operation _ _ => true
  | _ => false
  end.

End CollabDoc.

(** ** The server: [server/src/index.ts] *)

Module Server.

(** What the server sends to a client. *)
Inductive Message :=
| Initial_state (currentDocState : container) (currentMetadata : gmap string Metadata.t)
| Operation_msg (roomId : string) (operation : Operation.t).

(** [socket.emit(...)] answers one socket; [io.to(roomId).emit(...)]
    addresses every socket that joined the room. *)
Inductive Effect :=
| Socket_emit (socketId : string) (m : Message)
| Io_to_emit (roomId : string) (m : Message).

Record t := mk {
  roomStates : gmap string container;
  roomMetadata : gmap string (gmap string Metadata.t);
  (** the sockets that called [socket.join(roomId)], per room *)
  joined : gmap string (gset string)
}.

Definition start : t := mk ∅ ∅ ∅.

Definition members (st : t) (roomId : string) : gset string :=
  default ∅ (joined st !! roomId).

(** The sockets an effect reaches. *)
Definition recipients (st : t) (e : Effect) : gset string :=
  match e with
  | Socket_emit socketId _ => {[socketId]}
  | Io_to_emit roomId _ => members st roomId
  end.

(** [deepSet(obj, path, value)], from the cursor [current] on, on ordinary
    keys ([ServerRun.deepSet] adds what is left out here). *)
Fixpoint deepSet (current : container) (path : Path) (value : jsval) : container :=
  match path with
  | key :: ((next :: _) as rest) =>
      let k := ToPropertyKey (Some key) in
      let child := get_prop current k in
      if negb (hasOwnProperty current k) || negb (typeof_object child) || is_null child
      then
        let fresh := if is_number (Some next) then CArr [] ∅ else CObj ∅ in
        set_prop current k (of_container (deepSet fresh rest value))
      else
        match as_container child with
        | Some c0 => set_prop current k (of_container (deepSet c0 rest value))
        | None => current (* not reached: [child] is a non-null object *)
        end
  | _ => set_prop current (ToPropertyKey (head path)) value
  end.

(** [deepDelete(obj, path)], from the cursor [current] on, on ordinary
    keys and when no call raises ([ServerRun.deepDelete] adds what is left
    out here). *)
Fixpoint deepDelete (current : container) (path : Path) : container :=
  match path with
  | key :: ((_ :: _) as rest) =>
      let k := ToPropertyKey (Some key) in
      let child := get_prop current k in
      if negb (hasOwnProperty current k) || negb (typeof_object child) || is_null child
      then current
      else
        match as_container child with
        | Some c0 => set_prop current k (of_container (deepDelete c0 rest))
        | None => current (* not reached: [child] is a non-null object *)
        end
  | _ =>
      let lastSegment := head path in
      match current, lastSegment with
      | CArr els named, Some (SNum n) =>
          if (0 <=? n) && (n <? Z.of_nat (length els))
          then CArr (splice1 els n) named
          else current
      | _, _ =>
          if hasOwnProperty current (ToPropertyKey lastSegment)
          then delete_prop current (ToPropertyKey lastSegment)
          else current
      end
  end.

(** The merge of one operation into a room's document and metadata: the
    body of the ['operation'] handler between reading the room and the
    broadcast. *)
Definition merge (currentRoomState : container)
    (currentRoomMetadata : gmap string Metadata.t) (operation : Operation.t)
    : option (container * gmap string Metadata.t) :=
  let pathKey := JSON_stringify (Operation.path operation) in
  let existingMetadata := currentRoomMetadata !! pathKey in
  if Merge.server_apply existingMetadata operation then
    let state :=
      match Operation.op operation with
      | OpSet => deepSet currentRoomState (Operation.path operation) (Operation.value operation)
      | OpDel => deepDelete currentRoomState (Operation.path operation)
      end in
    let md :=
      match Operation.op operation with
      | OpDel => delete pathKey currentRoomMetadata
      | OpSet => <[pathKey := Operation.triple operation]> currentRoomMetadata
      end in
    Some (state, md)
  else None.

(** [socket.on('join_room', ...)] for the socket [socketId] *)
Definition on_join_room (st : t) (socketId roomId : string) : t * list Effect :=
  let states :=
    if bool_decide (is_Some (roomStates st !! roomId)) then roomStates st
    else <[roomId := CObj ∅]> (roomStates st) in
  let metas :=
    if bool_decide (is_Some (roomMetadata st !! roomId)) then roomMetadata st
    else <[roomId := ∅]> (roomMetadata st) in
  let currentDocState := default (CObj ∅) (states !! roomId) in
  let currentMetadata := default ∅ (metas !! roomId) in
  (mk states metas (<[roomId := {[socketId]} ∪ members st roomId]> (joined st)),
   [Socket_emit socketId (Initial_state currentDocState currentMetadata)]).

(** [socket.on('operation', ...)] for the socket [socketId] *)
Definition on_operation (st : t) (socketId roomId : string) (operation : Operation.t)
    : t * list Effect :=
  let currentRoomState := default (CObj ∅) (roomStates st !! roomId) in
  let currentRoomMetadata := default ∅ (roomMetadata st !! roomId) in
  let st1 :=
    match merge currentRoomState currentRoomMetadata operation with
    | Some (state, md) =>
        mk (<[roomId := state]> (roomStates st)) (<[roomId := md]> (roomMetadata st)) (joined st)
    | None => st
    end in
  (st1, [Io_to_emit roomId (Operation_msg roomId operation)]).

End Server.

(** ** The same code with its exceptions

    The definitions above give what the code computes when every property
    it touches is an ordinary own data property and no call raises.  Two
    things lie outside that:
    - [current.hasOwnProperty(...)] and [current.splice(...)] look the
      method up on [current] itself.  On a container that holds an own key
      of that name the lookup finds the stored value, which is no
      function, and the call raises a [TypeError];
    - [__proto__] is an accessor inherited from [Object.prototype], and
      the [length] of an array is its length: reading or writing them is
      not reading or writing a key of the finite map.
    The definitions of this part follow the same source lines and say
    which of the three the code does: it returns, it raises, or it touches
    one of the exotic keys, where the tree model has no answer and gives
    none.  A call that raises is left at once: what it had done before
    stays done, the rest of the body is not run. *)

Inductive thrown := TypeError | RangeError.

Inductive outcome (A : Type) : Type :=
| Returns (a : A)
| Raises (e : thrown)
| Exotic.
Arguments Returns {A} a.
Arguments Raises {A} e.
Arguments Exotic {A}.

Definition outcome_bind {A B : Type} (o : outcome A) (k : A -> outcome B) : outcome B :=
  match o with
  | Returns a => k a
  | Raises e => Raises e
  | Exotic => Exotic
  end.

(** The property [hasOwnProperty] of [current] is an own property, which
    hides the method. *)
Definition shadows_hasOwnProperty (current : container) : bool :=
  hasOwnProperty current "hasOwnProperty".

(** The property [splice] of the array [current] is an own property, which
    hides the method: [current.splice(...)] raises. *)
Definition shadows_splice (current : container) : bool :=
  hasOwnProperty current "splice".

(** A key that is not looked up in the finite map: [__proto__] on any
    container, [length] on an array. *)
Definition exotic_key (current : container) (key : string) : bool :=
  String.eqb key "__proto__"
  || (Array_isArray (of_container current) && String.eqb key "length").

(** [current[key] = {}] where [key] is exotic: an array refuses an object as
    its length with a [RangeError]; everything else is left unanswered. *)
Definition assign_fresh_exotic {A : Type} (current : container) (key : string)
    (next : option segment) : outcome A :=
  if Array_isArray (of_container current) && String.eqb key "length"
     && negb (is_number next)
  then Raises RangeError
  else Exotic.

Module ClientRun.

Import CollabDoc.

(** [get(path)], from the cursor [current] on. *)
Fixpoint get_from (current : jsval) (path : Path) : outcome jsval :=
  match path with
  | [] => Returns current
  | segment :: rest =>
      match as_container current with
      | None => Returns VUndef
      | Some c =>
          let key := ToPropertyKey (Some segment) in
          if shadows_hasOwnProperty c then Raises TypeError
          else if exotic_key c key then Exotic
          else if negb (hasOwnProperty c key) then Returns VUndef
          else get_from (get_prop c key) rest
      end
  end.

Definition get (st : t) (path : Path) : outcome jsval :=
  get_from (of_container (doc st)) path.

(** [applyOperation], after the loop.  The assignment calls nothing; the
    removal of an array element in range calls [current.splice], the
    removal from anything else [current.hasOwnProperty(lastSegment)]. *)
Definition last_step (action : OpKind) (current : container) (lastSegment : option segment)
    (targetValue : jsval) : outcome container :=
  let key := ToPropertyKey lastSegment in
  match action with
  | OpSet =>
      if exotic_key current key then Exotic
      else Returns (set_prop current key targetValue)
  | OpDel =>
      match current, lastSegment with
      | CArr els named, Some (SNum n) =>
          if (0 <=? n) && (n <? Z.of_nat (length els))
          then if shadows_splice current then Raises TypeError
               else Returns (CArr (splice1 els n) named)
          else Returns current
      | _, _ =>
          if shadows_hasOwnProperty current then Raises TypeError
          else if exotic_key current key then Exotic
          else if hasOwnProperty current key
          then Returns (delete_prop current key)
          else Returns current
      end
  end.

(** [applyOperation], the walk and the last step.  Every round of the loop
    starts by calling [current.hasOwnProperty(segment)]. *)
Fixpoint walk (action : OpKind) (current : container) (path : Path) (targetValue : jsval)
    : outcome (container * bool) :=
  match path with
  | segment :: ((next :: _) as rest) =>
      let key := ToPropertyKey (Some segment) in
      let child := get_prop current key in
      if shadows_hasOwnProperty current then Raises TypeError
      else if exotic_key current key then
        match action with
        | OpSet => assign_fresh_exotic current key (Some next)
        | OpDel => Exotic
        end
      else if negb (hasOwnProperty current key) || is_null child || negb (typeof_object child)
              || negb (Bool.eqb (Array_isArray child) (is_number (Some next)))
      then
        match action with
        | OpSet =>
            let fresh := if is_number (Some next) then CArr [] ∅ else CObj ∅ in
            outcome_bind (walk action fresh rest targetValue) (fun r =>
            Returns (set_prop current key (of_container (fst r)), snd r))
        | OpDel => Returns (current, false)
        end
      else
        match as_container child with
        | Some c0 =>
            outcome_bind (walk action c0 rest targetValue) (fun r =>
            Returns (set_prop current key (of_container (fst r)), snd r))
        | None => Returns (current, false)
        end
  | _ =>
      outcome_bind (last_step action current (head path) targetValue) (fun c =>
      Returns (c, true))
  end.

(** [applyOperation(op, isRemote)].  A walk that raises has changed
    nothing: it raises at a container that was there before, and a walk
    that has created a container meets only containers it created. *)
Definition applyOperation (st : t) (op : Operation.t) (isRemote : bool)
    : outcome (t * list Effect) :=
  let pathKey := JSON_stringify (Operation.path op) in
  let existingMetadata := metadata st !! pathKey in
  if Merge.client_apply isRemote existingMetadata op then
    outcome_bind
      (walk (Operation.op op) (doc st) (Operation.path op) (Operation.value op)) (fun r =>
    if snd r then
      let m :=
        match Operation.op op with
        | OpDel => delete pathKey (metadata st)
        | OpSet => <[pathKey := Operation.triple op]> (metadata st)
        end in
      Returns (set_metadata (set_doc st (fst r)) m,
               [Emit_change (Operation.path op) (Operation.op op) (Operation.value op) isRemote])
    else Returns (set_doc st (fst r), []))
  else Returns (st, []).

(** Run a second handler on the state the first one left, if it returned. *)
Definition and_then (r : outcome (t * list Effect)) (k : t -> outcome (t * list Effect))
    : outcome (t * list Effect) :=
  outcome_bind r (fun r1 =>
  outcome_bind (k (fst r1)) (fun r2 =>
  Returns (fst r2, snd r1 ++ snd r2))).

(** [set(path, value)] and [delete(path)]: when [applyOperation] raises,
    [queueOrSendOperation] is not reached. *)
Definition set (st : t) (path : Path) (value : jsval) (idNow : Z) (rnd : string) (now : Z)
    : outcome (t * list Effect) :=
  let op := local_op st OpSet path value idNow rnd now in
  and_then (applyOperation st op false) (fun st1 => Returns (queueOrSendOperation st1 op)).

Definition delete_ (st : t) (path : Path) (idNow : Z) (rnd : string) (now : Z)
    : outcome (t * list Effect) :=
  let op := local_op st OpDel path VUndef idNow rnd now in
  and_then (applyOperation st op false) (fun st1 => Returns (queueOrSendOperation st1 op)).

(** [applyRemoteOperation(op)] *)
Definition applyRemoteOperation (st : t) (op : Operation.t) : outcome (t * list Effect) :=
  match findIndex (Operation.id op) (offlineQueue st) with
  | Some indexInQueue =>
      Returns (set_offlineQueue st (delete indexInQueue (offlineQueue st)), [])
  | None =>
      if negb (isLiveMode st)
      then Returns (set_remoteOperationsBuffer st (remoteOperationsBuffer st ++ [op]), [])
      else applyOperation st op true
  end.

(** [resume()], the [while] loop.  A merge that raises ends the loop and
    [resume] with it: the replica is left live, with the operations not yet
    shifted still in the buffer, nothing flushed and no [resume] event. *)
Fixpoint drain (st : t) (buffer : list Operation.t) : outcome (t * list Effect) :=
  match buffer with
  | [] => Returns (st, [])
  | op :: rest =>
      and_then (applyOperation (set_remoteOperationsBuffer st rest) op true)
               (fun st1 => drain st1 rest)
  end.

Definition resume (st : t) : outcome (t * list Effect) :=
  if negb (isLiveMode st) then
    and_then (drain (set_isLiveMode st true) (remoteOperationsBuffer st)) (fun st1 =>
    and_then (Returns (processOfflineQueue (set_remoteOperationsBuffer st1 []))) (fun st2 =>
    Returns (st2, [Emit_resume])))
  else Returns (st, []).

Definition on_operation (st : t) (room : string) (op : Operation.t)
    : outcome (t * list Effect) :=
  if String.eqb room (roomId st) then applyRemoteOperation st op else Returns (st, []).

Definition step (st : t) (i : Input) : outcome (t * list Effect) :=
  match i with
  | Call_set path value idNow rnd now => set st path value idNow rnd now
  | Call_delete path idNow rnd now => delete_ st path idNow rnd now
  | Call_resume => resume st
  | Sock_operation room op => on_operation st room op
  | _ => Returns (CollabDoc.step st i)
  end.

(** The state after a sequence of inputs each of which returned. *)
Fixpoint run (st : t) (inputs : list Input) : outcome (t * list (list Effect)) :=
  match inputs with
  | [] => Returns (st, [])
  | i :: rest =>
      outcome_bind (step st i) (fun r1 =>
      outcome_bind (run (fst r1) rest) (fun r2 =>
      Returns (fst r2, snd r1 :: snd r2)))
  end.

(** A state some sequence of inputs leads a fresh replica to, every call
    and handler on the way having returned. *)
Definition reachable (st : t) : Prop :=
  exists room actor inputs effects, run (new room actor) inputs = Returns (st, effects).

End ClientRun.

Module ServerRun.

Import Server.

(** [deepSet(obj, path, value)]: it tests [key in current] and calls
    nothing on [current]. *)
Fixpoint deepSet (current : container) (path : Path) (value : jsval) : outcome container :=
  match path with
  | key :: ((next :: _) as rest) =>
      let k := ToPropertyKey (Some key) in
      let child := get_prop current k in
      if exotic_key current k then assign_fresh_exotic current k (Some next)
      else if negb (hasOwnProperty current k) || negb (typeof_object child) || is_null child
      then
        let fresh := if is_number (Some next) then CArr [] ∅ else CObj ∅ in
        outcome_bind (deepSet fresh rest value) (fun c =>
        Returns (set_prop current k (of_container c)))
      else
        match as_container child with
        | Some c0 =>
            outcome_bind (deepSet c0 rest value) (fun c =>
            Returns (set_prop current k (of_container c)))
        | None => Returns current
        end
  | _ =>
      let k := ToPropertyKey (head path) in
      if exotic_key current k then Exotic else Returns (set_prop current k value)
  end.

(** [deepDelete(obj, path)]: the loop tests [key in current]; the last
    step calls [current.splice] for an array element in range and
    [current.hasOwnProperty(lastSegment)] for anything else. *)
Fixpoint deepDelete (current : container) (path : Path) : outcome container :=
  match path with
  | key :: ((_ :: _) as rest) =>
      let k := ToPropertyKey (Some key) in
      let child := get_prop current k in
      if exotic_key current k then Exotic
      else if negb (hasOwnProperty current k) || negb (typeof_object child) || is_null child
      then Returns current
      else
        match as_container child with
        | Some c0 =>
            outcome_bind (deepDelete c0 rest) (fun c =>
            Returns (set_prop current k (of_container c)))
        | None => Returns current
        end
  | _ =>
      let lastSegment := head path in
      let k := ToPropertyKey lastSegment in
      match current, lastSegment with
      | CArr els named, Some (SNum n) =>
          if (0 <=? n) && (n <? Z.of_nat (length els))
          then if shadows_splice current then Raises TypeError
               else Returns (CArr (splice1 els n) named)
          else Returns current
      | _, _ =>
          if shadows_hasOwnProperty current then Raises TypeError
          else if exotic_key current k then Exotic
          else if hasOwnProperty current k
          then Returns (delete_prop current k)
          else Returns current
      end
  end.

(** The merge of one operation into a room's document and metadata. *)
Definition merge (currentRoomState : container)
    (currentRoomMetadata : gmap string Metadata.t) (operation : Operation.t)
    : outcome (option (container * gmap string Metadata.t)) :=
  let pathKey := JSON_stringify (Operation.path operation) in
  let existingMetadata := currentRoomMetadata !! pathKey in
  if Merge.server_apply existingMetadata operation then
    outcome_bind
      match Operation.op operation with
      | OpSet => deepSet currentRoomState (Operation.path operation) (Operation.value operation)
      | OpDel => deepDelete currentRoomState (Operation.path operation)
      end (fun state =>
    let md :=
      match Operation.op operation with
      | OpDel => delete pathKey currentRoomMetadata
      | OpSet => <[pathKey := Operation.triple operation]> currentRoomMetadata
      end in
    Returns (Some (state, md)))
  else Returns None.

(** [socket.on('operation', ...)]: the broadcast is the last statement of
    the handler, after the merge; a merge that raises leaves the handler
    before it, the room as it was. *)
Definition on_operation (st : t) (socketId roomId : string) (operation : Operation.t)
    : outcome (t * list Effect) :=
  let currentRoomState := default (CObj ∅) (roomStates st !! roomId) in
  let currentRoomMetadata := default ∅ (roomMetadata st !! roomId) in
  outcome_bind (merge currentRoomState currentRoomMetadata operation) (fun merged =>
  let st1 :=
    match merged with
    | Some (state, md) =>
        mk (<[roomId := state]> (roomStates st)) (<[roomId := md]> (roomMetadata st)) (joined st)
    | None => st
    end in
  Returns (st1, [Io_to_emit roomId (Operation_msg roomId operation)])).

End ServerRun.

(** ** What the wire does to a value

    [JSON.parse(JSON.stringify(v))], which is what a value sent through the
    socket arrives as: an array keeps its elements and loses its named
    properties, an element that is [undefined] (or a hole) arrives as
    [null], a property that holds [undefined] does not arrive. *)
Definition is_undefined (v : jsval) : bool :=
  match v with
  | VUndef => true
  | _ => false
  end.

Fixpoint JSON_roundtrip (v : jsval) : jsval :=
  match v with
  | VArr els _ =>
      VArr (map (fun e => if is_undefined e then VNull else JSON_roundtrip e) els) ∅
  | VObj props =>
      VObj (omap (fun x => if is_undefined x then None else Some (JSON_roundtrip x)) props)
  | _ => v
  end.

(** The same for a document. *)
Definition JSON_roundtrip_doc (c : container) : container :=
  match c with
  | CArr els _ =>
      CArr (map (fun e => if is_undefined e then VNull else JSON_roundtrip e) els) ∅
  | CObj props =>
      CObj (omap (fun x => if is_undefined x then None else Some (JSON_roundtrip x)) props)
  end.

(** ** Descriptions used by the properties *)

(** The walk of a [delete] gets to the parent of the last segment: every
    segment before the last names an own property of the cursor that holds
    a container of the kind the next segment asks for (an array for a
    number, an object for a string). *)
Inductive reaches_parent : container -> Path -> Prop :=
| reaches_parent_short c path : (length path <= 1)%nat -> reaches_parent c path
| reaches_parent_step c s next rest child :
    hasOwnProperty c (ToPropertyKey (Some s)) = true ->
    as_container (get_prop c (ToPropertyKey (Some s))) = Some child ->
    Array_isArray (of_container child) = is_number (Some next) ->
    reaches_parent child (next :: rest) ->
    reaches_parent c (s :: next :: rest).

(** The Remote Buffer replayed as the specification words it: the buffered
    operations in arrival order, each merged as a remote operation into the
    state the previous one left. *)
Fixpoint replay_in_arrival_order (st : CollabDoc.t) (buffered : list Operation.t)
    : CollabDoc.t * list CollabDoc.Effect :=
  match buffered with
  | [] => (st, [])
  | op :: rest =>
      CollabDoc.and_then (CollabDoc.applyOperation st op true)
        (fun st1 => replay_in_arrival_order st1 rest)
  end.

(** No container of the wrong kind lies on the path: wherever a segment
    before the last names an object or an array, it is an array if the next
    segment is a number and an object if it is a string. *)
Fixpoint kinds_agree (c : container) (path : Path) : Prop :=
  match path with
  | s :: ((next :: _) as rest) =>
      match as_container (get_prop c (ToPropertyKey (Some s))) with
      | Some child =>
          Array_isArray (of_container child) = is_number (Some next)
          /\ kinds_agree child rest
      | None => True
      end
  | _ => True
  end.

(** The document and the metadata the server holds for a room; a room it
    has not seen reads as an empty document without metadata. *)
Definition room_doc (srv : Server.t) (roomId : string) : container :=
  default (CObj ∅) (Server.roomStates srv !! roomId).

Definition room_metadata (srv : Server.t) (roomId : string) : gmap string Metadata.t :=
  default ∅ (Server.roomMetadata srv !! roomId).

(** No segment of the path is the key [hasOwnProperty], [__proto__] or
    [length]. *)
Definition plain_segment (s : segment) : bool :=
  let key := ToPropertyKey (Some s) in
  negb (String.eqb key "hasOwnProperty") && negb (String.eqb key "__proto__")
  && negb (String.eqb key "length").

Definition plain_path (path : Path) : bool := forallb plain_segment path.

(** Every segment of the path is a string. *)
Definition property_names (path : Path) : bool :=
  forallb (fun s => negb (is_number (Some s))) path.

(** The queued operations carry primitive values: none of them shares an
    object with the document. *)
Definition holds_primitives (queue : list Operation.t) : Prop :=
  Forall (fun o => as_container (Operation.value o) = None) queue.

(** An event that tells the listeners the document may have changed:
    [change], emitted by [applyOperation], and [synced], emitted when the
    initial state has replaced the document. *)
Definition announces (e : CollabDoc.Effect) : bool :=
  match e with
  | CollabDoc.Emit_change _ _ _ _ | CollabDoc.Emit_synced => true
  | _ => false
  end.

(** ** Scenarios *)

(** A paused replica with one queued local operation and two buffered
    remote operations on the same key, the older one last. *)
Definition paused_replica : CollabDoc.t :=
  CollabDoc.mk "room" "A" (CObj ∅) ∅
    [Operation.mk "A-1-q" [SStr "localQueue"] OpSet (VStr "localValue") 1 "A" 1]
    true true false
    [Operation.mk "remote-buffered-win" [SStr "conflictKey"] OpSet (VStr "initialRemote") 100 "B" 1;
     Operation.mk "remote-buffered-lose" [SStr "conflictKey"] OpSet (VStr "olderRemote") 50 "C" 1].

(** A run in which a replica ends with metadata for a path whose parent is
    gone: a remote [set] of [a.b], then a remote [delete] of [a]. *)
Definition orphan_inputs : list CollabDoc.Input :=
  [CollabDoc.Sock_connect;
   CollabDoc.Sock_initial_state (CObj ∅) ∅;
   CollabDoc.Sock_operation "room"
     (Operation.mk "X-100-s" [SStr "a"; SStr "b"] OpSet (VNum 1) 100 "X" 1);
   CollabDoc.Sock_operation "room"
     (Operation.mk "X-150-d" [SStr "a"] OpDel VUndef 150 "X" 1)].

Definition orphan_state : CollabDoc.t :=
  fst (CollabDoc.run (CollabDoc.new "room" "A") orphan_inputs).

Definition late_delete : Operation.t :=
  Operation.mk "Y-200-d" [SStr "a"; SStr "b"] OpDel VUndef 200 "Y" 2.

Definition older_set : Operation.t :=
  Operation.mk "Z-50-s" [SStr "a"; SStr "b"] OpSet (VNum 7) 50 "Z" 1.

(** A live replica holding [data], written by the server at time 50. *)
Definition replica_with_data : CollabDoc.t :=
  CollabDoc.mk "room" "A" (CObj {[ "data" := VStr "initial" ]})
    {[ JSON_stringify [SStr "data"] := Metadata.mk 50 "server-init" 0 ]}
    [] true true true [].

(** A document in which [a] holds an object, and a [set] that addresses
    [a] as an array. *)
Definition drifted_doc : container := CObj {[ "a" := VObj {[ "x" := VNum 1 ]} ]}.

Definition set_into_array : Operation.t :=
  Operation.mk "B-10-s" [SStr "a"; SNum 0] OpSet (VNum 2) 10 "B" 1.

(** A synced, live replica deletes [a] and then hears the server's echo. *)
Definition own_delete : Operation.t :=
  Operation.mk "A-10-r" [SStr "a"] OpDel VUndef 10 "A" 2.

Definition echo_inputs : list CollabDoc.Input :=
  [CollabDoc.Sock_connect;
   CollabDoc.Sock_initial_state (CObj {[ "a" := VNum 1 ]})
     {[ JSON_stringify [SStr "a"] := Metadata.mk 5 "B" 1 ]};
   CollabDoc.Call_delete [SStr "a"] 10 "r" 10;
   CollabDoc.Sock_operation "room" own_delete].

(** A paused replica queues a [set]; the transport drops and comes back. *)
Definition queued_while_paused : Operation.t :=
  Operation.mk "A-1-r" [SStr "a"] OpSet (VNum 1) 1 "A" 1.

Definition paused_flush_inputs : list CollabDoc.Input :=
  [CollabDoc.Sock_connect;
   CollabDoc.Sock_initial_state (CObj ∅) ∅;
   CollabDoc.Call_pause;
   CollabDoc.Call_set [SStr "a"] (VNum 1) 1 "r" 1;
   CollabDoc.Sock_disconnect "transport close";
   CollabDoc.Sock_connect;
   CollabDoc.Sock_initial_state (CObj ∅) ∅].

(** A synced replica loses its transport, gets it back, and sets [a]
    before any new initial state has come. *)
Definition reconnect_inputs : list CollabDoc.Input :=
  [CollabDoc.Sock_connect;
   CollabDoc.Sock_initial_state (CObj ∅) ∅;
   CollabDoc.Sock_disconnect "transport close";
   CollabDoc.Sock_connect;
   CollabDoc.Call_set [SStr "a"] (VNum 1) 1 "r" 1].

(** A room whose document the server has let a client shadow
    [hasOwnProperty] in, and a [delete] sent to it afterwards. *)
Definition shadowing_set : Operation.t :=
  Operation.mk "B-10-s" [SStr "hasOwnProperty"] OpSet (VNum 1) 10 "B" 1.

Definition delete_after_shadowing : Operation.t :=
  Operation.mk "C-20-d" [SStr "x"] OpDel VUndef 20 "C" 1.

Definition joined_room : Server.t :=
  fst (Server.on_join_room (fst (Server.on_join_room Server.start "s1" "room")) "s2" "room").

(** A replica receives a document in which [a] holds an object with the
    key [0], is paused, and deletes [a[0]]. *)
Definition mismatched_delete : Operation.t :=
  Operation.mk "A-10-r" [SStr "a"; SNum 0] OpDel VUndef 10 "A" 1.

Definition mismatched_delete_inputs : list CollabDoc.Input :=
  [CollabDoc.Sock_connect;
   CollabDoc.Sock_initial_state (CObj {[ "a" := VObj {[ "0" := VNum 5 ]} ]}) ∅;
   CollabDoc.Call_pause;
   CollabDoc.Call_delete [SStr "a"; SNum 0] 10 "r" 10].

(** * Properties *)

(** ** Order on strings *)

Lemma ascii_compare_lt (c1 c2 : ascii) :
  Ascii.compare c1 c2 = Lt <-> (N_of_ascii c1 < N_of_ascii c2)%N.
Proof. unfold Ascii.compare. apply N.compare_lt_iff. Qed.

Lemma ascii_compare_eq (c1 c2 : ascii) : Ascii.compare c1 c2 = Eq <-> c1 = c2.
Proof.
  unfold Ascii.compare. rewrite N.compare_eq_iff. split.
  - intros H. rewrite <- (ascii_N_embedding c1), <- (ascii_N_embedding c2). now rewrite H.
  - now intros ->.
Qed.

Lemma string_compare_lt (s1 s2 : string) : String.compare s1 s2 = Lt <-> lex_lt s1 s2.
Proof.
  revert s2. induction s1 as [|c1 s1 IH]; intros [|c2 s2]; simpl.
  - split; [discriminate | inversion 1].
  - split; [constructor | reflexivity].
  - split; [discriminate | inversion 1].
  - destruct (Ascii.compare c1 c2) eqn:E.
    + apply ascii_compare_eq in E as ->. rewrite IH. split.
      * now constructor.
      * inversion 1; subst; [lia | assumption].
    + apply ascii_compare_lt in E. split; [now constructor | reflexivity].
    + split; [discriminate |].
      assert (N_of_ascii c2 < N_of_ascii c1)%N as Hgt.
      { unfold Ascii.compare in E. now apply N.compare_gt_iff in E. }
      inversion 1; subst; lia.
Qed.

Lemma string_ltb_lex (s1 s2 : string) : String.ltb s1 s2 = true <-> lex_lt s1 s2.
Proof.
  rewrite <- string_compare_lt. unfold String.ltb.
  destruct (String.compare s1 s2); split; congruence.
Qed.

(** ** The merge decision *)

Lemma incomingWins_spec (op : Operation.t) (m : Metadata.t) :
  Merge.incomingWins op m = true <->
  Metadata.timestamp m < Operation.timestamp op \/
  (Operation.timestamp op = Metadata.timestamp m /\
   lex_lt (Operation.actorId op) (Metadata.actorId m)).
Proof.
  unfold Merge.incomingWins.
  rewrite orb_true_iff, andb_true_iff, Z.ltb_lt, Z.eqb_eq, string_ltb_lex. tauto.
Qed.

Lemma server_apply_incomingWins (op : Operation.t) (m : Metadata.t) :
  Merge.server_apply (Some m) op = Merge.incomingWins op m.
Proof.
  unfold Merge.server_apply, Merge.incomingWins.
  destruct (Metadata.timestamp m <? Operation.timestamp op); simpl; [reflexivity |].
  now destruct (_ && _).
Qed.

Lemma client_apply_remote (existing : option Metadata.t) (op : Operation.t) :
  Merge.client_apply true existing op = Merge.server_apply existing op.
Proof.
  destruct existing as [m|]; [| reflexivity].
  rewrite server_apply_incomingWins. simpl. now destruct (Merge.incomingWins op m).
Qed.

(** C1. With no metadata at the path every operation is accepted, local or
    remote, by the client and by the server.  With metadata [m] at the path,
    a remote operation is accepted exactly when its timestamp is greater
    than [m]'s, or the timestamps are equal and its writer id is
    lexicographically smaller than [m]'s. *)
Theorem lww_merge_decision (op : Operation.t) :
  (forall isRemote, Merge.client_apply isRemote None op = true)
  /\ Merge.server_apply None op = true
  /\ (forall m,
        Merge.client_apply true (Some m) op = true <->
        Metadata.timestamp m < Operation.timestamp op \/
        (Operation.timestamp op = Metadata.timestamp m /\
         lex_lt (Operation.actorId op) (Metadata.actorId m)))
  /\ (forall m,
        Merge.server_apply (Some m) op = true <->
        Metadata.timestamp m < Operation.timestamp op \/
        (Operation.timestamp op = Metadata.timestamp m /\
         lex_lt (Operation.actorId op) (Metadata.actorId m))).
Proof.
  split; [reflexivity |]. split; [reflexivity |]. split; intros m.
  - rewrite client_apply_remote, server_apply_incomingWins. apply incomingWins_spec.
  - rewrite server_apply_incomingWins. apply incomingWins_spec.
Qed.

(** The scenarios of the specification: existing metadata at timestamp 100. *)
Example lww_scenarios :
  let existing w := Some (Metadata.mk 100 w 0) in
  let incoming ts w := Operation.mk "o" [SStr "key"] OpSet VNull ts w 1 in
  Merge.client_apply true (existing "X") (incoming 200 "Y") = true
  /\ Merge.client_apply true (existing "X") (incoming 50 "Y") = false
  /\ Merge.client_apply true (existing "M") (incoming 100 "A") = true
  /\ Merge.client_apply true (existing "M") (incoming 100 "Z") = false
  /\ Merge.server_apply (existing "M") (incoming 100 "A") = true
  /\ Merge.server_apply (existing "M") (incoming 100 "Z") = false.
Proof. repeat split. Qed.

(** C10. The decision reads the incoming operation's timestamp and writer
    id only: two operations that agree on path, timestamp and writer id
    get the same decision against any metadata map, whatever their id,
    version and value, and the client and the server decide alike. *)
Theorem decision_reads_timestamp_and_writer
    (md : gmap string Metadata.t) (op1 op2 : Operation.t) :
  Operation.path op1 = Operation.path op2 ->
  Operation.timestamp op1 = Operation.timestamp op2 ->
  Operation.actorId op1 = Operation.actorId op2 ->
  Merge.client_apply true (md !! JSON_stringify (Operation.path op1)) op1
    = Merge.client_apply true (md !! JSON_stringify (Operation.path op2)) op2
  /\ Merge.server_apply (md !! JSON_stringify (Operation.path op1)) op1
    = Merge.server_apply (md !! JSON_stringify (Operation.path op2)) op2
  /\ Merge.client_apply true (md !! JSON_stringify (Operation.path op1)) op1
    = Merge.server_apply (md !! JSON_stringify (Operation.path op2)) op2.
Proof.
  intros Hp Ht Ha. rewrite !client_apply_remote, Hp.
  assert (Merge.server_apply (md !! JSON_stringify (Operation.path op2)) op1
          = Merge.server_apply (md !! JSON_stringify (Operation.path op2)) op2) as E.
  { destruct (md !! _) as [m|]; [| reflexivity].
    rewrite !server_apply_incomingWins. unfold Merge.incomingWins. now rewrite Ht, Ha. }
  now rewrite E.
Qed.

Lemma decision_reads_timestamp_and_writer_witness :
  let md : gmap string Metadata.t := {[ JSON_stringify [SStr "key"] := Metadata.mk 100 "M" 3 ]} in
  let op1 := Operation.mk "id-1" [SStr "key"] OpSet (VNum 1) 100 "A" 1 in
  let op2 := Operation.mk "id-2" [SStr "key"] OpDel VUndef 100 "A" 7 in
  Merge.client_apply true (md !! JSON_stringify (Operation.path op1)) op1
    = Merge.client_apply true (md !! JSON_stringify (Operation.path op2)) op2
  /\ Merge.server_apply (md !! JSON_stringify (Operation.path op1)) op1
    = Merge.server_apply (md !! JSON_stringify (Operation.path op2)) op2
  /\ Merge.client_apply true (md !! JSON_stringify (Operation.path op1)) op1
    = Merge.server_apply (md !! JSON_stringify (Operation.path op2)) op2.
Proof.
  intros md op1 op2.
  apply (decision_reads_timestamp_and_writer md op1 op2); reflexivity.
Defined.

(** ** Property access *)

Lemma as_of_container (c : container) : as_container (of_container c) = Some c.
Proof. now destruct c. Qed.

Lemma as_container_inv (v : jsval) (c : container) :
  as_container v = Some c -> v = of_container c.
Proof. destruct v; cbn; intros H; try discriminate H; now injection H as <-. Qed.

Lemma non_null_object_is_container (v : jsval) :
  typeof_object v = true -> is_null v = false -> exists c, as_container v = Some c.
Proof. destruct v; simpl; try discriminate; eauto. Qed.

Lemma get_set_prop (c : container) (key : string) (v : jsval) :
  get_prop (set_prop c key v) key = v.
Proof.
  destruct c as [els named | props]; simpl.
  - destruct (array_index key) as [i|] eqn:E.
    + case_bool_decide as Hi; simpl; rewrite E.
      * now rewrite list_lookup_insert_eq.
      * rewrite lookup_app_r by lia.
        rewrite lookup_app_r by (rewrite length_replicate; lia).
        rewrite length_replicate.
        now replace (i - length els - (i - length els))%nat with 0%nat by lia.
    + simpl. rewrite E. now rewrite lookup_insert_eq.
  - now rewrite lookup_insert_eq.
Qed.

Lemma has_set_prop (c : container) (key : string) (v : jsval) :
  hasOwnProperty (set_prop c key v) key = true.
Proof.
  destruct c as [els named | props]; simpl.
  - destruct (array_index key) as [i|] eqn:E.
    + case_bool_decide as Hi; simpl; rewrite E; apply bool_decide_eq_true.
      * now rewrite length_insert.
      * rewrite !length_app, length_replicate. simpl. lia.
    + simpl. rewrite E. apply bool_decide_eq_true. rewrite lookup_insert_eq. eauto.
  - apply bool_decide_eq_true. rewrite lookup_insert_eq. eauto.
Qed.

(** ** The client's walk *)

Lemma walk_unfold_last (action : OpKind) (c : container) (s : segment) (v : jsval) :
  CollabDoc.walk action c [s] v = (CollabDoc.last_step action c (Some s) v, true).
Proof. reflexivity. Qed.

Lemma walk_unfold_step (action : OpKind) (c : container) (s next : segment) (rest : Path)
    (v : jsval) :
  CollabDoc.walk action c (s :: next :: rest) v =
  let key := ToPropertyKey (Some s) in
  let child := get_prop c key in
  if negb (hasOwnProperty c key) || is_null child || negb (typeof_object child)
     || negb (Bool.eqb (Array_isArray child) (is_number (Some next)))
  then
    match action with
    | OpSet =>
        let '(c1, finished) :=
          CollabDoc.walk action (if is_number (Some next) then CArr [] ∅ else CObj ∅)
            (next :: rest) v in
        (set_prop c key (of_container c1), finished)
    | OpDel => (c, false)
    end
  else
    match as_container child with
    | Some c0 =>
        let '(c1, finished) := CollabDoc.walk action c0 (next :: rest) v in
        (set_prop c key (of_container c1), finished)
    | None => (c, false)
    end.
Proof. reflexivity. Qed.

(** The walk of a [set] through two or more segments: it goes on in the
    child the segment names when that child is a container of the kind the
    next segment asks for, and in a fresh container otherwise. *)
Lemma walk_set_step (c : container) (s next : segment) (rest : Path) (v : jsval) :
  exists c0,
    CollabDoc.walk OpSet c (s :: next :: rest) v =
    (set_prop c (ToPropertyKey (Some s))
       (of_container (fst (CollabDoc.walk OpSet c0 (next :: rest) v))),
     snd (CollabDoc.walk OpSet c0 (next :: rest) v)).
Proof.
  rewrite walk_unfold_step. cbv zeta.
  destruct (negb (hasOwnProperty c (ToPropertyKey (Some s))) || _ || _ || _) eqn:E.
  - exists (if is_number (Some next) then CArr [] ∅ else CObj ∅).
    now destruct (CollabDoc.walk OpSet _ (next :: rest) v).
  - rewrite !orb_false_iff, !negb_false_iff in E. destruct E as [[[_ Hn] Ht] _].
    destruct (non_null_object_is_container _ Ht Hn) as [c0 ->]. exists c0.
    now destruct (CollabDoc.walk OpSet c0 (next :: rest) v).
Qed.

(** A [set] is never dropped on the way. *)
Lemma walk_set_finished (path : Path) (c : container) (v : jsval) :
  snd (CollabDoc.walk OpSet c path v) = true.
Proof.
  revert c. induction path as [|s [|next rest] IH]; intros c; try reflexivity.
  destruct (walk_set_step c s next rest v) as [c0 ->]. apply IH.
Qed.

(** What a [set] wrote at a path is what [get] reads there. *)
Lemma get_walk_set (path : Path) (c : container) (v : jsval) :
  path <> [] ->
  CollabDoc.get_from (of_container (fst (CollabDoc.walk OpSet c path v))) path = v.
Proof.
  revert c. induction path as [|s [|next rest] IH]; intros c Hne; [congruence | |].
  - rewrite walk_unfold_last. cbn [fst CollabDoc.last_step CollabDoc.get_from].
    now rewrite as_of_container, has_set_prop, get_set_prop.
  - destruct (walk_set_step c s next rest v) as [c0 ->].
    cbn [fst]. cbn [CollabDoc.get_from].
    rewrite as_of_container, has_set_prop, get_set_prop. cbn [negb].
    now apply IH.
Qed.

(** Writing back what a property already holds changes nothing. *)
Lemma set_prop_get_prop (c : container) (key : string) :
  hasOwnProperty c key = true -> set_prop c key (get_prop c key) = c.
Proof.
  destruct c as [els named | props]; cbn.
  - destruct (array_index key) as [i|].
    + intros Hi. rewrite Hi. apply bool_decide_eq_true in Hi.
      destruct (lookup_lt_is_Some_2 els i Hi) as [x Hx].
      rewrite Hx. cbn. now rewrite list_insert_id.
    + intros Hk. apply bool_decide_eq_true in Hk as [x Hx].
      rewrite Hx. cbn. now rewrite insert_id.
  - intros Hk. apply bool_decide_eq_true in Hk as [x Hx].
    rewrite Hx. cbn. now rewrite insert_id.
Qed.

(** The walk of a [delete] reaches the last step exactly when the path
    leads to a parent container. *)
Lemma walk_del_finished (path : Path) (c : container) (v : jsval) :
  snd (CollabDoc.walk OpDel c path v) = true <-> reaches_parent c path.
Proof.
  revert c. induction path as [|s [|next rest] IH]; intros c.
  - split; [constructor; cbn; lia | reflexivity].
  - split; [constructor; cbn; lia | reflexivity].
  - rewrite walk_unfold_step. cbv zeta.
    destruct (negb (hasOwnProperty c (ToPropertyKey (Some s))) || _ || _ || _) eqn:E.
    + split; [discriminate |]. intros H. exfalso.
      inversion H as [? ? Hlen | ? ? ? ? child Hhas Hchild Hkind Hrest]; subst.
      * cbn in Hlen. lia.
      * rewrite Hhas in E. cbn [negb orb] in E.
        rewrite (as_container_inv _ _ Hchild), Hkind, eqb_reflx in E.
        now destruct child.
    + rewrite !orb_false_iff, !negb_false_iff in E. destruct E as [[[Hhas Hn] Ht] Hkind].
      destruct (non_null_object_is_container _ Ht Hn) as [c0 Hc0]. rewrite Hc0.
      assert (snd (let '(c1, finished) := CollabDoc.walk OpDel c0 (next :: rest) v in
                   (set_prop c (ToPropertyKey (Some s)) (of_container c1), finished))
              = snd (CollabDoc.walk OpDel c0 (next :: rest) v)) as ->.
      { now destruct (CollabDoc.walk OpDel c0 (next :: rest) v). }
      rewrite IH. split.
      * intros Hrest. apply (reaches_parent_step c s next rest c0); try assumption.
        apply eqb_prop in Hkind. rewrite <- Hkind.
        now rewrite (as_container_inv _ _ Hc0).
      * intros H. inversion H as [? ? Hlen | ? ? ? ? child _ Hchild _ Hrest]; subst.
        -- cbn in Hlen. lia.
        -- rewrite Hc0 in Hchild. now injection Hchild as <-.
Qed.

(** A [delete] that is dropped on the way has changed nothing. *)
Lemma walk_del_dropped (path : Path) (c : container) (v : jsval) :
  snd (CollabDoc.walk OpDel c path v) = false -> fst (CollabDoc.walk OpDel c path v) = c.
Proof.
  revert c. induction path as [|s [|next rest] IH]; intros c; try discriminate.
  rewrite walk_unfold_step. cbv zeta.
  destruct (negb (hasOwnProperty c (ToPropertyKey (Some s))) || _ || _ || _) eqn:E;
    [reflexivity |].
  rewrite !orb_false_iff, !negb_false_iff in E. destruct E as [[[Hhas _] _] _].
  destruct (as_container (get_prop c (ToPropertyKey (Some s)))) as [c0|] eqn:Hc0;
    [| reflexivity].
  specialize (IH c0).
  destruct (CollabDoc.walk OpDel c0 (next :: rest) v) as [c1 fin]. cbn [fst snd] in *.
  intros ->. rewrite (IH eq_refl), <- (as_container_inv _ _ Hc0).
  now apply set_prop_get_prop.
Qed.

(** ** The server's walks *)

Lemma deepSet_step (c : container) (s next : segment) (rest : Path) (v : jsval) :
  exists c0,
    Server.deepSet c (s :: next :: rest) v =
    set_prop c (ToPropertyKey (Some s)) (of_container (Server.deepSet c0 (next :: rest) v)).
Proof.
  cbn [Server.deepSet].
  destruct (negb (hasOwnProperty c (ToPropertyKey (Some s))) || _ || _) eqn:E.
  - now exists (if is_number (Some next) then CArr [] ∅ else CObj ∅).
  - rewrite !orb_false_iff, !negb_false_iff in E. destruct E as [[_ Ht] Hn].
    destruct (non_null_object_is_container _ Ht Hn) as [c0 ->]. now exists c0.
Qed.

Lemma get_deepSet (path : Path) (c : container) (v : jsval) :
  path <> [] ->
  CollabDoc.get_from (of_container (Server.deepSet c path v)) path = v.
Proof.
  revert c. induction path as [|s [|next rest] IH]; intros c Hne; [congruence | |].
  - cbn [Server.deepSet head CollabDoc.get_from].
    now rewrite as_of_container, has_set_prop, get_set_prop.
  - destruct (deepSet_step c s next rest v) as [c0 ->].
    cbn [CollabDoc.get_from].
    rewrite as_of_container, has_set_prop, get_set_prop. cbn [negb].
    now apply IH.
Qed.

(** ** Rejection *)

Lemma applyOperation_rejected (st : CollabDoc.t) (op : Operation.t) :
  Merge.client_apply true (CollabDoc.metadata st !! JSON_stringify (Operation.path op)) op = false ->
  CollabDoc.applyOperation st op true = (st, []).
Proof. intros H. unfold CollabDoc.applyOperation. now rewrite H. Qed.

Lemma server_merge_rejected (state : container) (md : gmap string Metadata.t)
    (op : Operation.t) :
  Merge.server_apply (md !! JSON_stringify (Operation.path op)) op = false ->
  Server.merge state md op = None.
Proof. intros H. unfold Server.merge. now rewrite H. Qed.

(** C8. An operation the merge decision rejects changes nothing and raises
    no event.  On a client, [applyOperation] in remote mode returns the
    state it was given and emits nothing, and so the handler of the incoming
    operation leaves document and metadata as they were and emits nothing,
    whatever the replica's mode.  On the server the room's document and
    metadata, and every other room, stay as they were. *)
Theorem rejected_operation_is_dropped :
  (forall (st : CollabDoc.t) (op : Operation.t),
      Merge.client_apply true
        (CollabDoc.metadata st !! JSON_stringify (Operation.path op)) op = false ->
      CollabDoc.applyOperation st op true = (st, [])
      /\ forall room,
          CollabDoc.doc (fst (CollabDoc.on_operation st room op)) = CollabDoc.doc st
          /\ CollabDoc.metadata (fst (CollabDoc.on_operation st room op)) = CollabDoc.metadata st
          /\ snd (CollabDoc.on_operation st room op) = [])
  /\ (forall (srv : Server.t) (socketId roomId : string) (op : Operation.t),
      Merge.server_apply
        (default ∅ (Server.roomMetadata srv !! roomId) !! JSON_stringify (Operation.path op))
        op = false ->
      fst (Server.on_operation srv socketId roomId op) = srv).
Proof.
  split.
  - intros st op H. split; [now apply applyOperation_rejected |].
    intros room. unfold CollabDoc.on_operation, CollabDoc.applyRemoteOperation.
    destruct (String.eqb room (CollabDoc.roomId st)); [| auto].
    destruct (CollabDoc.findIndex _ _); [auto |].
    destruct (CollabDoc.isLiveMode st); simpl; [| auto].
    now rewrite applyOperation_rejected.
  - intros srv socketId roomId op H. unfold Server.on_operation.
    now rewrite server_merge_rejected.
Qed.

Lemma rejected_operation_is_dropped_witness :
  let md : gmap string Metadata.t := {[ JSON_stringify [SStr "key"] := Metadata.mk 200 "B" 1 ]} in
  let st := CollabDoc.mk "room" "A" (CObj {[ "key" := VStr "newer" ]}) md [] true true true [] in
  let srv := Server.mk {[ "room" := CObj {[ "key" := VStr "newer" ]} ]} {[ "room" := md ]} ∅ in
  let op := Operation.mk "C-150-x" [SStr "key"] OpSet (VStr "older") 150 "C" 1 in
  CollabDoc.applyOperation st op true = (st, [])
  /\ fst (Server.on_operation srv "s1" "room" op) = srv.
Proof.
  intros md st srv op. destruct rejected_operation_is_dropped as [Hclient Hserver]. split.
  - apply (Hclient st op). reflexivity.
  - apply (Hserver srv "s1" "room" op). reflexivity.
Defined.

(** ** The server's broadcast *)

(** C7. Not every operation the server receives is rebroadcast.  Two
    sockets have joined a room.  The first sends a [set] of the key
    [hasOwnProperty]: the server stores it and rebroadcasts it.  The second
    then sends a [delete] of [x], which the merge decision accepts:
    [deepDelete] calls [current.hasOwnProperty(lastSegment)] on the room's
    document, the call raises, and the handler is left before
    [io.to(roomId).emit]: the operation reaches nobody. *)
Theorem server_raise_skips_rebroadcast :
  let r1 := Server.on_operation joined_room "s1" "room" shadowing_set in
  Server.members joined_room "room" = {[ "s1"; "s2" ]}
  /\ ServerRun.on_operation joined_room "s1" "room" shadowing_set = Returns r1
  /\ snd r1 = [Server.Io_to_emit "room" (Server.Operation_msg "room" shadowing_set)]
  /\ room_doc (fst r1) "room" = CObj {[ "hasOwnProperty" := VNum 1 ]}
  /\ Merge.server_apply
       (room_metadata (fst r1) "room" !! JSON_stringify (Operation.path delete_after_shadowing))
       delete_after_shadowing = true
  /\ ServerRun.deepDelete (room_doc (fst r1) "room") (Operation.path delete_after_shadowing)
     = Raises TypeError
  /\ ServerRun.on_operation (fst r1) "s2" "room" delete_after_shadowing = Raises TypeError.
Proof.
  cbv zeta. split.
  - unfold Server.members. vm_compute. reflexivity.
  - repeat split; vm_compute; reflexivity.
Qed.

(** ** Pause and resume *)

Lemma and_then_pair (r : CollabDoc.t * list CollabDoc.Effect)
    (k : CollabDoc.t -> CollabDoc.t * list CollabDoc.Effect) :
  CollabDoc.and_then r k = (fst (k (fst r)), snd r ++ snd (k (fst r))).
Proof. destruct r as [st1 e1]. simpl. now destruct (k st1). Qed.

Lemma client_apply_local (existing : option Metadata.t) (op : Operation.t) :
  Merge.client_apply false existing op = true.
Proof. now destruct existing. Qed.

(** [applyOperation] touches the document and the metadata only. *)
Lemma applyOperation_frame (st : CollabDoc.t) (op : Operation.t) (isRemote : bool) :
  let st1 := fst (CollabDoc.applyOperation st op isRemote) in
  CollabDoc.roomId st1 = CollabDoc.roomId st
  /\ CollabDoc.actorId st1 = CollabDoc.actorId st
  /\ CollabDoc.offlineQueue st1 = CollabDoc.offlineQueue st
  /\ CollabDoc.connected st1 = CollabDoc.connected st
  /\ CollabDoc.syncedWithServer st1 = CollabDoc.syncedWithServer st
  /\ CollabDoc.isLiveMode st1 = CollabDoc.isLiveMode st
  /\ CollabDoc.remoteOperationsBuffer st1 = CollabDoc.remoteOperationsBuffer st.
Proof.
  unfold CollabDoc.applyOperation.
  destruct (Merge.client_apply _ _ _); [| now repeat split].
  destruct (CollabDoc.walk _ _ _ _) as [d [|]]; now repeat split.
Qed.

(** The only thing [applyOperation] may emit is one [change]. *)
Lemma applyOperation_effects (st : CollabDoc.t) (op : Operation.t) (isRemote : bool) :
  snd (CollabDoc.applyOperation st op isRemote) = []
  \/ snd (CollabDoc.applyOperation st op isRemote)
     = [CollabDoc.Emit_change (Operation.path op) (Operation.op op) (Operation.value op) isRemote].
Proof.
  unfold CollabDoc.applyOperation.
  destruct (Merge.client_apply _ _ _); [| now left].
  destruct (CollabDoc.walk _ _ _ _) as [d [|]]; [now right | now left].
Qed.

Lemma applyOperation_set_buffer (st : CollabDoc.t) (b : list Operation.t)
    (op : Operation.t) (isRemote : bool) :
  CollabDoc.applyOperation (CollabDoc.set_remoteOperationsBuffer st b) op isRemote
  = (CollabDoc.set_remoteOperationsBuffer (fst (CollabDoc.applyOperation st op isRemote)) b,
     snd (CollabDoc.applyOperation st op isRemote)).
Proof.
  unfold CollabDoc.applyOperation. cbn [CollabDoc.set_remoteOperationsBuffer
    CollabDoc.metadata CollabDoc.doc].
  destruct (Merge.client_apply _ _ _); [| reflexivity].
  now destruct (CollabDoc.walk _ _ _ _) as [d [|]].
Qed.

Lemma replay_set_buffer (buffered : list Operation.t) (st : CollabDoc.t)
    (b : list Operation.t) :
  replay_in_arrival_order (CollabDoc.set_remoteOperationsBuffer st b) buffered
  = (CollabDoc.set_remoteOperationsBuffer (fst (replay_in_arrival_order st buffered)) b,
     snd (replay_in_arrival_order st buffered)).
Proof.
  revert st. induction buffered as [|op rest IH]; intros st; [reflexivity |].
  cbn [replay_in_arrival_order]. rewrite !and_then_pair, applyOperation_set_buffer.
  cbn [fst snd]. now rewrite IH.
Qed.

(** The [while] loop of [resume] is the replay in arrival order; the two
    differ only in when the buffer field is emptied. *)
Lemma drain_is_replay (buffered : list Operation.t) (st : CollabDoc.t) :
  CollabDoc.set_remoteOperationsBuffer (fst (CollabDoc.drain st buffered)) []
  = CollabDoc.set_remoteOperationsBuffer (fst (replay_in_arrival_order st buffered)) []
  /\ snd (CollabDoc.drain st buffered) = snd (replay_in_arrival_order st buffered).
Proof.
  revert st. induction buffered as [|op rest IH]; intros st; [now split |].
  cbn [CollabDoc.drain replay_in_arrival_order].
  rewrite !and_then_pair, applyOperation_set_buffer. cbn [fst snd].
  destruct (IH (CollabDoc.set_remoteOperationsBuffer
                  (fst (CollabDoc.applyOperation st op true)) rest)) as [Hs He].
  rewrite Hs, He, replay_set_buffer. cbn [fst snd]. now split.
Qed.

Lemma findIndex_absent (id : string) (queue : list Operation.t) :
  (forall q, q ∈ queue -> Operation.id q <> id) -> CollabDoc.findIndex id queue = None.
Proof.
  induction queue as [|q rest IH]; intros H; [reflexivity |].
  cbn [CollabDoc.findIndex].
  destruct (String.eqb_spec (Operation.id q) id) as [E | _].
  - exfalso. apply (H q); [left | exact E].
  - rewrite IH; [reflexivity |]. intros q' Hq'. apply H. now right.
Qed.

(** What a flush does: with the replica connected and synced, every queued
    operation is sent, in queue order, and the queue is emptied; otherwise
    nothing is sent and the queue stays. *)
Lemma processOfflineQueue_spec (st : CollabDoc.t) :
  CollabDoc.processOfflineQueue st =
  if CollabDoc.connected st && CollabDoc.syncedWithServer st
  then (CollabDoc.set_offlineQueue st [],
        map (CollabDoc.Socket_emit_operation (CollabDoc.roomId st)) (CollabDoc.offlineQueue st))
  else (st, []).
Proof.
  unfold CollabDoc.processOfflineQueue.
  destruct (CollabDoc.connected st && CollabDoc.syncedWithServer st); [| reflexivity].
  cbn [andb]. case_bool_decide as Hq; [reflexivity |].
  destruct st as [r a d m q c s l b]. cbn in *.
  destruct q; [reflexivity | cbn in Hq; lia].
Qed.

Lemma replay_frame (buffered : list Operation.t) (st : CollabDoc.t) :
  let st1 := fst (replay_in_arrival_order st buffered) in
  CollabDoc.roomId st1 = CollabDoc.roomId st
  /\ CollabDoc.offlineQueue st1 = CollabDoc.offlineQueue st
  /\ CollabDoc.connected st1 = CollabDoc.connected st
  /\ CollabDoc.syncedWithServer st1 = CollabDoc.syncedWithServer st
  /\ CollabDoc.isLiveMode st1 = CollabDoc.isLiveMode st.
Proof.
  revert st. induction buffered as [|op rest IH]; intros st; [now repeat split |].
  cbn [replay_in_arrival_order]. rewrite and_then_pair. cbn [fst].
  destruct (IH (fst (CollabDoc.applyOperation st op true))) as (Hr & Hq & Hc & Hs & Hl).
  destruct (applyOperation_frame st op true) as (Hr' & _ & Hq' & Hc' & Hs' & Hl' & _).
  cbv zeta in *. repeat split; congruence.
Qed.

(** Replaying emits nothing but [change] notifications of remote origin,
    each for one of the buffered operations. *)
Lemma replay_effects (buffered : list Operation.t) (st : CollabDoc.t) (e : CollabDoc.Effect) :
  e ∈ snd (replay_in_arrival_order st buffered) ->
  exists op, op ∈ buffered
    /\ e = CollabDoc.Emit_change (Operation.path op) (Operation.op op) (Operation.value op) true.
Proof.
  revert st. induction buffered as [|op rest IH]; intros st He.
  - cbn in He. now apply not_elem_of_nil in He.
  - cbn [replay_in_arrival_order] in He. rewrite and_then_pair in He. cbn [snd] in He.
    apply elem_of_app in He as [He | He].
    + exists op. split; [left |].
      destruct (applyOperation_effects st op true) as [E | E]; rewrite E in He.
      * now apply not_elem_of_nil in He.
      * now apply list_elem_of_singleton in He.
    + destruct (IH _ He) as (op' & Hin & ->). exists op'. split; [now right | reflexivity].
Qed.

(** C9. A local [delete] made while paused is not always applied.  A
    replica has received a document in which [a] holds an object with the
    key [0], and is paused.  [delete(['a', 0])] finds an object under [a]
    where the number [0] makes it ask for an array, and returns before it
    has removed anything: no [change] is emitted and [get(['a', 0])] still
    reads the value.  The operation is queued all the same, to be sent,
    and [deepDelete] on the server, which has no such test, removes the
    value from the same document. *)
Theorem paused_delete_is_not_applied :
  exists st,
    ClientRun.run (CollabDoc.new "room" "A") mismatched_delete_inputs
    = Returns (st, [[CollabDoc.Emit_connect; CollabDoc.Socket_emit_join_room "room"];
                    [CollabDoc.Emit_synced];
                    [CollabDoc.Emit_pause];
                    []])
    /\ CollabDoc.isLiveMode st = false
    /\ CollabDoc.doc st = CObj {[ "a" := VObj {[ "0" := VNum 5 ]} ]}
    /\ ClientRun.get st [SStr "a"; SNum 0] = Returns (VNum 5)
    /\ CollabDoc.offlineQueue st = [mismatched_delete]
    /\ ServerRun.merge (CollabDoc.doc st) (CollabDoc.metadata st) mismatched_delete
       = Returns (Some (CObj {[ "a" := VObj ∅ ]}, ∅)).
Proof.
  eexists. split; [vm_compute; reflexivity |].
  repeat split; vm_compute; reflexivity.
Qed.

(** ** Delete keeps no tombstone *)

(** C6. On a client an accepted delete does not always remove the metadata
    entry.  A replica holds metadata for [a.b] while [a] itself is gone (a
    remote [set] of [a.b], then a remote [delete] of [a]).  A later
    [delete] of [a.b] is accepted by the merge decision, and the walk
    returns at the missing [a] before it reaches the line that deletes the
    metadata entry: the entry stays, and an older [set] of [a.b] that
    arrives afterwards is rejected against it instead of being accepted.
    The server, from the same document and metadata, removes the entry
    and then accepts the older [set]. *)
Theorem accepted_delete_may_keep_metadata :
  ClientRun.reachable orphan_state
  /\ Merge.client_apply true
       (CollabDoc.metadata orphan_state !! JSON_stringify (Operation.path late_delete))
       late_delete = true
  /\ ClientRun.on_operation orphan_state "room" late_delete = Returns (orphan_state, [])
  /\ CollabDoc.metadata orphan_state !! JSON_stringify (Operation.path late_delete)
     = Some (Metadata.mk 100 "X" 1)
  /\ Merge.client_apply true
       (CollabDoc.metadata orphan_state !! JSON_stringify (Operation.path older_set))
       older_set = false
  /\ ClientRun.on_operation orphan_state "room" older_set = Returns (orphan_state, [])
  /\ ClientRun.get orphan_state [SStr "a"; SStr "b"] = Returns VUndef
  /\ ServerRun.merge (CollabDoc.doc orphan_state) (CollabDoc.metadata orphan_state) late_delete
     = Returns (Some (CObj ∅, ∅))
  /\ ServerRun.merge (CObj ∅) ∅ older_set
     = Returns (Some (CObj {[ "a" := VObj {[ "b" := VNum 7 ]} ]},
                      {[ JSON_stringify [SStr "a"; SStr "b"] := Metadata.mk 50 "Z" 1 ]})).
Proof.
  split.
  - exists "room", "A", orphan_inputs. eexists. vm_compute. reflexivity.
  - repeat split; vm_compute; reflexivity.
Qed.

(** A walk of at most one segment has no intermediate container to miss. *)
Lemma walk_short_finished (action : OpKind) (c : container) (path : Path) (v : jsval) :
  (length path <= 1)%nat -> snd (CollabDoc.walk action c path v) = true.
Proof. destruct path as [|s [|? ?]]; cbn; [reflexivity | reflexivity | lia]. Qed.

(** ** Where the code departs from its documented behaviour *)

(** *** C2: the server's walks are not the client's *)

(** C2. From the same document and metadata the two replicas part.
    A [set] of [a[0]] where [a] holds an object: the client replaces the
    object by an array, [deepSet] on the server keeps the object and gives
    it a property [0].  A [delete] of [a.b] where [a] is missing: both leave
    the document alone, the server deletes the metadata entry of the path,
    the client keeps it. *)
Theorem server_and_client_results_differ :
  let st := CollabDoc.mk "room" "A" drifted_doc ∅ [] true true true [] in
  CollabDoc.doc (fst (CollabDoc.applyOperation st set_into_array true))
    = CObj {[ "a" := VArr [VNum 2] ∅ ]}
  /\ Server.merge drifted_doc ∅ set_into_array
     = Some (CObj {[ "a" := VObj {[ "x" := VNum 1; "0" := VNum 2 ]} ]},
             {[ JSON_stringify [SStr "a"; SNum 0] := Metadata.mk 10 "B" 1 ]})
  /\ CObj {[ "a" := VArr [VNum 2] ∅ ]}
     <> CObj {[ "a" := VObj {[ "x" := VNum 1; "0" := VNum 2 ]} ]}
  /\ CollabDoc.metadata (fst (CollabDoc.applyOperation orphan_state late_delete true))
     = {[ JSON_stringify [SStr "a"; SStr "b"] := Metadata.mk 100 "X" 1 ]}
  /\ Server.merge (CollabDoc.doc orphan_state) (CollabDoc.metadata orphan_state) late_delete
     = Some (CObj ∅, ∅).
Proof.
  cbv zeta. split; [vm_compute; reflexivity |]. split; [vm_compute; reflexivity |].
  split; [| split; vm_compute; reflexivity].
  intros H. apply (f_equal (fun c => Array_isArray (get_prop c "a"))) in H.
  vm_compute in H. discriminate H.
Qed.

(** *** C3: the echo of a replica's own delete *)

(** C3. A connected, synced, live replica deletes [a]: the operation is
    applied, announced and sent at once, so it never enters the Offline
    Queue.  When the server echoes it, the id is not found in the queue, no
    metadata is left at the path to reject it, and the replica applies it
    again and emits a second [change], marked remote. *)
Theorem echo_of_own_delete_emits_change :
  snd (CollabDoc.run (CollabDoc.new "room" "A") echo_inputs)
  = [[CollabDoc.Emit_connect; CollabDoc.Socket_emit_join_room "room"];
     [CollabDoc.Emit_synced];
     [CollabDoc.Emit_change [SStr "a"] OpDel VUndef false;
      CollabDoc.Socket_emit_operation "room" own_delete];
     [CollabDoc.Emit_change [SStr "a"] OpDel VUndef true]].
Proof. vm_compute. reflexivity. Qed.

(** *** C4: a flush while paused *)

(** C4. A synced replica is paused and queues a local [set]; the
    transport drops and comes back.  When the initial state arrives again
    the handler flushes the Offline Queue: [processOfflineQueue] tests
    [connected] and [syncedWithServer] and not [isLiveMode], so the queued
    operation is sent while the replica is still paused. *)
Theorem flush_sends_while_paused :
  CollabDoc.isLiveMode (fst (CollabDoc.run (CollabDoc.new "room" "A") paused_flush_inputs))
    = false
  /\ snd (CollabDoc.run (CollabDoc.new "room" "A") paused_flush_inputs)
     = [[CollabDoc.Emit_connect; CollabDoc.Socket_emit_join_room "room"];
        [CollabDoc.Emit_synced];
        [CollabDoc.Emit_pause];
        [CollabDoc.Emit_change [SStr "a"] OpSet (VNum 1) false];
        [CollabDoc.Emit_disconnect "transport close"];
        [CollabDoc.Emit_connect; CollabDoc.Socket_emit_join_room "room"];
        [CollabDoc.Emit_synced; CollabDoc.Socket_emit_operation "room" queued_while_paused]].
Proof. split; vm_compute; reflexivity. Qed.

(** *** C5: disconnect leaves the replica synced *)

(** C5. The [disconnect] handler clears [connected], emits [disconnect]
    with the reason, and leaves [syncedWithServer] as it was.  A replica
    that was synced is therefore still synced after the transport is back,
    and sends a local operation before any new initial state has come. *)
Theorem disconnect_keeps_synced :
  (forall st reason,
      CollabDoc.on_disconnect st reason
        = (CollabDoc.set_connected st false, [CollabDoc.Emit_disconnect reason])
      /\ CollabDoc.connected (fst (CollabDoc.on_disconnect st reason)) = false
      /\ CollabDoc.syncedWithServer (fst (CollabDoc.on_disconnect st reason))
         = CollabDoc.syncedWithServer st)
  /\ CollabDoc.syncedWithServer
       (fst (CollabDoc.run (CollabDoc.new "room" "A") (take 3 reconnect_inputs))) = true
  /\ snd (CollabDoc.run (CollabDoc.new "room" "A") reconnect_inputs)
     = [[CollabDoc.Emit_connect; CollabDoc.Socket_emit_join_room "room"];
        [CollabDoc.Emit_synced];
        [CollabDoc.Emit_disconnect "transport close"];
        [CollabDoc.Emit_connect; CollabDoc.Socket_emit_join_room "room"];
        [CollabDoc.Emit_change [SStr "a"] OpSet (VNum 1) false;
         CollabDoc.Socket_emit_operation "room" queued_while_paused]].
Proof.
  split; [intros st reason; repeat split |]. split; vm_compute; reflexivity.
Qed.

(** * Further properties of the code *)

(** ** Array indices *)

Lemma digit_of_pretty_char (d : N) : (d < 10)%N -> digit_of (pretty_N_char d) = Some d.
Proof.
  intros Hd.
  assert (d = 0 \/ d = 1 \/ d = 2 \/ d = 3 \/ d = 4 \/ d = 5 \/ d = 6 \/ d = 7 \/ d = 8
          \/ d = 9)%N as H by lia.
  repeat (destruct H as [-> | H]; [reflexivity |]). now subst.
Qed.

Lemma parse_digits_pretty_go (x : N) (s : string) :
  parse_digits 0%N (pretty_N_go x s) = parse_digits x s.
Proof.
  revert s. induction (N.lt_wf_0 x) as [x _ IH]. intros s.
  destruct (N.eq_dec x 0%N) as [-> | Hx]; [now rewrite pretty_N_go_0 |].
  rewrite pretty_N_go_step by lia.
  rewrite IH by (apply N.div_lt; lia).
  cbn [parse_digits]. rewrite digit_of_pretty_char by (apply N.mod_lt; lia).
  f_equal. symmetry. apply (N.div_mod x 10%N). lia.
Qed.

Lemma parse_digits_pretty (n : N) : parse_digits 0%N (pretty n) = Some n.
Proof.
  unfold pretty, pretty_N. destruct (decide (n = 0%N)) as [-> | Hn]; [reflexivity |].
  now rewrite parse_digits_pretty_go.
Qed.

(** The decimal writing of a natural number is the key of that index. *)
Lemma array_index_pretty (n : N) : array_index (pretty n) = Some (N.to_nat n).
Proof.
  unfold array_index. rewrite parse_digits_pretty, String.eqb_refl.
  destruct (pretty n) eqn:E; [| reflexivity].
  pose proof (parse_digits_pretty n) as H. rewrite E in H. cbn in H.
  injection H as <-. discriminate E.
Qed.

Lemma array_index_number (n : Z) :
  0 <= n -> array_index (ToPropertyKey (Some (SNum n))) = Some (Z.to_nat n).
Proof.
  intros Hn. cbn [ToPropertyKey]. destruct n as [|p|p]; [reflexivity | | lia].
  change (pretty (Z.pos p)) with (pretty (N.pos p)).
  rewrite array_index_pretty. f_equal.
Qed.

(** An index has one key only. *)
Lemma array_index_inj (k k' : string) (i : nat) :
  array_index k = Some i -> array_index k' = Some i -> k = k'.
Proof.
  unfold array_index. intros H H'.
  destruct k as [|c k0]; [discriminate |]. destruct k' as [|c' k0']; [discriminate |].
  destruct (parse_digits 0%N (String c k0)) as [n|]; [| discriminate].
  destruct (parse_digits 0%N (String c' k0')) as [n'|]; [| discriminate].
  destruct (String.eqb_spec (pretty n) (String c k0)) as [E|]; [| discriminate].
  destruct (String.eqb_spec (pretty n') (String c' k0')) as [E'|]; [| discriminate].
  injection H as <-. injection H' as H'. apply N2Nat.inj in H'. subst n'. congruence.
Qed.

(** ** Reading the document *)

Lemma get_from_undefined (path : Path) : CollabDoc.get_from VUndef path = VUndef.
Proof. now destruct path. Qed.

Lemma get_from_app (p q : Path) (v : jsval) :
  CollabDoc.get_from v (p ++ q) = CollabDoc.get_from (CollabDoc.get_from v p) q.
Proof.
  revert v. induction p as [|s p IH]; intros v; [reflexivity |].
  cbn [app CollabDoc.get_from].
  destruct (as_container v) as [c|]; [| now rewrite get_from_undefined].
  destruct (negb _); [now rewrite get_from_undefined | apply IH].
Qed.

(** X1. [get] follows a path piece by piece: reading [p ++ q] is reading
    [q] in what [get] returns for [p].  So below a path that reads as
    [undefined], and below a path that holds anything but an object or an
    array, every longer path reads as [undefined]; [get] of the empty path
    is the whole document. *)
Theorem get_composes (st : CollabDoc.t) (p q : Path) :
  CollabDoc.get st (p ++ q) = CollabDoc.get_from (CollabDoc.get st p) q
  /\ (CollabDoc.get st p = VUndef -> CollabDoc.get st (p ++ q) = VUndef)
  /\ (as_container (CollabDoc.get st p) = None -> q <> [] ->
      CollabDoc.get st (p ++ q) = VUndef)
  /\ CollabDoc.get st [] = of_container (CollabDoc.doc st).
Proof.
  unfold CollabDoc.get. rewrite get_from_app. repeat split.
  - intros ->. apply get_from_undefined.
  - intros Hc Hq. destruct q as [|s q]; [congruence |].
    cbn [CollabDoc.get_from]. now rewrite Hc.
Qed.

(** ** Calls that return

    When the code returns, it returns what the definitions for ordinary
    keys compute. *)

Lemma outcome_bind_returns {A B : Type} (o : outcome A) (k : A -> outcome B) (b : B) :
  outcome_bind o k = Returns b -> exists a, o = Returns a /\ k a = Returns b.
Proof. destruct o as [a | e |]; cbn; intros H; [eauto | discriminate | discriminate]. Qed.

Lemma assign_fresh_exotic_no_return {A : Type} (c : container) (k : string)
    (next : option segment) (a : A) :
  assign_fresh_exotic c k next <> Returns a.
Proof. unfold assign_fresh_exotic. now destruct (_ && _ && _). Qed.

Lemma get_from_returns (path : Path) (v x : jsval) :
  ClientRun.get_from v path = Returns x -> CollabDoc.get_from v path = x.
Proof.
  revert v. induction path as [|s rest IH]; intros v; cbn.
  - now intros [= ->].
  - destruct (as_container v) as [c|]; [| now intros [= ->]].
    destruct (shadows_hasOwnProperty c); [discriminate |].
    destruct (exotic_key c _); [discriminate |].
    destruct (negb (hasOwnProperty c _)); [now intros [= ->] | apply IH].
Qed.

Lemma guarded_delete_returns (c c' : container) (key : string) :
  (if shadows_hasOwnProperty c then Raises TypeError
   else if exotic_key c key then Exotic
   else if hasOwnProperty c key then Returns (delete_prop c key) else Returns c)
  = Returns c' ->
  (if hasOwnProperty c key then delete_prop c key else c) = c'.
Proof.
  destruct (shadows_hasOwnProperty c); [discriminate |].
  destruct (exotic_key c key); [discriminate |].
  destruct (hasOwnProperty c key); now intros [= ->].
Qed.

Lemma last_step_returns (action : OpKind) (c c' : container) (l : option segment) (v : jsval) :
  ClientRun.last_step action c l v = Returns c' -> CollabDoc.last_step action c l v = c'.
Proof.
  unfold ClientRun.last_step, CollabDoc.last_step. destruct action.
  - destruct (exotic_key c _); [discriminate | now intros [= ->]].
  - destruct c as [els named | props]; [destruct l as [[k | n]|] |];
      try apply guarded_delete_returns.
    destruct (_ && _); [destruct (shadows_splice _); [discriminate |] |];
      now intros [= ->].
Qed.

Lemma run_walk_unfold_step (action : OpKind) (c : container) (s next : segment) (rest : Path)
    (v : jsval) :
  ClientRun.walk action c (s :: next :: rest) v =
  let key := ToPropertyKey (Some s) in
  let child := get_prop c key in
  if shadows_hasOwnProperty c then Raises TypeError
  else if exotic_key c key then
    match action with
    | OpSet => assign_fresh_exotic c key (Some next)
    | OpDel => Exotic
    end
  else if negb (hasOwnProperty c key) || is_null child || negb (typeof_object child)
          || negb (Bool.eqb (Array_isArray child) (is_number (Some next)))
  then
    match action with
    | OpSet =>
        outcome_bind
          (ClientRun.walk action (if is_number (Some next) then CArr [] ∅ else CObj ∅)
             (next :: rest) v) (fun r =>
        Returns (set_prop c key (of_container (fst r)), snd r))
    | OpDel => Returns (c, false)
    end
  else
    match as_container child with
    | Some c0 =>
        outcome_bind (ClientRun.walk action c0 (next :: rest) v) (fun r =>
        Returns (set_prop c key (of_container (fst r)), snd r))
    | None => Returns (c, false)
    end.
Proof. reflexivity. Qed.

Lemma run_walk_unfold_last (action : OpKind) (c : container) (path : Path) (v : jsval) :
  (length path <= 1)%nat ->
  ClientRun.walk action c path v
  = outcome_bind (ClientRun.last_step action c (head path) v) (fun c' => Returns (c', true)).
Proof. destruct path as [|s [|? ?]]; cbn [length]; [reflexivity | reflexivity | lia]. Qed.

Lemma walk_returns (path : Path) (action : OpKind) (c : container) (v : jsval)
    (r : container * bool) :
  ClientRun.walk action c path v = Returns r -> CollabDoc.walk action c path v = r.
Proof.
  revert c r. induction path as [|s [|next rest] IH]; intros c r.
  1, 2: rewrite run_walk_unfold_last by (cbn; lia); intros H;
    apply outcome_bind_returns in H as (c' & H & [= <-]);
    apply last_step_returns in H; cbn [CollabDoc.walk head]; cbn [head] in H; now rewrite H.
  rewrite run_walk_unfold_step, walk_unfold_step. cbv zeta.
  destruct (shadows_hasOwnProperty c); [discriminate |].
  destruct (exotic_key c _).
  { destruct action; [| discriminate]. intros H. now apply assign_fresh_exotic_no_return in H. }
  destruct (negb _ || _ || _ || _).
  - destruct action; [| now intros [= <-]].
    intros H. apply outcome_bind_returns in H as (r1 & H & [= <-]).
    apply IH in H. now rewrite H; destruct r1.
  - destruct (as_container _) as [c0|]; [| now intros [= <-]].
    intros H. apply outcome_bind_returns in H as (r1 & H & [= <-]).
    apply IH in H. now rewrite H; destruct r1.
Qed.

Lemma applyOperation_returns (st : CollabDoc.t) (op : Operation.t) (isRemote : bool)
    (r : CollabDoc.t * list CollabDoc.Effect) :
  ClientRun.applyOperation st op isRemote = Returns r ->
  CollabDoc.applyOperation st op isRemote = r.
Proof.
  unfold ClientRun.applyOperation, CollabDoc.applyOperation.
  destruct (Merge.client_apply _ _ _); [| now intros [= <-]].
  intros H. apply outcome_bind_returns in H as ([d fin] & H & Hr).
  apply walk_returns in H. rewrite H. cbn [fst snd] in Hr.
  destruct fin; now injection Hr as <-.
Qed.

Lemma and_then_returns (o : outcome (CollabDoc.t * list CollabDoc.Effect))
    (k : CollabDoc.t -> outcome (CollabDoc.t * list CollabDoc.Effect))
    (r : CollabDoc.t * list CollabDoc.Effect) :
  ClientRun.and_then o k = Returns r ->
  exists r1 r2, o = Returns r1 /\ k (fst r1) = Returns r2 /\ r = (fst r2, snd r1 ++ snd r2).
Proof.
  unfold ClientRun.and_then. intros H.
  apply outcome_bind_returns in H as (r1 & H1 & H).
  apply outcome_bind_returns in H as (r2 & H2 & [= <-]). eauto.
Qed.

Lemma and_then_fst_snd (r1 : CollabDoc.t * list CollabDoc.Effect)
    (k : CollabDoc.t -> CollabDoc.t * list CollabDoc.Effect) :
  CollabDoc.and_then r1 k = (fst (k (fst r1)), snd r1 ++ snd (k (fst r1))).
Proof. destruct r1 as [st1 e1]. cbn. now destruct (k st1). Qed.

Lemma set_returns (st : CollabDoc.t) (path : Path) (value : jsval) (idNow : Z)
    (rnd : string) (now : Z) (r : CollabDoc.t * list CollabDoc.Effect) :
  ClientRun.set st path value idNow rnd now = Returns r ->
  CollabDoc.set st path value idNow rnd now = r.
Proof.
  unfold ClientRun.set, CollabDoc.set. intros H.
  apply and_then_returns in H as (r1 & r2 & H1 & [= <-] & ->).
  apply applyOperation_returns in H1. rewrite H1. apply and_then_fst_snd.
Qed.

Lemma delete_returns (st : CollabDoc.t) (path : Path) (idNow : Z) (rnd : string) (now : Z)
    (r : CollabDoc.t * list CollabDoc.Effect) :
  ClientRun.delete_ st path idNow rnd now = Returns r ->
  CollabDoc.delete_ st path idNow rnd now = r.
Proof.
  unfold ClientRun.delete_, CollabDoc.delete_. intros H.
  apply and_then_returns in H as (r1 & r2 & H1 & [= <-] & ->).
  apply applyOperation_returns in H1. rewrite H1. apply and_then_fst_snd.
Qed.

Lemma drain_returns (buffer : list Operation.t) (st : CollabDoc.t)
    (r : CollabDoc.t * list CollabDoc.Effect) :
  ClientRun.drain st buffer = Returns r -> CollabDoc.drain st buffer = r.
Proof.
  revert st r. induction buffer as [|op rest IH]; intros st r; cbn.
  - now intros [= <-].
  - intros H. apply and_then_returns in H as (r1 & r2 & H1 & H2 & ->).
    apply applyOperation_returns in H1. apply IH in H2.
    rewrite H1, and_then_fst_snd. now rewrite H2.
Qed.

Lemma resume_returns (st : CollabDoc.t) (r : CollabDoc.t * list CollabDoc.Effect) :
  ClientRun.resume st = Returns r -> CollabDoc.resume st = r.
Proof.
  unfold ClientRun.resume, CollabDoc.resume.
  destruct (negb (CollabDoc.isLiveMode st)); [| now intros [= <-]].
  intros H. apply and_then_returns in H as (r1 & r2 & H1 & H2 & ->).
  apply and_then_returns in H2 as (r3 & r4 & [= <-] & [= <-] & ->).
  apply drain_returns in H1. rewrite H1, !and_then_fst_snd. reflexivity.
Qed.

Lemma on_operation_returns (st : CollabDoc.t) (room : string) (op : Operation.t)
    (r : CollabDoc.t * list CollabDoc.Effect) :
  ClientRun.on_operation st room op = Returns r -> CollabDoc.on_operation st room op = r.
Proof.
  unfold ClientRun.on_operation, CollabDoc.on_operation.
  destruct (String.eqb room _); [| now intros [= <-]].
  unfold ClientRun.applyRemoteOperation, CollabDoc.applyRemoteOperation.
  destruct (CollabDoc.findIndex _ _); [now intros [= <-] |].
  destruct (negb _); [now intros [= <-] | apply applyOperation_returns].
Qed.

Lemma step_returns (st : CollabDoc.t) (i : CollabDoc.Input)
    (r : CollabDoc.t * list CollabDoc.Effect) :
  ClientRun.step st i = Returns r -> CollabDoc.step st i = r.
Proof.
  destruct i; cbn [ClientRun.step CollabDoc.step];
    try (now intros [= <-]);
    auto using set_returns, delete_returns, resume_returns, on_operation_returns.
Qed.

Lemma run_returns (inputs : list CollabDoc.Input) (st : CollabDoc.t)
    (r : CollabDoc.t * list (list CollabDoc.Effect)) :
  ClientRun.run st inputs = Returns r -> CollabDoc.run st inputs = r.
Proof.
  revert st r. induction inputs as [|i rest IH]; intros st r; cbn.
  - now intros [= <-].
  - intros H. apply outcome_bind_returns in H as (r1 & H1 & H).
    apply outcome_bind_returns in H as (r2 & H2 & [= <-]).
    apply step_returns in H1. apply IH in H2. rewrite H1. destruct r1 as [st1 e1].
    cbn [fst snd] in *. rewrite H2. now destruct r2.
Qed.

Lemma reachable_returns (st : CollabDoc.t) : ClientRun.reachable st -> CollabDoc.reachable st.
Proof.
  intros (room & actor & inputs & effects & H). exists room, actor, inputs.
  apply run_returns in H. now rewrite H.
Qed.

(** ** Edits and the keys beside them *)

Lemma get_from_set_prop_other (c : container) (k : string) (x : jsval)
    (s' : segment) (r : Path) :
  k <> ToPropertyKey (Some s') ->
  CollabDoc.get_from (of_container (set_prop c k x)) (s' :: r)
  = CollabDoc.get_from (of_container c) (s' :: r).
Proof.
  intros Hne. set (k' := ToPropertyKey (Some s')) in *.
  cbn [CollabDoc.get_from]. rewrite !as_of_container. fold k'.
  destruct c as [els named | props]; cbn [set_prop].
  - destruct (array_index k) as [i|] eqn:Ek.
    + assert (forall j, array_index k' = Some j -> j <> i) as Hji.
      { intros j Hj ->. apply Hne. now apply (array_index_inj k k' i). }
      case_bool_decide as Hi; cbn [hasOwnProperty get_prop].
      * destruct (array_index k') as [j|] eqn:Ek'; [| reflexivity].
        rewrite length_insert, list_lookup_insert_ne; [reflexivity |].
        intros ->. now apply (Hji j).
      * destruct (array_index k') as [j|] eqn:Ek'; [| reflexivity].
        specialize (Hji j eq_refl).
        rewrite !length_app, length_replicate. cbn [length].
        destruct (decide (j < length els)%nat) as [Hj | Hj].
        -- rewrite !bool_decide_eq_true_2 by lia. now rewrite lookup_app_l by lia.
        -- rewrite (bool_decide_eq_false_2 (j < length els)%nat) by lia. cbn [negb].
           destruct (decide (j < i)%nat) as [Hlt | Hge].
           ++ rewrite bool_decide_eq_true_2 by lia. cbn [negb].
              rewrite lookup_app_r by lia.
              rewrite lookup_app_l by (rewrite length_replicate; lia).
              rewrite lookup_replicate_2 by lia. cbn. apply get_from_undefined.
           ++ now rewrite bool_decide_eq_false_2 by lia.
    + cbn [hasOwnProperty get_prop].
      destruct (array_index k'); [reflexivity |]. now rewrite lookup_insert_ne.
  - cbn [hasOwnProperty get_prop]. now rewrite lookup_insert_ne.
Qed.

Lemma get_from_delete_prop_other (c : container) (k : string) (s' : segment) (r : Path) :
  k <> ToPropertyKey (Some s') ->
  CollabDoc.get_from (of_container (delete_prop c k)) (s' :: r)
  = CollabDoc.get_from (of_container c) (s' :: r).
Proof.
  intros Hne. set (k' := ToPropertyKey (Some s')) in *.
  cbn [CollabDoc.get_from]. rewrite !as_of_container. fold k'.
  destruct c as [els named | props]; cbn [delete_prop].
  - destruct (array_index k) as [i|] eqn:Ek; cbn [hasOwnProperty get_prop].
    + destruct (array_index k') as [j|] eqn:Ek'; [| reflexivity].
      rewrite length_insert, list_lookup_insert_ne; [reflexivity |].
      intros ->. apply Hne. now apply (array_index_inj k k' j).
    + destruct (array_index k'); [reflexivity |]. now rewrite lookup_delete_ne.
  - cbn [hasOwnProperty get_prop]. now rewrite lookup_delete_ne.
Qed.

(** What the walk does to the cursor it starts from: a [set] assigns the
    property its first segment names. *)
Lemma walk_set_top (c : container) (s : segment) (rest : Path) (v : jsval) :
  exists x, fst (CollabDoc.walk OpSet c (s :: rest) v) = set_prop c (ToPropertyKey (Some s)) x.
Proof.
  destruct rest as [|next rest].
  - exists v. reflexivity.
  - destruct (walk_set_step c s next rest v) as [c0 ->]. eexists. reflexivity.
Qed.

(** On an object, a [delete] leaves the cursor as it was, or assigns or
    deletes the property its first segment names. *)
Lemma walk_del_top (props : gmap string jsval) (s : segment) (rest : Path) (v : jsval) :
  let r := fst (CollabDoc.walk OpDel (CObj props) (s :: rest) v) in
  r = CObj props
  \/ (exists x, r = set_prop (CObj props) (ToPropertyKey (Some s)) x)
  \/ r = delete_prop (CObj props) (ToPropertyKey (Some s)).
Proof.
  destruct rest as [|next rest]; cbv zeta.
  - rewrite walk_unfold_last. cbn [fst CollabDoc.last_step].
    destruct (hasOwnProperty _ _); [right; right | left]; reflexivity.
  - rewrite walk_unfold_step. cbv zeta.
    destruct (negb _ || _ || _ || _); [now left |].
    destruct (as_container _) as [c0|]; [| now left].
    destruct (CollabDoc.walk OpDel c0 (next :: rest) v) as [c1 fin].
    right; left. eexists. reflexivity.
Qed.

(** ** Reading with the exceptions *)

Lemma run_get_from_undefined (path : Path) : ClientRun.get_from VUndef path = Returns VUndef.
Proof. now destruct path. Qed.

(** One round of [get]: the call of [hasOwnProperty], then the read. *)
Lemma run_get_from_step (c : container) (s : segment) (r : Path) :
  ClientRun.get_from (of_container c) (s :: r) =
  if shadows_hasOwnProperty c then Raises TypeError
  else if exotic_key c (ToPropertyKey (Some s)) then Exotic
  else ClientRun.get_from (CollabDoc.get_from (of_container c) [s]) r.
Proof.
  cbn [ClientRun.get_from CollabDoc.get_from]. rewrite as_of_container.
  destruct (shadows_hasOwnProperty c); [reflexivity |].
  destruct (exotic_key c _); [reflexivity |].
  destruct (negb (hasOwnProperty c _)); [| reflexivity].
  now rewrite run_get_from_undefined.
Qed.

(** A [get] that returns, returns what the tree holds. *)
Lemma run_get_from_clean (path : Path) (v x : jsval) :
  ClientRun.get_from v path = Returns x ->
  ClientRun.get_from v path = Returns (CollabDoc.get_from v path).
Proof. intros H. rewrite H. f_equal. symmetry. now apply get_from_returns. Qed.

Lemma array_index_hasOwnProperty : array_index "hasOwnProperty" = None.
Proof. reflexivity. Qed.

Lemma shadows_set_prop (c : container) (k : string) (x : jsval) :
  k <> "hasOwnProperty" ->
  shadows_hasOwnProperty (set_prop c k x) = shadows_hasOwnProperty c.
Proof.
  intros Hne. unfold shadows_hasOwnProperty.
  destruct c as [els named | props]; cbn [set_prop].
  - destruct (array_index k) as [i|].
    + case_bool_decide; reflexivity.
    + cbn [hasOwnProperty]. rewrite array_index_hasOwnProperty.
      now rewrite lookup_insert_ne.
  - cbn [hasOwnProperty]. now rewrite lookup_insert_ne.
Qed.

Lemma shadows_delete_prop (c : container) (k : string) :
  k <> "hasOwnProperty" ->
  shadows_hasOwnProperty (delete_prop c k) = shadows_hasOwnProperty c.
Proof.
  intros Hne. unfold shadows_hasOwnProperty.
  destruct c as [els named | props]; cbn [delete_prop].
  - destruct (array_index k) as [i|]; [reflexivity |].
    cbn [hasOwnProperty]. rewrite array_index_hasOwnProperty.
    now rewrite lookup_delete_ne.
  - cbn [hasOwnProperty]. now rewrite lookup_delete_ne.
Qed.

Lemma exotic_set_prop (c : container) (k key : string) (x : jsval) :
  exotic_key (set_prop c k x) key = exotic_key c key.
Proof.
  unfold exotic_key. destruct c as [els named | props]; cbn [set_prop]; [| reflexivity].
  destruct (array_index k); [case_bool_decide |]; reflexivity.
Qed.

Lemma exotic_delete_prop (c : container) (k key : string) :
  exotic_key (delete_prop c k) key = exotic_key c key.
Proof.
  unfold exotic_key. destruct c as [els named | props]; cbn [delete_prop]; [| reflexivity].
  destruct (array_index k); reflexivity.
Qed.

Lemma run_get_from_set_prop_other (c : container) (k : string) (x : jsval)
    (s' : segment) (r : Path) :
  k <> ToPropertyKey (Some s') -> k <> "hasOwnProperty" ->
  ClientRun.get_from (of_container (set_prop c k x)) (s' :: r)
  = ClientRun.get_from (of_container c) (s' :: r).
Proof.
  intros Hne Hh. rewrite !run_get_from_step, shadows_set_prop, exotic_set_prop by assumption.
  now rewrite (get_from_set_prop_other c k x s' []).
Qed.

Lemma run_get_from_delete_prop_other (c : container) (k : string) (s' : segment) (r : Path) :
  k <> ToPropertyKey (Some s') -> k <> "hasOwnProperty" ->
  ClientRun.get_from (of_container (delete_prop c k)) (s' :: r)
  = ClientRun.get_from (of_container c) (s' :: r).
Proof.
  intros Hne Hh.
  rewrite !run_get_from_step, shadows_delete_prop, exotic_delete_prop by assumption.
  now rewrite (get_from_delete_prop_other c k s' []).
Qed.



(** ** Local edits *)

Lemma set_doc_same (st : CollabDoc.t) : CollabDoc.set_doc st (CollabDoc.doc st) = st.
Proof. now destruct st. Qed.

(** A local [set] is applied whatever metadata the path holds. *)
Lemma applyOperation_local_set (st : CollabDoc.t) (op : Operation.t) :
  Operation.op op = OpSet ->
  CollabDoc.applyOperation st op false
  = (CollabDoc.set_metadata
       (CollabDoc.set_doc st
          (fst (CollabDoc.walk OpSet (CollabDoc.doc st) (Operation.path op) (Operation.value op))))
       (<[JSON_stringify (Operation.path op) := Operation.triple op]> (CollabDoc.metadata st)),
     [CollabDoc.Emit_change (Operation.path op) OpSet (Operation.value op) false]).
Proof.
  intros Hk. unfold CollabDoc.applyOperation. rewrite client_apply_local, Hk.
  pose proof (walk_set_finished (Operation.path op) (CollabDoc.doc st) (Operation.value op))
    as Hfin.
  destruct (CollabDoc.walk OpSet _ _ _) as [d fin]. cbn in Hfin. now subst fin.
Qed.

Lemma queueOrSendOperation_frame (st : CollabDoc.t) (op : Operation.t) :
  CollabDoc.doc (fst (CollabDoc.queueOrSendOperation st op)) = CollabDoc.doc st
  /\ CollabDoc.metadata (fst (CollabDoc.queueOrSendOperation st op)) = CollabDoc.metadata st.
Proof.
  unfold CollabDoc.queueOrSendOperation.
  destruct (negb _); [now split |]. now destruct (_ && _).
Qed.

Lemma plain_segment_keys (s : segment) :
  plain_segment s = true ->
  ToPropertyKey (Some s) <> "hasOwnProperty"
  /\ ToPropertyKey (Some s) <> "__proto__"
  /\ ToPropertyKey (Some s) <> "length".
Proof.
  unfold plain_segment. cbv zeta. rewrite !andb_true_iff, !negb_true_iff.
  intros [[H1 H2] H3]. repeat split; intros E; rewrite E in *; discriminate.
Qed.

Lemma plain_not_exotic (c : container) (s : segment) :
  plain_segment s = true -> exotic_key c (ToPropertyKey (Some s)) = false.
Proof.
  intros H. destruct (plain_segment_keys s H) as (_ & Hp & Hl). unfold exotic_key.
  apply orb_false_iff. split; [now apply String.eqb_neq |].
  apply andb_false_iff. right. now apply String.eqb_neq.
Qed.

(** A merge that was decided for and returned has walked. *)
Lemma applyOperation_returns_walk (st : CollabDoc.t) (op : Operation.t) (isRemote : bool)
    (r : CollabDoc.t * list CollabDoc.Effect) :
  ClientRun.applyOperation st op isRemote = Returns r ->
  Merge.client_apply isRemote (CollabDoc.metadata st !! JSON_stringify (Operation.path op)) op
    = true ->
  exists rw,
    ClientRun.walk (Operation.op op) (CollabDoc.doc st) (Operation.path op) (Operation.value op)
    = Returns rw.
Proof.
  unfold ClientRun.applyOperation. intros H Happ. cbv zeta in H. rewrite Happ in H.
  apply outcome_bind_returns in H as (rw & H & _). eauto.
Qed.

(** A local [set] whose walk returns is applied. *)
Lemma applyOperation_set_local_clean (st : CollabDoc.t) (op : Operation.t)
    (rw : container * bool) :
  Operation.op op = OpSet ->
  ClientRun.walk OpSet (CollabDoc.doc st) (Operation.path op) (Operation.value op)
    = Returns rw ->
  ClientRun.applyOperation st op false = Returns (CollabDoc.applyOperation st op false).
Proof.
  intros Hk Hw.
  assert (exists r, ClientRun.applyOperation st op false = Returns r) as [r Hr].
  { unfold ClientRun.applyOperation. rewrite client_apply_local, Hk, Hw.
    cbn [outcome_bind]. destruct (snd rw); eauto. }
  rewrite Hr. f_equal. symmetry. now apply applyOperation_returns.
Qed.

(** A walk that returns, returns what the walk on ordinary keys builds. *)
Lemma walk_clean (path : Path) (action : OpKind) (c : container) (v : jsval) :
  (exists r, ClientRun.walk action c path v = Returns r) ->
  ClientRun.walk action c path v = Returns (CollabDoc.walk action c path v).
Proof. intros [r H]. rewrite H. f_equal. symmetry. now apply walk_returns. Qed.

Lemma applyOperation_clean (st : CollabDoc.t) (op : Operation.t) (isRemote : bool) :
  (exists r, ClientRun.applyOperation st op isRemote = Returns r) ->
  ClientRun.applyOperation st op isRemote
  = Returns (CollabDoc.applyOperation st op isRemote).
Proof. intros [r H]. rewrite H. f_equal. symmetry. now apply applyOperation_returns. Qed.

Lemma fresh_is_clear (b : bool) :
  shadows_hasOwnProperty (if b then CArr [] ∅ else CObj ∅) = false.
Proof. now destruct b. Qed.

Lemma get_from_fresh (b : bool) (s : segment) :
  CollabDoc.get_from (of_container (if b then CArr [] ∅ else CObj ∅)) [s] = VUndef.
Proof.
  destruct b; cbn [CollabDoc.get_from of_container as_container hasOwnProperty].
  - destruct (array_index _); [| now rewrite lookup_empty].
    now rewrite bool_decide_eq_false_2 by (cbn; lia).
  - now rewrite lookup_empty.
Qed.

Lemma get_from_set_prop_same (c : container) (s : segment) (x : jsval) :
  CollabDoc.get_from (of_container (set_prop c (ToPropertyKey (Some s)) x)) [s] = x.
Proof.
  cbn [CollabDoc.get_from]. now rewrite as_of_container, has_set_prop, get_set_prop.
Qed.

(** After a [set] along a plain path, [get] of the path raises nothing,
    provided it raised nothing before: the containers on the path are those
    it went through before, with one plain key more, or new ones. *)
Lemma run_get_walk_set (path : Path) (c : container) (v : jsval) (r : container * bool) :
  plain_path path = true ->
  ClientRun.walk OpSet c path v = Returns r ->
  (exists x0, ClientRun.get_from (of_container c) path = Returns x0) ->
  exists x, ClientRun.get_from (of_container (fst r)) path = Returns x.
Proof.
  revert c r. induction path as [|s [|next rest] IH]; intros c r Hplain Hwalk [x0 Hget].
  - eexists. reflexivity.
  - apply andb_true_iff in Hplain as [Hs _].
    destruct (plain_segment_keys s Hs) as (Hh & _ & _).
    apply walk_returns in Hwalk as <-. rewrite walk_unfold_last. cbn [fst CollabDoc.last_step].
    rewrite run_get_from_step in Hget. rewrite run_get_from_step.
    rewrite shadows_set_prop, exotic_set_prop by assumption.
    destruct (shadows_hasOwnProperty c); [discriminate |].
    destruct (exotic_key c _); [discriminate |]. eexists. reflexivity.
  - cbn [plain_path forallb] in Hplain. apply andb_true_iff in Hplain as [Hs Hrest].
    destruct (plain_segment_keys s Hs) as (Hh & _ & _).
    rewrite run_get_from_step in Hget.
    rewrite run_walk_unfold_step in Hwalk. cbv zeta in Hwalk.
    destruct (shadows_hasOwnProperty c) eqn:Es; [discriminate |].
    destruct (exotic_key c (ToPropertyKey (Some s))) eqn:Ee; [discriminate |].
    assert (forall c0 r1,
              ClientRun.walk OpSet c0 (next :: rest) v = Returns r1 ->
              (exists x1, ClientRun.get_from (of_container c0) (next :: rest) = Returns x1) ->
              r = (set_prop c (ToPropertyKey (Some s)) (of_container (fst r1)), snd r1) ->
              exists x, ClientRun.get_from (of_container (fst r)) (s :: next :: rest)
                        = Returns x) as Hgo.
    { intros c0 r1 Hw Hc ->. cbn [fst].
      rewrite run_get_from_step, shadows_set_prop, exotic_set_prop, Es, Ee by assumption.
      rewrite get_from_set_prop_same. now apply (IH c0 r1). }
    destruct (negb _ || _ || _ || _) eqn:Et.
    + apply outcome_bind_returns in Hwalk as (r1 & Hw & [= <-]).
      apply (Hgo _ r1 Hw); [| reflexivity].
      cbn [plain_path forallb] in Hrest. apply andb_true_iff in Hrest as [Hn _].
      rewrite run_get_from_step, fresh_is_clear, (plain_not_exotic _ next Hn).
      rewrite get_from_fresh, run_get_from_undefined. eauto.
    + rewrite !orb_false_iff, !negb_false_iff in Et. destruct Et as [[[Hhas _] _] _].
      destruct (as_container _) as [c0|] eqn:Ec.
      * apply outcome_bind_returns in Hwalk as (r1 & Hw & [= <-]).
        apply (Hgo c0 r1 Hw); [| reflexivity].
        exists x0. cbn [CollabDoc.get_from] in Hget.
        rewrite as_of_container, Hhas in Hget. cbn [negb] in Hget.
        now rewrite <- (as_container_inv _ _ Ec).
      * injection Hwalk as <-. cbn [fst]. exists x0.
        now rewrite run_get_from_step, Es, Ee.
Qed.

Lemma exotic_undefined (c : container) : exotic_key c "undefined" = false.
Proof. unfold exotic_key. cbn. apply andb_false_r. Qed.

Lemma run_walk_empty (c : container) (v : jsval) :
  ClientRun.walk OpSet c [] v = Returns (set_prop c "undefined" v, true).
Proof.
  cbn [ClientRun.walk head]. unfold ClientRun.last_step.
  change (ToPropertyKey None) with "undefined". now rewrite exotic_undefined.
Qed.

(** Along a plain path that [get] reads without raising, the walk of a
    [set] returns: it calls [hasOwnProperty] on containers that [get] has
    called it on, or on containers it has just created. *)
Lemma run_walk_set_after_get (path : Path) (c : container) (v : jsval) :
  plain_path path = true ->
  (exists x0, ClientRun.get_from (of_container c) path = Returns x0) ->
  exists r, ClientRun.walk OpSet c path v = Returns r.
Proof.
  revert c. induction path as [|s [|next rest] IH]; intros c Hplain [x0 Hget].
  - rewrite run_walk_empty. eauto.
  - apply andb_true_iff in Hplain as [Hs _].
    rewrite run_walk_unfold_last by (cbn; lia). unfold ClientRun.last_step. cbn [head].
    rewrite (plain_not_exotic c s Hs). eexists. reflexivity.
  - cbn [plain_path forallb] in Hplain. apply andb_true_iff in Hplain as [Hs Hrest].
    rewrite run_get_from_step in Hget. rewrite run_walk_unfold_step. cbv zeta.
    destruct (shadows_hasOwnProperty c); [discriminate Hget |].
    rewrite (plain_not_exotic c s Hs) in *.
    destruct (negb _ || _ || _ || _) eqn:Et.
    + destruct (IH (if is_number (Some next) then CArr [] ∅ else CObj ∅) Hrest) as [r1 ->].
      * cbn [forallb] in Hrest. apply andb_true_iff in Hrest as [Hn _].
        rewrite run_get_from_step, fresh_is_clear, (plain_not_exotic _ next Hn).
        rewrite get_from_fresh, run_get_from_undefined. eauto.
      * eexists. reflexivity.
    + rewrite !orb_false_iff, !negb_false_iff in Et. destruct Et as [[[Hhas _] _] _].
      destruct (as_container _) as [c0|] eqn:Ec; [| eexists; reflexivity].
      destruct (IH c0 Hrest) as [r1 ->]; [| eexists; reflexivity].
      exists x0. cbn [CollabDoc.get_from] in Hget.
      rewrite as_of_container, Hhas in Hget. cbn [negb] in Hget.
      now rewrite <- (as_container_inv _ _ Ec).
Qed.

(** X3. A local [set] that returns has been applied, whatever metadata the
    path held, newer or not: the metadata of the path is the clock reading,
    this replica's id and the version the path had plus one (one for a
    path without metadata), and a [change] that is not remote is the first
    thing emitted.  Along a plain path that [get] could read before without
    raising, the [set] does return, and [get] of the path, if it is not
    empty, now returns the value. *)
Theorem local_set_is_applied (st : CollabDoc.t) (path : Path) (value : jsval)
    (idNow : Z) (rnd : string) (now : Z) :
  (forall r,
      ClientRun.set st path value idNow rnd now = Returns r ->
      CollabDoc.getMetadata (fst r) path
      = Some (Metadata.mk now (CollabDoc.actorId st)
                match CollabDoc.getMetadata st path with
                | Some m => Metadata.version m + 1
                | None => 1
                end)
      /\ head (snd r) = Some (CollabDoc.Emit_change path OpSet value false))
  /\ (plain_path path = true ->
      (exists x0, ClientRun.get st path = Returns x0) ->
      exists r,
        ClientRun.set st path value idNow rnd now = Returns r
        /\ (path <> [] -> ClientRun.get (fst r) path = Returns value)).
Proof.
  set (op := CollabDoc.local_op st OpSet path value idNow rnd now).
  assert (forall r,
            CollabDoc.set st path value idNow rnd now = r ->
            CollabDoc.metadata (fst r)
            = <[JSON_stringify path := Operation.triple op]> (CollabDoc.metadata st)
            /\ CollabDoc.doc (fst r)
               = fst (CollabDoc.walk OpSet (CollabDoc.doc st) path value)
            /\ head (snd r) = Some (CollabDoc.Emit_change path OpSet value false)) as Hshape.
  { intros r <-. unfold CollabDoc.set. fold op. rewrite and_then_pair.
    rewrite (applyOperation_local_set st op eq_refl). cbn [fst snd].
    match goal with |- context [CollabDoc.queueOrSendOperation ?s op] =>
      destruct (queueOrSendOperation_frame s op) as [Hd Hm] end.
    rewrite Hd, Hm. now repeat split. }
  split.
  - intros r Hr. apply set_returns in Hr.
    destruct (Hshape r Hr) as (Hm & _ & Hhead). split; [| exact Hhead].
    unfold CollabDoc.getMetadata. rewrite Hm, lookup_insert_eq.
    unfold Operation.triple. cbn. f_equal. f_equal. unfold CollabDoc.getMetadata.
    destruct (CollabDoc.metadata st !! JSON_stringify path) as [m|]; [| reflexivity].
    destruct (Z.eqb_spec (Metadata.version m) 0) as [-> | _]; reflexivity.
  - intros Hplain Hbefore.
    destruct (run_walk_set_after_get path (CollabDoc.doc st) value Hplain Hbefore)
      as [rw Hwalk].
    exists (CollabDoc.set st path value idNow rnd now). split.
    + unfold ClientRun.set, CollabDoc.set. fold op.
      rewrite (applyOperation_set_local_clean st op rw eq_refl Hwalk).
      unfold ClientRun.and_then. cbn [outcome_bind fst snd].
      now rewrite and_then_fst_snd.
    + intros Hne. destruct (Hshape _ eq_refl) as (_ & Hd & _).
      unfold ClientRun.get. rewrite Hd.
      pose proof (walk_returns _ _ _ _ _ Hwalk) as Hw. rewrite Hw.
      destruct (run_get_walk_set path _ value rw Hplain Hwalk Hbefore) as [x Hx].
      rewrite Hx. f_equal. apply get_from_returns in Hx.
      rewrite <- Hx, <- Hw. now apply get_walk_set.
Qed.

Lemma local_set_is_applied_witness :
  let st := CollabDoc.mk "room" "A" (CObj {[ "a" := VObj {[ "x" := VNum 1 ]} ]})
              {[ JSON_stringify [SStr "a"; SStr "y"] := Metadata.mk 900 "B" 4 ]}
              [] true true true [] in
  exists r,
    ClientRun.set st [SStr "a"; SStr "y"] (VNum 2) 10 "r" 10 = Returns r
    /\ ClientRun.get (fst r) [SStr "a"; SStr "y"] = Returns (VNum 2)
    /\ CollabDoc.getMetadata (fst r) [SStr "a"; SStr "y"] = Some (Metadata.mk 10 "A" 5).
Proof.
  intros st.
  destruct (local_set_is_applied st [SStr "a"; SStr "y"] (VNum 2) 10 "r" 10)
    as [Hmeta Hret].
  destruct Hret as (r & Hr & Hget); [reflexivity | exists VUndef; reflexivity |].
  exists r. split; [exact Hr |]. split; [apply Hget; discriminate |].
  destruct (Hmeta r Hr) as [Hm _]. exact Hm.
Defined.

(** X4. No local operation that returns is lost or doubled.  On a replica
    whose queue holds primitive values, the operation that [set] or
    [delete] creates is sent at once when the replica is live, connected
    and synced, and the queue is left alone; otherwise nothing is sent and
    the queue is what it was with the operation as its new last entry. *)
Theorem local_operation_sent_or_queued (st : CollabDoc.t) (path : Path) (value : jsval)
    (idNow : Z) (rnd : string) (now : Z) :
  holds_primitives (CollabDoc.offlineQueue st) ->
  let ready := CollabDoc.isLiveMode st && CollabDoc.connected st && CollabDoc.syncedWithServer st in
  let sent r := List.filter CollabDoc.is_send (snd r) in
  let sent_or_queued kind v r :=
    let op := CollabDoc.local_op st kind path v idNow rnd now in
    if ready
    then sent r = [CollabDoc.Socket_emit_operation (CollabDoc.roomId st) op]
         /\ CollabDoc.offlineQueue (fst r) = CollabDoc.offlineQueue st
    else sent r = []
         /\ CollabDoc.offlineQueue (fst r) = CollabDoc.offlineQueue st ++ [op] in
  (forall r, ClientRun.set st path value idNow rnd now = Returns r ->
             sent_or_queued OpSet value r)
  /\ (forall r, ClientRun.delete_ st path idNow rnd now = Returns r ->
                sent_or_queued OpDel VUndef r).
Proof.
  intros _. cbv zeta.
  assert (forall kind v,
    let op := CollabDoc.local_op st kind path v idNow rnd now in
    let r := CollabDoc.and_then (CollabDoc.applyOperation st op false)
               (fun st1 => CollabDoc.queueOrSendOperation st1 op) in
    if CollabDoc.isLiveMode st && CollabDoc.connected st && CollabDoc.syncedWithServer st
    then List.filter CollabDoc.is_send (snd r)
         = [CollabDoc.Socket_emit_operation (CollabDoc.roomId st) op]
         /\ CollabDoc.offlineQueue (fst r) = CollabDoc.offlineQueue st
    else List.filter CollabDoc.is_send (snd r) = []
         /\ CollabDoc.offlineQueue (fst r) = CollabDoc.offlineQueue st ++ [op]) as H.
  { intros kind v op r. subst r. rewrite and_then_pair. cbn [fst snd].
    destruct (applyOperation_frame st op false) as (Hr & _ & Hq & Hc & Hs & Hl & _).
    cbv zeta in *.
    assert (List.filter CollabDoc.is_send (snd (CollabDoc.applyOperation st op false)) = [])
      as Hnone.
    { destruct (applyOperation_effects st op false) as [-> | ->]; reflexivity. }
    rewrite List.filter_app, Hnone. cbn [app].
    unfold CollabDoc.queueOrSendOperation. rewrite Hl, Hc, Hs, Hq, Hr.
    destruct (CollabDoc.isLiveMode st); cbn [negb andb fst snd];
      [| now split].
    destruct (CollabDoc.connected st && CollabDoc.syncedWithServer st);
      cbn [fst snd CollabDoc.offlineQueue CollabDoc.set_offlineQueue]; now split. }
  split; intros r Hr.
  - apply set_returns in Hr as <-. apply (H OpSet value).
  - apply delete_returns in Hr as <-. apply (H OpDel VUndef).
Qed.

Lemma local_operation_sent_or_queued_witness :
  CollabDoc.offlineQueue
    (fst (CollabDoc.delete_ paused_replica [SStr "localQueue"] 2 "d" 2))
  = CollabDoc.offlineQueue paused_replica
    ++ [CollabDoc.local_op paused_replica OpDel [SStr "localQueue"] VUndef 2 "d" 2].
Proof.
  assert (holds_primitives (CollabDoc.offlineQueue paused_replica)) as Hprim.
  { repeat constructor. }
  destruct (local_operation_sent_or_queued paused_replica [SStr "localQueue"] VUndef 2 "d" 2
              Hprim) as [_ Hdel].
  exact (proj2 (Hdel (CollabDoc.delete_ paused_replica [SStr "localQueue"] 2 "d" 2) eq_refl)).
Defined.



(** ** Deleting *)

Lemma last_step_del_absent (c : container) (s : segment) (v : jsval) :
  hasOwnProperty c (ToPropertyKey (Some s)) = false ->
  CollabDoc.last_step OpDel c (Some s) v = c.
Proof.
  intros Hno. unfold CollabDoc.last_step.
  destruct c as [els named | props]; [| now rewrite Hno].
  destruct s as [k | n]; [now rewrite Hno |].
  destruct (Z.leb_spec 0 n) as [Hn | Hn]; [| reflexivity].
  cbn [hasOwnProperty] in Hno. rewrite (array_index_number n Hn) in Hno.
  apply bool_decide_eq_false in Hno.
  destruct (Z.ltb_spec n (Z.of_nat (length els))) as [Hlt | _]; [lia | reflexivity].
Qed.

(** An object that does not hold the key [hasOwnProperty] does not shadow
    the method, and of its keys only [__proto__] is exotic. *)
Lemma object_is_clear (props : gmap string jsval) :
  props !! "hasOwnProperty" = None -> shadows_hasOwnProperty (CObj props) = false.
Proof.
  intros H. unfold shadows_hasOwnProperty. cbn [hasOwnProperty]. rewrite H.
  apply bool_decide_eq_false. now intros [? ?].
Qed.

Lemma array_is_clear (els : list jsval) (named : gmap string jsval) :
  named !! "hasOwnProperty" = None -> shadows_hasOwnProperty (CArr els named) = false.
Proof.
  intros H. unfold shadows_hasOwnProperty. cbn [hasOwnProperty].
  rewrite array_index_hasOwnProperty, H. apply bool_decide_eq_false. now intros [? ?].
Qed.

Lemma array_keeps_splice (els : list jsval) (named : gmap string jsval) :
  named !! "splice" = None -> shadows_splice (CArr els named) = false.
Proof.
  intros H. unfold shadows_splice. cbn [hasOwnProperty].
  change (array_index "splice") with (@None nat). rewrite H.
  apply bool_decide_eq_false. now intros [? ?].
Qed.

Lemma object_key_not_exotic (props : gmap string jsval) (k : string) :
  k <> "__proto__" -> exotic_key (CObj props) k = false.
Proof. intros H. unfold exotic_key. cbn. rewrite orb_false_r. now apply String.eqb_neq. Qed.

Lemma index_not_exotic (c : container) (j : Z) :
  0 <= j -> exotic_key c (ToPropertyKey (Some (SNum j))) = false.
Proof.
  intros Hj. pose proof (array_index_number j Hj) as Hi. unfold exotic_key.
  apply orb_false_iff. split; [| apply andb_false_iff; right];
    apply String.eqb_neq; intros E; rewrite E in Hi; discriminate Hi.
Qed.



(** Reading an element of an array by a number. *)
Lemma get_from_array_index (els : list jsval) (named : gmap string jsval) (j : Z) :
  0 <= j ->
  CollabDoc.get_from (VArr els named) [SNum j] = default VUndef (els !! Z.to_nat j).
Proof.
  intros Hj. cbn [CollabDoc.get_from as_container hasOwnProperty get_prop].
  rewrite (array_index_number j Hj).
  case_bool_decide as Hlt; [reflexivity |].
  cbn. now rewrite lookup_ge_None_2 by lia.
Qed.

(** Reading an element of an array that an object holds under a key,
    neither of the two shadowing [hasOwnProperty]. *)
Lemma run_get_array_element (m : gmap string jsval) (k : string) (a : list jsval)
    (named : gmap string jsval) (i : Z) :
  m !! "hasOwnProperty" = None -> named !! "hasOwnProperty" = None -> k <> "__proto__" ->
  m !! k = Some (VArr a named) -> 0 <= i ->
  ClientRun.get_from (VObj m) [SStr k; SNum i] = Returns (default VUndef (a !! Z.to_nat i)).
Proof.
  intros Hm Hnamed Hk Hlook Hi.
  change (VObj m) with (of_container (CObj m)).
  rewrite run_get_from_step, (object_is_clear m Hm).
  change (ToPropertyKey (Some (SStr k))) with k. rewrite (object_key_not_exotic m k Hk).
  assert (CollabDoc.get_from (of_container (CObj m)) [SStr k] = of_container (CArr a named))
    as ->.
  { cbn [CollabDoc.get_from of_container as_container hasOwnProperty get_prop ToPropertyKey].
    rewrite Hlook. now rewrite bool_decide_eq_true_2 by eauto. }
  rewrite run_get_from_step, (array_is_clear a named Hnamed), (index_not_exotic _ i Hi).
  cbn [ClientRun.get_from of_container]. now rewrite get_from_array_index.
Qed.



(** ** The order behind the merge decision *)

Lemma lex_lt_irrefl (s : string) : ~ lex_lt s s.
Proof. induction s as [|c s IH]; inversion 1; subst; [lia | auto]. Qed.

Lemma lex_lt_trans (s1 s2 s3 : string) : lex_lt s1 s2 -> lex_lt s2 s3 -> lex_lt s1 s3.
Proof.
  intros H12. revert s3. induction H12 as [c s | c1 c2 s1 s2 Hc | c s1 s2 H IH];
    intros s3 H23; inversion H23; subst.
  - constructor.
  - constructor.
  - apply lex_lt_head. lia.
  - now apply lex_lt_head.
  - now apply lex_lt_head.
  - apply lex_lt_tail. now apply IH.
Qed.

Lemma lex_lt_total (s1 s2 : string) : lex_lt s1 s2 \/ s1 = s2 \/ lex_lt s2 s1.
Proof.
  revert s2. induction s1 as [|c1 s1 IH]; intros [|c2 s2].
  - right; now left.
  - left; constructor.
  - right; right; constructor.
  - destruct (N.lt_trichotomy (N_of_ascii c1) (N_of_ascii c2)) as [H | [H | H]].
    + left. now apply lex_lt_head.
    + assert (c1 = c2) as ->.
      { rewrite <- (ascii_N_embedding c1), <- (ascii_N_embedding c2). now rewrite H. }
      destruct (IH s2) as [H' | [-> | H']].
      * left. now apply lex_lt_tail.
      * right; now left.
      * right; right. now apply lex_lt_tail.
    + right; right. now apply lex_lt_head.
Qed.

(** An operation never wins against the metadata it left itself. *)
Lemma incomingWins_irrefl (op : Operation.t) :
  Merge.incomingWins op (Operation.triple op) = false.
Proof.
  apply not_true_is_false. rewrite incomingWins_spec. cbn.
  intros [H | [_ H]]; [lia | now apply lex_lt_irrefl in H].
Qed.

Lemma incomingWins_asym (op1 op2 : Operation.t) :
  Merge.incomingWins op2 (Operation.triple op1) = true ->
  Merge.incomingWins op1 (Operation.triple op2) = false.
Proof.
  intros H. apply not_true_is_false. rewrite incomingWins_spec in *. cbn in *.
  intros [H' | [E H']]; destruct H as [H | [E' H]]; try lia.
  apply (lex_lt_irrefl (Operation.actorId op1)). now apply (lex_lt_trans _ _ _ H').
Qed.

Lemma incomingWins_trans (op1 op2 : Operation.t) (m : Metadata.t) :
  Merge.incomingWins op1 m = true ->
  Merge.incomingWins op2 (Operation.triple op1) = true ->
  Merge.incomingWins op2 m = true.
Proof.
  rewrite !incomingWins_spec. cbn.
  intros [H1 | [E1 H1]] [H2 | [E2 H2]]; try (left; lia).
  right. split; [lia |]. now apply (lex_lt_trans _ _ _ H2).
Qed.

(** What loses against an operation loses against any operation that beats it. *)
Lemma incomingWins_loses (op1 op2 : Operation.t) (m : Metadata.t) :
  Merge.incomingWins op2 m = false ->
  Merge.incomingWins op2 (Operation.triple op1) = true ->
  Merge.incomingWins op1 m = false.
Proof.
  intros Hno H21. apply not_true_is_false. intros H1.
  rewrite (incomingWins_trans op1 op2 m H1 H21) in Hno. discriminate.
Qed.

Lemma incomingWins_total (op1 op2 : Operation.t) :
  (Operation.timestamp op1, Operation.actorId op1)
    <> (Operation.timestamp op2, Operation.actorId op2) ->
  Merge.incomingWins op2 (Operation.triple op1) = true
  \/ Merge.incomingWins op1 (Operation.triple op2) = true.
Proof.
  intros Hne. rewrite !incomingWins_spec. cbn.
  destruct (Z.lt_trichotomy (Operation.timestamp op1) (Operation.timestamp op2))
    as [H | [H | H]]; [left; now left | | right; now left].
  destruct (lex_lt_total (Operation.actorId op1) (Operation.actorId op2)) as [Ha | [Ha | Ha]].
  - right. right. split; [exact H | exact Ha].
  - exfalso. apply Hne. now rewrite H, Ha.
  - left. right. split; [now symmetry | exact Ha].
Qed.

(** ** Writing twice at one path *)

Lemma set_prop_set_prop (c : container) (k : string) (x y : jsval) :
  set_prop (set_prop c k x) k y = set_prop c k y.
Proof.
  destruct c as [els named | props]; cbn [set_prop].
  - destruct (array_index k) as [i|] eqn:E.
    + case_bool_decide as Hi; cbn [set_prop]; rewrite E.
      * rewrite length_insert, bool_decide_eq_true_2 by exact Hi.
        now rewrite list_insert_insert_eq.
      * rewrite bool_decide_eq_true_2
          by (rewrite !length_app, length_replicate; cbn; lia).
        f_equal. rewrite insert_app_r_alt by lia.
        rewrite insert_app_r_alt by (rewrite length_replicate; lia).
        rewrite length_replicate.
        now replace (i - length els - (i - length els))%nat with 0%nat by lia.
    + cbn [set_prop]. rewrite E. now rewrite insert_insert_eq.
  - now rewrite insert_insert_eq.
Qed.

Lemma set_prop_kind (c : container) (k : string) (x : jsval) :
  Array_isArray (of_container (set_prop c k x)) = Array_isArray (of_container c).
Proof.
  destruct c as [els named | props]; cbn [set_prop]; [| reflexivity].
  destruct (array_index k); [| reflexivity]. now case_bool_decide.
Qed.

(** A [set] leaves the cursor an array if it was one, an object if it was one. *)
Lemma walk_set_kind (path : Path) (c : container) (v : jsval) :
  Array_isArray (of_container (fst (CollabDoc.walk OpSet c path v)))
  = Array_isArray (of_container c).
Proof.
  destruct path as [|s rest]; [apply set_prop_kind |].
  destruct (walk_set_top c s rest v) as [x ->]. apply set_prop_kind.
Qed.

(** The container in which the walk of a [set] goes on is of the kind the
    next segment asks for. *)
Lemma walk_set_step_kind (c : container) (s next : segment) (rest : Path) (v : jsval) :
  exists c0,
    Array_isArray (of_container c0) = is_number (Some next)
    /\ forall w,
        fst (CollabDoc.walk OpSet c (s :: next :: rest) w)
        = set_prop c (ToPropertyKey (Some s))
            (of_container (fst (CollabDoc.walk OpSet c0 (next :: rest) w))).
Proof.
  destruct (negb (hasOwnProperty c (ToPropertyKey (Some s)))
            || is_null (get_prop c (ToPropertyKey (Some s)))
            || negb (typeof_object (get_prop c (ToPropertyKey (Some s))))
            || negb (Bool.eqb (Array_isArray (get_prop c (ToPropertyKey (Some s))))
                       (is_number (Some next)))) eqn:E.
  - exists (if is_number (Some next) then CArr [] ∅ else CObj ∅). split.
    + now destruct (is_number (Some next)).
    + intros w. rewrite walk_unfold_step. cbv zeta. rewrite E.
      now destruct (CollabDoc.walk OpSet _ (next :: rest) w).
  - pose proof E as E'.
    rewrite !orb_false_iff, !negb_false_iff in E'. destruct E' as [[[_ Hn] Ht] Hkind].
    destruct (non_null_object_is_container _ Ht Hn) as [c0 Hc0]. exists c0. split.
    + rewrite <- (as_container_inv _ _ Hc0). now apply eqb_prop.
    + intros w. rewrite walk_unfold_step. cbv zeta. rewrite E, Hc0.
      now destruct (CollabDoc.walk OpSet c0 (next :: rest) w).
Qed.

(** A second [set] at the same path overwrites the first and leaves no
    other trace of it. *)
Lemma walk_set_overwrites (path : Path) (c : container) (v1 v2 : jsval) :
  fst (CollabDoc.walk OpSet (fst (CollabDoc.walk OpSet c path v2)) path v1)
  = fst (CollabDoc.walk OpSet c path v1).
Proof.
  revert c. induction path as [|s [|next rest] IH]; intros c.
  - apply set_prop_set_prop.
  - apply set_prop_set_prop.
  - destruct (walk_set_step_kind c s next rest v1) as (c0 & Hkind & Hwalk).
    rewrite (Hwalk v2), (Hwalk v1).
    set (w2 := fst (CollabDoc.walk OpSet c0 (next :: rest) v2)).
    rewrite walk_unfold_step. cbv zeta.
    rewrite has_set_prop, get_set_prop, as_of_container.
    assert (Array_isArray (of_container w2) = is_number (Some next)) as Hk2.
    { subst w2. now rewrite walk_set_kind. }
    rewrite Hk2, eqb_reflx.
    replace (is_null (of_container w2)) with false by now destruct w2.
    replace (typeof_object (of_container w2)) with true by now destruct w2.
    cbn [negb orb].
    pose proof (IH c0) as IH0. fold w2 in IH0.
    destruct (CollabDoc.walk OpSet w2 (next :: rest) v1) as [c1 fin]. cbn [fst] in *.
    now rewrite IH0, set_prop_set_prop.
Qed.

(** ** Sets at one path: redelivery and concurrency on a client *)

Lemma client_apply_some (m : Metadata.t) (op : Operation.t) :
  Merge.client_apply true (Some m) op = Merge.incomingWins op m.
Proof. now rewrite client_apply_remote, server_apply_incomingWins. Qed.

Lemma applyOperation_remote_set (st : CollabDoc.t) (op : Operation.t) :
  Operation.op op = OpSet ->
  CollabDoc.applyOperation st op true
  = if Merge.client_apply true
         (CollabDoc.metadata st !! JSON_stringify (Operation.path op)) op
    then (CollabDoc.set_metadata
            (CollabDoc.set_doc st
               (fst (CollabDoc.walk OpSet (CollabDoc.doc st) (Operation.path op)
                       (Operation.value op))))
            (<[JSON_stringify (Operation.path op) := Operation.triple op]>
               (CollabDoc.metadata st)),
          [CollabDoc.Emit_change (Operation.path op) OpSet (Operation.value op) true])
    else (st, []).
Proof.
  intros Hk. unfold CollabDoc.applyOperation.
  destruct (Merge.client_apply _ _ _); [| reflexivity]. rewrite Hk.
  pose proof (walk_set_finished (Operation.path op) (CollabDoc.doc st) (Operation.value op))
    as Hfin.
  destruct (CollabDoc.walk OpSet _ _ _) as [d fin]. cbn in Hfin. now subst fin.
Qed.

(** X8. Delivering a [set] twice is delivering it once: after a replica has
    merged a remote [set], accepted or not, merging the same operation
    again is rejected, changes nothing and emits nothing. *)
Theorem redelivered_set_is_dropped (st : CollabDoc.t) (op : Operation.t) :
  Operation.op op = OpSet ->
  CollabDoc.applyOperation (fst (CollabDoc.applyOperation st op true)) op true
  = (fst (CollabDoc.applyOperation st op true), []).
Proof.
  intros Hk. rewrite (applyOperation_remote_set st op Hk).
  destruct (Merge.client_apply true _ op) eqn:Hacc; cbn [fst].
  - apply applyOperation_rejected. cbn [CollabDoc.metadata CollabDoc.set_metadata].
    rewrite lookup_insert_eq, client_apply_some. apply incomingWins_irrefl.
  - now apply applyOperation_rejected.
Qed.

Lemma redelivered_set_is_dropped_witness :
  let op := Operation.mk "B-7-s" [SStr "data"] OpSet (VStr "new") 70 "B" 1 in
  CollabDoc.applyOperation (fst (CollabDoc.applyOperation replica_with_data op true)) op true
  = (fst (CollabDoc.applyOperation replica_with_data op true), []).
Proof.
  intros op. apply (redelivered_set_is_dropped replica_with_data op). reflexivity.
Defined.

(** When the second of two sets at one path beats the first, either order
    of arrival ends in the state the second alone produces. *)
Lemma sets_converge_to_winner (st : CollabDoc.t) (op1 op2 : Operation.t) :
  Operation.op op1 = OpSet -> Operation.op op2 = OpSet ->
  Operation.path op1 = Operation.path op2 ->
  Merge.incomingWins op2 (Operation.triple op1) = true ->
  fst (CollabDoc.applyOperation (fst (CollabDoc.applyOperation st op1 true)) op2 true)
    = fst (CollabDoc.applyOperation st op2 true)
  /\ fst (CollabDoc.applyOperation (fst (CollabDoc.applyOperation st op2 true)) op1 true)
    = fst (CollabDoc.applyOperation st op2 true).
Proof.
  intros Hk1 Hk2 Hp Hwin.
  pose proof (incomingWins_asym op1 op2 Hwin) as Hlose.
  split.
  - rewrite (applyOperation_remote_set st op1 Hk1), (applyOperation_remote_set st op2 Hk2).
    rewrite Hp.
    destruct (CollabDoc.metadata st !! JSON_stringify (Operation.path op2)) as [m|] eqn:Hm.
    + rewrite !client_apply_some.
      destruct (Merge.incomingWins op1 m) eqn:H1; cbn [fst].
      * rewrite (incomingWins_trans op1 op2 m H1 Hwin).
        rewrite (applyOperation_remote_set _ op2 Hk2).
        cbn [CollabDoc.metadata CollabDoc.doc CollabDoc.set_metadata CollabDoc.set_doc].
        rewrite lookup_insert_eq, client_apply_some, Hwin. cbn [fst].
        now rewrite walk_set_overwrites, insert_insert_eq.
      * rewrite (applyOperation_remote_set st op2 Hk2), Hm, client_apply_some.
        reflexivity.
    + cbn [Merge.client_apply fst].
      rewrite (applyOperation_remote_set _ op2 Hk2).
      cbn [CollabDoc.metadata CollabDoc.doc CollabDoc.set_metadata CollabDoc.set_doc].
      rewrite lookup_insert_eq, client_apply_some, Hwin. cbn [fst].
      now rewrite walk_set_overwrites, insert_insert_eq.
  - rewrite (applyOperation_remote_set st op2 Hk2).
    destruct (Merge.client_apply true _ op2) eqn:Hacc; cbn [fst].
    + rewrite applyOperation_rejected; [reflexivity |].
      cbn [CollabDoc.metadata CollabDoc.set_metadata].
      now rewrite Hp, lookup_insert_eq, client_apply_some.
    + rewrite applyOperation_rejected; [reflexivity |].
      rewrite Hp.
      destruct (CollabDoc.metadata st !! JSON_stringify (Operation.path op2)) as [m|];
        [| discriminate Hacc].
      rewrite client_apply_some in *. now apply (incomingWins_loses op1 op2 m).
Qed.

(** Whether the walk of a [set] returns does not depend on the value. *)
Lemma run_walk_set_any_value (path : Path) (c : container) (v v' : jsval) :
  (exists r, ClientRun.walk OpSet c path v = Returns r) ->
  exists r', ClientRun.walk OpSet c path v' = Returns r'.
Proof.
  revert c. induction path as [|s [|next rest] IH]; intros c [r H].
  1, 2: rewrite run_walk_unfold_last in * by (cbn; lia);
    unfold ClientRun.last_step in *;
    destruct (exotic_key c _); [discriminate H | eexists; reflexivity].
  rewrite run_walk_unfold_step in *. cbv zeta in *.
  destruct (shadows_hasOwnProperty c); [discriminate H |].
  destruct (exotic_key c _); [now apply assign_fresh_exotic_no_return in H |].
  destruct (negb _ || _ || _ || _).
  - apply outcome_bind_returns in H as (r1 & Hw & _).
    destruct (IH _ (ex_intro _ r1 Hw)) as [r1' ->]. eexists. reflexivity.
  - destruct (as_container _) as [c0|]; [| eexists; reflexivity].
    apply outcome_bind_returns in H as (r1 & Hw & _).
    destruct (IH _ (ex_intro _ r1 Hw)) as [r1' ->]. eexists. reflexivity.
Qed.

(** Where the walk of a [set] along a plain path has returned, a second
    one along the same path returns too. *)
Lemma run_walk_set_again (path : Path) (c : container) (v v' : jsval) (r : container * bool) :
  plain_path path = true ->
  ClientRun.walk OpSet c path v = Returns r ->
  exists r', ClientRun.walk OpSet (fst r) path v' = Returns r'.
Proof.
  revert c r. induction path as [|s [|next rest] IH]; intros c r Hplain H.
  - rewrite run_walk_empty. eauto.
  - rewrite run_walk_unfold_last in * by (cbn; lia). unfold ClientRun.last_step in *.
    cbn [head] in *.
    destruct (exotic_key c (ToPropertyKey (Some s))) eqn:Ee; [discriminate H |].
    injection H as <-. cbn [fst]. rewrite exotic_set_prop, Ee. eexists. reflexivity.
  - cbn [plain_path forallb] in Hplain. apply andb_true_iff in Hplain as [Hs Hrest].
    destruct (plain_segment_keys s Hs) as (Hh & _ & _).
    rewrite run_walk_unfold_step in H. cbv zeta in H.
    destruct (shadows_hasOwnProperty c) eqn:Es; [discriminate H |].
    destruct (exotic_key c (ToPropertyKey (Some s))) eqn:Ee;
      [now apply assign_fresh_exotic_no_return in H |].
    assert (forall c0 r1,
              Array_isArray (of_container c0) = is_number (Some next) ->
              ClientRun.walk OpSet c0 (next :: rest) v = Returns r1 ->
              r = (set_prop c (ToPropertyKey (Some s)) (of_container (fst r1)), snd r1) ->
              exists r', ClientRun.walk OpSet (fst r) (s :: next :: rest) v' = Returns r')
      as Hgo.
    { intros c0 r1 Hkind Hw ->. cbn [fst].
      rewrite run_walk_unfold_step. cbv zeta.
      rewrite shadows_set_prop, exotic_set_prop, Es, Ee by assumption.
      rewrite has_set_prop, get_set_prop, as_of_container.
      assert (Array_isArray (of_container (fst r1)) = is_number (Some next)) as ->.
      { rewrite <- (walk_returns _ _ _ _ _ Hw). now rewrite walk_set_kind. }
      rewrite eqb_reflx.
      replace (is_null (of_container (fst r1))) with false by now destruct (fst r1).
      replace (typeof_object (of_container (fst r1))) with true by now destruct (fst r1).
      cbn [negb orb].
      destruct (IH c0 r1 Hrest Hw) as [r1' ->]. eexists. reflexivity. }
    destruct (negb _ || _ || _ || _) eqn:Et.
    + apply outcome_bind_returns in H as (r1 & Hw & [= <-]).
      apply (Hgo (if is_number (Some next) then CArr [] ∅ else CObj ∅) r1);
        [now destruct (is_number (Some next)) | exact Hw | reflexivity].
    + rewrite !orb_false_iff, !negb_false_iff in Et. destruct Et as [[[_ Hn] Ht] Hkind].
      destruct (non_null_object_is_container _ Ht Hn) as [c0 Hc0]. rewrite Hc0 in H.
      apply outcome_bind_returns in H as (r1 & Hw & [= <-]).
      apply (Hgo c0 r1); [| exact Hw | reflexivity].
      rewrite <- (as_container_inv _ _ Hc0). now apply eqb_prop.
Qed.

(** A remote [set] whose walk returns is merged as on ordinary keys. *)
Lemma applyOperation_set_clean (st : CollabDoc.t) (op : Operation.t) (isRemote : bool) :
  Operation.op op = OpSet ->
  (exists rw,
      ClientRun.walk OpSet (CollabDoc.doc st) (Operation.path op) (Operation.value op)
      = Returns rw) ->
  ClientRun.applyOperation st op isRemote
  = Returns (CollabDoc.applyOperation st op isRemote).
Proof.
  intros Hk [rw Hw]. apply applyOperation_clean. unfold ClientRun.applyOperation.
  destruct (Merge.client_apply _ _ _); [| eauto].
  rewrite Hk, Hw. cbn [outcome_bind]. destruct (snd rw); eauto.
Qed.

(** After a remote [set] along a plain path has been merged, accepted or
    not, the walk of a [set] along the same path returns. *)
Lemma walk_returns_after_set (st : CollabDoc.t) (op : Operation.t) (v' : jsval) :
  Operation.op op = OpSet ->
  plain_path (Operation.path op) = true ->
  (exists rw,
      ClientRun.walk OpSet (CollabDoc.doc st) (Operation.path op) (Operation.value op)
      = Returns rw) ->
  exists rw',
    ClientRun.walk OpSet (CollabDoc.doc (fst (CollabDoc.applyOperation st op true)))
      (Operation.path op) v' = Returns rw'.
Proof.
  intros Hk Hplain [rw Hw]. rewrite (applyOperation_remote_set st op Hk).
  destruct (Merge.client_apply _ _ _); cbn [fst CollabDoc.doc CollabDoc.set_metadata
    CollabDoc.set_doc].
  - rewrite (walk_returns _ _ _ _ _ Hw). now apply (run_walk_set_again _ _ _ _ _ Hplain Hw).
  - apply (run_walk_set_any_value _ _ (Operation.value op)). eauto.
Qed.

(** X9. Two concurrent sets at one path converge.  Two remote [set]
    operations address the same plain path and differ in timestamp or
    writer id, and the walk along the path raises nothing in the replica's
    document.  Then each of them is merged without raising, before or
    after the other; the replica ends in the same document and metadata
    whichever arrives first, and that state is the one the winner alone
    would have produced: the loser leaves no trace.  The winner is the one
    with the greater timestamp or, at equal timestamps, the smaller writer
    id. *)
Theorem concurrent_sets_converge (st : CollabDoc.t) (op1 op2 : Operation.t) :
  Operation.op op1 = OpSet -> Operation.op op2 = OpSet ->
  Operation.path op1 = Operation.path op2 ->
  (Operation.timestamp op1, Operation.actorId op1)
    <> (Operation.timestamp op2, Operation.actorId op2) ->
  plain_path (Operation.path op1) = true ->
  (exists rw,
      ClientRun.walk OpSet (CollabDoc.doc st) (Operation.path op1) (Operation.value op1)
      = Returns rw) ->
  let merged s o := CollabDoc.applyOperation s o true in
  let returns s o := ClientRun.applyOperation s o true = Returns (merged s o) in
  let after a b := fst (merged (fst (merged st a)) b) in
  returns st op1 /\ returns st op2
  /\ returns (fst (merged st op1)) op2 /\ returns (fst (merged st op2)) op1
  /\ after op1 op2 = after op2 op1
  /\ (Merge.incomingWins op2 (Operation.triple op1) = true ->
      after op1 op2 = fst (merged st op2))
  /\ (Merge.incomingWins op1 (Operation.triple op2) = true ->
      after op1 op2 = fst (merged st op1)).
Proof.
  intros Hk1 Hk2 Hp Hne Hplain Hw1 merged returns after. subst merged returns after.
  cbv beta.
  assert (exists rw,
             ClientRun.walk OpSet (CollabDoc.doc st) (Operation.path op2) (Operation.value op2)
             = Returns rw) as Hw2.
  { rewrite <- Hp. now apply (run_walk_set_any_value _ _ (Operation.value op1)). }
  assert (plain_path (Operation.path op2) = true) as Hplain2 by now rewrite <- Hp.
  split; [now apply applyOperation_set_clean |].
  split; [now apply applyOperation_set_clean |].
  split.
  { apply applyOperation_set_clean; [assumption |]. rewrite <- Hp.
    now apply walk_returns_after_set. }
  split.
  { apply applyOperation_set_clean; [assumption |]. rewrite Hp.
    now apply walk_returns_after_set. }
  assert (Merge.incomingWins op2 (Operation.triple op1) = true ->
          fst (CollabDoc.applyOperation (fst (CollabDoc.applyOperation st op1 true)) op2 true)
          = fst (CollabDoc.applyOperation st op2 true)) as H21.
  { intros Hwin. now destruct (sets_converge_to_winner st op1 op2 Hk1 Hk2 Hp Hwin). }
  assert (Merge.incomingWins op1 (Operation.triple op2) = true ->
          fst (CollabDoc.applyOperation (fst (CollabDoc.applyOperation st op1 true)) op2 true)
          = fst (CollabDoc.applyOperation st op1 true)) as H12.
  { intros Hwin.
    now destruct (sets_converge_to_winner st op2 op1 Hk2 Hk1 (eq_sym Hp) Hwin). }
  split; [| split; assumption].
  destruct (incomingWins_total op1 op2 Hne) as [Hwin | Hwin].
  - destruct (sets_converge_to_winner st op1 op2 Hk1 Hk2 Hp Hwin) as [-> ->]. reflexivity.
  - destruct (sets_converge_to_winner st op2 op1 Hk2 Hk1 (eq_sym Hp) Hwin) as [-> ->].
    reflexivity.
Qed.

Lemma concurrent_sets_converge_witness :
  let st := CollabDoc.mk "room" "C" (CObj ∅) ∅ [] true true true [] in
  let opA := Operation.mk "A-100-x" [SStr "k"; SStr "v"] OpSet (VStr "from A") 100 "A" 1 in
  let opM := Operation.mk "M-100-y" [SStr "k"; SStr "v"] OpSet (VStr "from M") 100 "M" 1 in
  ClientRun.applyOperation (fst (CollabDoc.applyOperation st opM true)) opA true
  = Returns (CollabDoc.applyOperation (fst (CollabDoc.applyOperation st opM true)) opA true)
  /\ fst (CollabDoc.applyOperation (fst (CollabDoc.applyOperation st opM true)) opA true)
     = fst (CollabDoc.applyOperation (fst (CollabDoc.applyOperation st opA true)) opM true)
  /\ ClientRun.get
       (fst (CollabDoc.applyOperation (fst (CollabDoc.applyOperation st opA true)) opM true))
       [SStr "k"; SStr "v"] = Returns (VStr "from A").
Proof.
  intros st opA opM.
  assert ((Operation.timestamp opM, Operation.actorId opM)
          <> (Operation.timestamp opA, Operation.actorId opA)) as Hne by discriminate.
  assert (exists rw,
             ClientRun.walk OpSet (CollabDoc.doc st) (Operation.path opM) (Operation.value opM)
             = Returns rw) as Hw by (eexists; reflexivity).
  destruct (concurrent_sets_converge st opM opA eq_refl eq_refl eq_refl Hne eq_refl Hw)
    as (_ & _ & Hret & _ & Heq & Hwin & _).
  cbv zeta in Hret, Heq, Hwin. split; [exact Hret |]. split; [exact Heq |].
  rewrite <- Heq, (Hwin eq_refl). reflexivity.
Defined.

(** ** The Offline Queue *)

(** X10. A flush sends every queued operation once.  When the replica is
    connected and synced, [processOfflineQueue] sends the whole queue in
    queue order and empties it; otherwise it sends nothing and keeps the
    queue.  Either way it leaves document, metadata and mode alone, and a
    second flush right after the first sends nothing. *)
Theorem flush_sends_each_operation_once (st : CollabDoc.t) :
  let r := CollabDoc.processOfflineQueue st in
  (if CollabDoc.connected st && CollabDoc.syncedWithServer st
   then snd r = map (CollabDoc.Socket_emit_operation (CollabDoc.roomId st))
                  (CollabDoc.offlineQueue st)
        /\ CollabDoc.offlineQueue (fst r) = []
   else r = (st, []))
  /\ CollabDoc.set_offlineQueue (fst r) (CollabDoc.offlineQueue st) = st
  /\ CollabDoc.processOfflineQueue (fst r) = (fst r, []).
Proof.
  cbv zeta. rewrite (processOfflineQueue_spec (fst _)), !processOfflineQueue_spec.
  destruct (CollabDoc.connected st && CollabDoc.syncedWithServer st) eqn:E;
    cbn [fst snd CollabDoc.connected CollabDoc.syncedWithServer CollabDoc.set_offlineQueue
         CollabDoc.offlineQueue CollabDoc.roomId]; rewrite E.
  - repeat split. now destruct st.
  - repeat split. now destruct st.
Qed.

Lemma findIndex_found (id : string) (queue : list Operation.t) (i : nat) :
  CollabDoc.findIndex id queue = Some i ->
  exists o, queue !! i = Some o /\ Operation.id o = id
    /\ forall j o', (j < i)%nat -> queue !! j = Some o' -> Operation.id o' <> id.
Proof.
  revert i. induction queue as [|q rest IH]; intros i; [discriminate |].
  cbn [CollabDoc.findIndex].
  destruct (String.eqb_spec (Operation.id q) id) as [E | Hne].
  - intros [= <-]. exists q. repeat split; [exact E |]. intros j o' Hj. lia.
  - destruct (CollabDoc.findIndex id rest) as [i0|]; [| discriminate].
    intros [= <-]. destruct (IH i0 eq_refl) as (o & Ho & Hid & Hfirst).
    exists o. repeat split; [exact Ho | exact Hid |].
    intros [|j] o' Hj Ho'; cbn in Ho'.
    + now injection Ho' as <-.
    + apply (Hfirst j o'); [lia | exact Ho'].
Qed.

Lemma findIndex_present (id : string) (queue : list Operation.t) (o : Operation.t) :
  o ∈ queue -> Operation.id o = id -> is_Some (CollabDoc.findIndex id queue).
Proof.
  intros Hin Hid. destruct (CollabDoc.findIndex id queue) eqn:E; [eauto |].
  exfalso. induction queue as [|q rest IH]; [now apply not_elem_of_nil in Hin |].
  cbn [CollabDoc.findIndex] in E.
  destruct (String.eqb_spec (Operation.id q) id) as [_ | Hne]; [discriminate |].
  destruct (CollabDoc.findIndex id rest); [discriminate |].
  apply elem_of_cons in Hin as [-> | Hin]; [contradiction | now apply IH].
Qed.

(** X11. An incoming operation whose id is in the Offline Queue is taken as
    the acknowledgment of the queued one.  The first queued operation with
    that id is removed, the other entries keep their order, and nothing
    else happens: document and metadata are untouched and no event is
    emitted, in live and in paused mode alike, and whatever the incoming
    operation carries beside the id. *)
Theorem queued_operation_is_acknowledged (st : CollabDoc.t) (op queued : Operation.t) :
  queued ∈ CollabDoc.offlineQueue st ->
  Operation.id queued = Operation.id op ->
  exists i o,
    CollabDoc.offlineQueue st !! i = Some o
    /\ Operation.id o = Operation.id op
    /\ (forall j o', (j < i)%nat -> CollabDoc.offlineQueue st !! j = Some o' ->
          Operation.id o' <> Operation.id op)
    /\ CollabDoc.on_operation st (CollabDoc.roomId st) op
       = (CollabDoc.set_offlineQueue st (delete i (CollabDoc.offlineQueue st)), []).
Proof.
  intros Hin Hid.
  destruct (findIndex_present _ _ _ Hin Hid) as [i Hi].
  destruct (findIndex_found _ _ _ Hi) as (o & Ho & Hido & Hfirst).
  exists i, o. repeat split; try assumption.
  unfold CollabDoc.on_operation, CollabDoc.applyRemoteOperation.
  now rewrite String.eqb_refl, Hi.
Qed.

Lemma queued_operation_is_acknowledged_witness :
  let echo := Operation.mk "A-1-q" [SStr "localQueue"] OpSet (VStr "localValue") 1 "A" 1 in
  exists i o,
    CollabDoc.offlineQueue paused_replica !! i = Some o
    /\ Operation.id o = Operation.id echo
    /\ (forall j o', (j < i)%nat -> CollabDoc.offlineQueue paused_replica !! j = Some o' ->
          Operation.id o' <> Operation.id echo)
    /\ CollabDoc.on_operation paused_replica (CollabDoc.roomId paused_replica) echo
       = (CollabDoc.set_offlineQueue paused_replica
            (delete i (CollabDoc.offlineQueue paused_replica)), []).
Proof.
  intros echo. apply (queued_operation_is_acknowledged paused_replica echo echo).
  - cbn. left.
  - reflexivity.
Defined.

(** ** Invariants of a replica *)

Lemma drain_frame (buffered : list Operation.t) (st : CollabDoc.t) :
  let st1 := fst (CollabDoc.drain st buffered) in
  CollabDoc.roomId st1 = CollabDoc.roomId st
  /\ CollabDoc.actorId st1 = CollabDoc.actorId st
  /\ CollabDoc.offlineQueue st1 = CollabDoc.offlineQueue st
  /\ CollabDoc.connected st1 = CollabDoc.connected st
  /\ CollabDoc.syncedWithServer st1 = CollabDoc.syncedWithServer st
  /\ CollabDoc.isLiveMode st1 = CollabDoc.isLiveMode st.
Proof.
  revert st. induction buffered as [|op rest IH]; intros st; [now repeat split |].
  cbn [CollabDoc.drain]. rewrite and_then_pair. cbn [fst].
  destruct (IH (fst (CollabDoc.applyOperation
                       (CollabDoc.set_remoteOperationsBuffer st rest) op true)))
    as (Hr & Ha & Hq & Hc & Hs & Hl).
  destruct (applyOperation_frame (CollabDoc.set_remoteOperationsBuffer st rest) op true)
    as (Hr' & Ha' & Hq' & Hc' & Hs' & Hl' & _).
  cbv zeta in *. cbn [CollabDoc.set_remoteOperationsBuffer CollabDoc.roomId CollabDoc.actorId
    CollabDoc.offlineQueue CollabDoc.connected CollabDoc.syncedWithServer CollabDoc.isLiveMode]
    in *.
  repeat split; congruence.
Qed.

Lemma processOfflineQueue_frame (st : CollabDoc.t) :
  let st1 := fst (CollabDoc.processOfflineQueue st) in
  CollabDoc.actorId st1 = CollabDoc.actorId st
  /\ CollabDoc.doc st1 = CollabDoc.doc st
  /\ CollabDoc.metadata st1 = CollabDoc.metadata st
  /\ CollabDoc.isLiveMode st1 = CollabDoc.isLiveMode st
  /\ CollabDoc.remoteOperationsBuffer st1 = CollabDoc.remoteOperationsBuffer st
  /\ (CollabDoc.offlineQueue st1 = CollabDoc.offlineQueue st \/ CollabDoc.offlineQueue st1 = []).
Proof.
  cbv zeta. rewrite processOfflineQueue_spec.
  destruct (_ && _); cbn; repeat split; auto.
Qed.

Lemma queueOrSendOperation_shape (st : CollabDoc.t) (op : Operation.t) :
  let st1 := fst (CollabDoc.queueOrSendOperation st op) in
  CollabDoc.actorId st1 = CollabDoc.actorId st
  /\ CollabDoc.isLiveMode st1 = CollabDoc.isLiveMode st
  /\ CollabDoc.remoteOperationsBuffer st1 = CollabDoc.remoteOperationsBuffer st
  /\ (CollabDoc.offlineQueue st1 = CollabDoc.offlineQueue st
      \/ CollabDoc.offlineQueue st1 = CollabDoc.offlineQueue st ++ [op]).
Proof.
  cbv zeta. unfold CollabDoc.queueOrSendOperation.
  destruct (negb _); [cbn; repeat split; auto |].
  destruct (_ && _); cbn; repeat split; auto.
Qed.

(** What one input may do to the writer id, the queue and the buffer. *)
Lemma step_shape (st : CollabDoc.t) (i : CollabDoc.Input) :
  let st1 := fst (CollabDoc.step st i) in
  CollabDoc.actorId st1 = CollabDoc.actorId st
  /\ (CollabDoc.offlineQueue st1 = CollabDoc.offlineQueue st
      \/ CollabDoc.offlineQueue st1 = []
      \/ (exists op, Operation.actorId op = CollabDoc.actorId st
            /\ CollabDoc.offlineQueue st1 = CollabDoc.offlineQueue st ++ [op])
      \/ exists j, CollabDoc.offlineQueue st1 = delete j (CollabDoc.offlineQueue st))
  /\ (CollabDoc.isLiveMode st1 = true ->
      CollabDoc.remoteOperationsBuffer st1 = []
      \/ (CollabDoc.isLiveMode st = true
          /\ CollabDoc.remoteOperationsBuffer st1 = CollabDoc.remoteOperationsBuffer st)).
Proof.
  assert (forall kind path v a b c,
    let op := CollabDoc.local_op st kind path v a b c in
    let st1 := fst (CollabDoc.and_then (CollabDoc.applyOperation st op false)
                      (fun s => CollabDoc.queueOrSendOperation s op)) in
    CollabDoc.actorId st1 = CollabDoc.actorId st
    /\ (CollabDoc.offlineQueue st1 = CollabDoc.offlineQueue st
        \/ CollabDoc.offlineQueue st1 = []
        \/ (exists op, Operation.actorId op = CollabDoc.actorId st
              /\ CollabDoc.offlineQueue st1 = CollabDoc.offlineQueue st ++ [op])
        \/ exists j, CollabDoc.offlineQueue st1 = delete j (CollabDoc.offlineQueue st))
    /\ (CollabDoc.isLiveMode st1 = true ->
        CollabDoc.remoteOperationsBuffer st1 = []
        \/ (CollabDoc.isLiveMode st = true
            /\ CollabDoc.remoteOperationsBuffer st1 = CollabDoc.remoteOperationsBuffer st)))
    as Hlocal.
  { intros kind path v a b c op st1. subst st1. rewrite and_then_pair. cbn [fst].
    destruct (applyOperation_frame st op false) as (_ & Ha & Hq & _ & _ & Hl & Hb).
    destruct (queueOrSendOperation_shape (fst (CollabDoc.applyOperation st op false)) op)
      as (Ha' & Hl' & Hb' & Hq').
    cbv zeta in *. rewrite Ha', Ha, Hl', Hl, Hb', Hb. repeat split.
    - destruct Hq' as [-> | ->]; rewrite Hq; [now left |].
      right; right; left. exists op. now split.
    - intros Hlive. right. now split. }
  destruct i as [ | | path v a b c | path a b c | | | | reason | d m | room op | err];
    cbn [CollabDoc.step].
  - unfold CollabDoc.connect. destruct (negb _); cbn; repeat split; auto.
  - unfold CollabDoc.disconnect. destruct (CollabDoc.connected st); cbn; repeat split; auto.
  - apply (Hlocal OpSet).
  - apply (Hlocal OpDel).
  - unfold CollabDoc.pause.
    destruct (CollabDoc.isLiveMode st) eqn:E; cbn; repeat split; auto;
      try (intros; congruence).
  - unfold CollabDoc.resume. destruct (CollabDoc.isLiveMode st) eqn:E; cbn [negb].
    + cbn. repeat split; auto.
    + rewrite !and_then_pair. cbn [fst].
      destruct (drain_frame (CollabDoc.remoteOperationsBuffer st)
                  (CollabDoc.set_isLiveMode st true)) as (_ & Ha & Hq & _).
      match goal with |- context [CollabDoc.processOfflineQueue ?s] =>
        destruct (processOfflineQueue_frame s) as (Ha' & _ & _ & _ & Hb' & Hq') end.
      cbv zeta in *.
      cbn [CollabDoc.set_remoteOperationsBuffer CollabDoc.set_isLiveMode CollabDoc.actorId
           CollabDoc.offlineQueue CollabDoc.remoteOperationsBuffer] in *.
      rewrite Ha', Ha, Hb'. repeat split; [| now left].
      destruct Hq' as [-> | ->]; [left; exact Hq | right; now left].
  - cbn. repeat split; auto.
  - cbn. repeat split; auto.
  - unfold CollabDoc.on_initial_state. rewrite and_then_pair. cbn [fst].
    match goal with |- context [CollabDoc.processOfflineQueue ?s] =>
      destruct (processOfflineQueue_frame s) as (Ha' & _ & _ & Hl' & Hb' & Hq') end.
    cbv zeta in *. rewrite Ha', Hl', Hb'. cbn. repeat split; [| auto].
    destruct Hq' as [-> | ->]; cbn; auto.
  - unfold CollabDoc.on_operation, CollabDoc.applyRemoteOperation.
    destruct (String.eqb room (CollabDoc.roomId st)); [| cbn; repeat split; auto].
    destruct (CollabDoc.findIndex _ _) as [j|].
    + cbn. repeat split; [| auto]. right; right; right. now exists j.
    + destruct (CollabDoc.isLiveMode st) eqn:E; cbn [negb].
      * destruct (applyOperation_frame st op true) as (_ & Ha & Hq & _ & _ & Hl & Hb).
        cbv zeta in *. rewrite Ha, Hq, Hl, Hb. repeat split; auto.
      * cbn. rewrite E. repeat split; auto. discriminate.
  - cbn. repeat split; auto.
Qed.

(** A property that holds of a fresh replica and is kept by every input
    holds of every reachable state. *)
Lemma reachable_invariant (P : CollabDoc.t -> Prop) :
  (forall room actor, P (CollabDoc.new room actor)) ->
  (forall st i, P st -> P (fst (CollabDoc.step st i))) ->
  forall st, CollabDoc.reachable st -> P st.
Proof.
  intros Hnew Hstep st (room & actor & inputs & <-).
  generalize (Hnew room actor). generalize (CollabDoc.new room actor).
  induction inputs as [|i rest IH]; intros st0 H0; [exact H0 |].
  cbn [CollabDoc.run].
  specialize (Hstep st0 i H0). specialize (IH (fst (CollabDoc.step st0 i)) Hstep).
  destruct (CollabDoc.step st0 i) as [st1 e]. cbn [fst] in *.
  now destruct (CollabDoc.run st1 rest).
Qed.

(** X12. In every state a replica reaches through calls and handlers
    that all returned, a live replica holds no buffered remote operation:
    the Remote Buffer fills only while paused, and a [resume] that returns
    has emptied it. *)
Theorem live_replica_has_empty_buffer (st : CollabDoc.t) :
  ClientRun.reachable st ->
  CollabDoc.isLiveMode st = true ->
  CollabDoc.remoteOperationsBuffer st = [].
Proof.
  intros Hreach. apply reachable_returns in Hreach. revert st Hreach.
  apply (reachable_invariant
    (fun st => CollabDoc.isLiveMode st = true -> CollabDoc.remoteOperationsBuffer st = [])).
  - reflexivity.
  - intros st i IH Hlive. destruct (step_shape st i) as (_ & _ & Hb).
    destruct (Hb Hlive) as [-> | [Hl ->]]; [reflexivity | now apply IH].
Qed.

Lemma live_replica_has_empty_buffer_witness :
  let inputs :=
    [CollabDoc.Call_pause;
     CollabDoc.Sock_operation "room"
       (Operation.mk "B-1-s" [SStr "k"] OpSet (VNum 1) 1 "B" 1);
     CollabDoc.Call_resume] in
  CollabDoc.remoteOperationsBuffer (fst (CollabDoc.run (CollabDoc.new "room" "A") inputs)) = [].
Proof.
  intros inputs. apply live_replica_has_empty_buffer; [| reflexivity].
  exists "room", "A", inputs, (snd (CollabDoc.run (CollabDoc.new "room" "A") inputs)).
  vm_compute. reflexivity.
Defined.

(** X13. In every state a replica can reach, the Offline Queue holds
    operations of this replica only: each queued operation carries the
    replica's own writer id. *)
Theorem queue_holds_own_operations (st : CollabDoc.t) (op : Operation.t) :
  CollabDoc.reachable st ->
  op ∈ CollabDoc.offlineQueue st ->
  Operation.actorId op = CollabDoc.actorId st.
Proof.
  intros Hreach. revert op. revert st Hreach. apply (reachable_invariant
    (fun st => forall op, op ∈ CollabDoc.offlineQueue st ->
                 Operation.actorId op = CollabDoc.actorId st)).
  - intros room actor op Hin. now apply not_elem_of_nil in Hin.
  - intros st i IH op Hin. destruct (step_shape st i) as (Ha & Hq & _).
    cbv zeta in *. rewrite Ha.
    destruct Hq as [Hq | [Hq | [(op' & Hop' & Hq) | (j & Hq)]]]; rewrite Hq in Hin.
    + now apply IH.
    + now apply not_elem_of_nil in Hin.
    + apply elem_of_app in Hin as [Hin | Hin]; [now apply IH |].
      now apply list_elem_of_singleton in Hin as ->.
    + apply IH. now apply list_elem_of_delete_inv in Hin.
Qed.

Lemma queue_holds_own_operations_witness :
  let st := fst (CollabDoc.run (CollabDoc.new "room" "A")
                   [CollabDoc.Call_set [SStr "k"] (VNum 1) 1 "r" 1]) in
  Operation.actorId (Operation.mk "A-1-r" [SStr "k"] OpSet (VNum 1) 1 "A" 1)
  = CollabDoc.actorId st.
Proof.
  intros st. apply queue_holds_own_operations.
  - eexists _, _, _. reflexivity.
  - cbn. left.
Defined.

(** ** What leaves a replica, and what it tells its listeners *)

Lemma applyOperation_sends_nothing (st : CollabDoc.t) (op : Operation.t) (isRemote : bool)
    (e : CollabDoc.Effect) :
  e ∈ snd (CollabDoc.applyOperation st op isRemote) -> CollabDoc.is_send e = false.
Proof.
  destruct (applyOperation_effects st op isRemote) as [-> | ->]; intros He.
  - now apply not_elem_of_nil in He.
  - now apply list_elem_of_singleton in He as ->.
Qed.

Lemma processOfflineQueue_sends (st : CollabDoc.t) (e : CollabDoc.Effect) :
  e ∈ snd (CollabDoc.processOfflineQueue st) ->
  CollabDoc.connected st = true /\ CollabDoc.syncedWithServer st = true.
Proof.
  rewrite processOfflineQueue_spec.
  destruct (CollabDoc.connected st); destruct (CollabDoc.syncedWithServer st); cbn;
    intros He; try (now apply not_elem_of_nil in He). now split.
Qed.

Lemma drain_sends_nothing (buffered : list Operation.t) (st : CollabDoc.t)
    (e : CollabDoc.Effect) :
  e ∈ snd (CollabDoc.drain st buffered) -> CollabDoc.is_send e = false.
Proof.
  destruct (drain_is_replay buffered st) as [_ ->]. intros He.
  now destruct (replay_effects _ _ _ He) as (op & _ & ->).
Qed.

(** X14. An operation leaves a replica only when it is connected and
    synced.  Whatever the input, if handling it emits an operation to the
    server, the replica was connected before the input, and it was synced
    before the input unless the input is the initial state itself. *)
Theorem operations_leave_only_when_connected (st : CollabDoc.t) (i : CollabDoc.Input)
    (e : CollabDoc.Effect) :
  e ∈ snd (CollabDoc.step st i) ->
  CollabDoc.is_send e = true ->
  CollabDoc.connected st = true
  /\ (CollabDoc.syncedWithServer st = true \/ exists d m, i = CollabDoc.Sock_initial_state d m).
Proof.
  intros He Hsend.
  assert (forall op,
    e ∈ snd (CollabDoc.and_then (CollabDoc.applyOperation st op false)
               (fun s => CollabDoc.queueOrSendOperation s op)) ->
    CollabDoc.connected st = true /\ CollabDoc.syncedWithServer st = true) as Hlocal.
  { intros op Hin. rewrite and_then_pair in Hin. cbn [snd] in Hin.
    apply elem_of_app in Hin as [Hin | Hin].
    - apply applyOperation_sends_nothing in Hin. congruence.
    - destruct (applyOperation_frame st op false) as (_ & _ & _ & Hc & Hs & Hl & _).
      cbv zeta in *. unfold CollabDoc.queueOrSendOperation in Hin.
      rewrite Hl, Hc, Hs in Hin.
      destruct (CollabDoc.isLiveMode st); cbn [negb] in Hin;
        [| now apply not_elem_of_nil in Hin].
      destruct (CollabDoc.connected st); destruct (CollabDoc.syncedWithServer st);
        cbn in Hin; try (now apply not_elem_of_nil in Hin). now split. }
  destruct i as [ | | path v a b c | path a b c | | | | reason | d m | room op | err];
    cbn [CollabDoc.step] in He.
  - unfold CollabDoc.connect in He. destruct (negb _); cbn in He.
    + apply list_elem_of_singleton in He as ->. discriminate.
    + now apply not_elem_of_nil in He.
  - unfold CollabDoc.disconnect in He. destruct (CollabDoc.connected st); cbn in He.
    + apply list_elem_of_singleton in He as ->. discriminate.
    + now apply not_elem_of_nil in He.
  - destruct (Hlocal _ He) as [Hc Hs]. auto.
  - destruct (Hlocal _ He) as [Hc Hs]. auto.
  - unfold CollabDoc.pause in He. destruct (CollabDoc.isLiveMode st); cbn in He.
    + apply list_elem_of_singleton in He as ->. discriminate.
    + now apply not_elem_of_nil in He.
  - unfold CollabDoc.resume in He. destruct (negb _); cbn [snd] in He;
      [| now apply not_elem_of_nil in He].
    rewrite !and_then_pair in He. cbn [fst snd] in He.
    apply elem_of_app in He as [He | He].
    { apply drain_sends_nothing in He. congruence. }
    apply elem_of_app in He as [He | He].
    + apply processOfflineQueue_sends in He.
      destruct (drain_frame (CollabDoc.remoteOperationsBuffer st)
                  (CollabDoc.set_isLiveMode st true)) as (_ & _ & _ & Hc & Hs & _).
      cbv zeta in *. cbn in He, Hc, Hs. rewrite Hc, Hs in He. destruct He. auto.
    + apply list_elem_of_singleton in He as ->. discriminate.
  - cbn in He. apply elem_of_cons in He as [-> | He]; [discriminate |].
    apply list_elem_of_singleton in He as ->. discriminate.
  - cbn in He. apply list_elem_of_singleton in He as ->. discriminate.
  - unfold CollabDoc.on_initial_state in He. rewrite and_then_pair in He.
    cbn [fst snd] in He. apply elem_of_app in He as [He | He].
    + apply list_elem_of_singleton in He as ->. discriminate.
    + apply processOfflineQueue_sends in He as [Hc _]. cbn in Hc. eauto.
  - unfold CollabDoc.on_operation, CollabDoc.applyRemoteOperation in He.
    destruct (String.eqb _ _); [| now apply not_elem_of_nil in He].
    destruct (CollabDoc.findIndex _ _); [now apply not_elem_of_nil in He |].
    destruct (negb _); [now apply not_elem_of_nil in He |].
    apply applyOperation_sends_nothing in He. congruence.
  - cbn in He. apply list_elem_of_singleton in He as ->. discriminate.
Qed.

Lemma operations_leave_only_when_connected_witness :
  let st := CollabDoc.mk "room" "A" (CObj ∅) ∅ [] true true true [] in
  let i := CollabDoc.Call_set [SStr "k"] (VNum 1) 1 "r" 1 in
  CollabDoc.connected st = true
  /\ (CollabDoc.syncedWithServer st = true \/ exists d m, i = CollabDoc.Sock_initial_state d m).
Proof.
  intros st i.
  apply (operations_leave_only_when_connected st i
           (CollabDoc.Socket_emit_operation "room"
              (Operation.mk "A-1-r" [SStr "k"] OpSet (VNum 1) 1 "A" 1))).
  - cbn. right. left.
  - reflexivity.
Defined.

(** An [applyOperation] that emits nothing has changed nothing. *)
Lemma applyOperation_silent (st : CollabDoc.t) (op : Operation.t) (isRemote : bool) :
  snd (CollabDoc.applyOperation st op isRemote) = [] ->
  fst (CollabDoc.applyOperation st op isRemote) = st.
Proof.
  unfold CollabDoc.applyOperation.
  destruct (Merge.client_apply _ _ _); [| reflexivity].
  destruct (Operation.op op).
  - pose proof (walk_set_finished (Operation.path op) (CollabDoc.doc st) (Operation.value op))
      as Hset.
    destruct (CollabDoc.walk OpSet _ _ _) as [d [|]]; cbn [fst snd] in *; discriminate.
  - pose proof (walk_del_dropped (Operation.path op) (CollabDoc.doc st) (Operation.value op))
      as Hdel.
    destruct (CollabDoc.walk OpDel _ _ _) as [d [|]]; cbn [fst snd] in *; [discriminate |].
    intros _. rewrite (Hdel eq_refl). apply set_doc_same.
Qed.

Lemma drain_silent (buffered : list Operation.t) (st : CollabDoc.t) :
  (forall e, e ∈ snd (CollabDoc.drain st buffered) -> announces e = false) ->
  CollabDoc.doc (fst (CollabDoc.drain st buffered)) = CollabDoc.doc st
  /\ CollabDoc.metadata (fst (CollabDoc.drain st buffered)) = CollabDoc.metadata st.
Proof.
  revert st. induction buffered as [|op rest IH]; intros st Hquiet; [now split |].
  cbn [CollabDoc.drain] in *. rewrite and_then_pair in *. cbn [fst snd] in *.
  set (st0 := CollabDoc.set_remoteOperationsBuffer st rest) in *.
  assert (snd (CollabDoc.applyOperation st0 op true) = []) as Hnil.
  { destruct (applyOperation_effects st0 op true) as [E | E]; [exact E |].
    exfalso. rewrite E in Hquiet.
    specialize (Hquiet (CollabDoc.Emit_change (Operation.path op) (Operation.op op)
                          (Operation.value op) true)).
    cbn in Hquiet. discriminate Hquiet. left. }
  rewrite (applyOperation_silent st0 op true Hnil).
  destruct (IH st0) as [Hd Hm].
  { intros e He. apply Hquiet. apply elem_of_app. right.
    now rewrite (applyOperation_silent st0 op true Hnil). }
  rewrite Hd, Hm. now split.
Qed.

(** X15. A replica never changes its document or metadata silently.
    Whatever the input, if handling it emits neither a [change] nor a
    [synced] event, the document and the metadata are what they were; so a
    listener that re-reads the document on these two events always shows
    the current document. *)
Theorem every_mutation_is_announced (st : CollabDoc.t) (i : CollabDoc.Input) :
  (forall e, e ∈ snd (CollabDoc.step st i) -> announces e = false) ->
  CollabDoc.doc (fst (CollabDoc.step st i)) = CollabDoc.doc st
  /\ CollabDoc.metadata (fst (CollabDoc.step st i)) = CollabDoc.metadata st.
Proof.
  intros Hquiet.
  assert (forall op,
    (forall e, e ∈ snd (CollabDoc.and_then (CollabDoc.applyOperation st op false)
                         (fun s => CollabDoc.queueOrSendOperation s op)) ->
               announces e = false) ->
    let st1 := fst (CollabDoc.and_then (CollabDoc.applyOperation st op false)
                      (fun s => CollabDoc.queueOrSendOperation s op)) in
    CollabDoc.doc st1 = CollabDoc.doc st /\ CollabDoc.metadata st1 = CollabDoc.metadata st)
    as Hlocal.
  { intros op Hq st1. subst st1. rewrite and_then_pair in *. cbn [fst snd] in *.
    assert (snd (CollabDoc.applyOperation st op false) = []) as Hnil.
    { destruct (applyOperation_effects st op false) as [E | E]; [exact E |].
      exfalso. rewrite E in Hq.
      specialize (Hq (CollabDoc.Emit_change (Operation.path op) (Operation.op op)
                        (Operation.value op) false)).
      cbn in Hq. discriminate Hq. left. }
    rewrite (applyOperation_silent st op false Hnil).
    apply queueOrSendOperation_frame. }
  destruct i as [ | | path v a b c | path a b c | | | | reason | d m | room op | err];
    cbn [CollabDoc.step] in *.
  - unfold CollabDoc.connect. now destruct (negb _).
  - unfold CollabDoc.disconnect. now destruct (CollabDoc.connected st).
  - now apply Hlocal.
  - now apply Hlocal.
  - unfold CollabDoc.pause. now destruct (CollabDoc.isLiveMode st).
  - unfold CollabDoc.resume in *. destruct (negb _); [| now split].
    rewrite !and_then_pair in *. cbn [fst snd] in *.
    match goal with |- context [CollabDoc.processOfflineQueue ?s] =>
      destruct (processOfflineQueue_frame s) as (_ & Hd & Hm & _) end.
    cbv zeta in *. rewrite Hd, Hm. cbn [CollabDoc.set_remoteOperationsBuffer CollabDoc.doc
      CollabDoc.metadata].
    destruct (drain_silent (CollabDoc.remoteOperationsBuffer st)
                (CollabDoc.set_isLiveMode st true)) as [Hd' Hm'].
    { intros e He. apply Hquiet. apply elem_of_app. now left. }
    now rewrite Hd', Hm'.
  - now split.
  - now split.
  - exfalso. specialize (Hquiet CollabDoc.Emit_synced).
    unfold CollabDoc.on_initial_state in Hquiet. rewrite and_then_pair in Hquiet.
    cbn [fst snd] in Hquiet. discriminate Hquiet. left.
  - unfold CollabDoc.on_operation, CollabDoc.applyRemoteOperation in *.
    destruct (String.eqb _ _); [| now split].
    destruct (CollabDoc.findIndex _ _); [now split |].
    destruct (negb _); [now split |].
    assert (snd (CollabDoc.applyOperation st op true) = []) as Hnil.
    { destruct (applyOperation_effects st op true) as [E | E]; [exact E |].
      exfalso. rewrite E in Hquiet.
      specialize (Hquiet (CollabDoc.Emit_change (Operation.path op) (Operation.op op)
                            (Operation.value op) true)).
      cbn in Hquiet. discriminate Hquiet. left. }
    now rewrite (applyOperation_silent st op true Hnil).
  - now split.
Qed.

Lemma every_mutation_is_announced_witness :
  let st := fst (CollabDoc.step orphan_state (CollabDoc.Sock_operation "room" late_delete)) in
  CollabDoc.doc st = CollabDoc.doc orphan_state
  /\ CollabDoc.metadata st = CollabDoc.metadata orphan_state.
Proof.
  intros st.
  apply (every_mutation_is_announced orphan_state (CollabDoc.Sock_operation "room" late_delete)).
  intros e He. vm_compute in He. now apply not_elem_of_nil in He.
Defined.

(** X16. The initial state replaces, it does not merge.  After the handler
    the document and the metadata are exactly the ones received, whatever
    the replica held before, local edits included; the replica is synced,
    [synced] is the first event, the mode and the Remote Buffer are kept,
    and the Offline Queue is flushed if the replica is connected and kept
    otherwise. *)
Theorem initial_state_replaces_document (st : CollabDoc.t) (d : container)
    (m : gmap string Metadata.t) :
  let r := CollabDoc.on_initial_state st d m in
  CollabDoc.doc (fst r) = d
  /\ CollabDoc.metadata (fst r) = m
  /\ (forall path, CollabDoc.get (fst r) path = CollabDoc.get_from (of_container d) path)
  /\ CollabDoc.syncedWithServer (fst r) = true
  /\ CollabDoc.isLiveMode (fst r) = CollabDoc.isLiveMode st
  /\ CollabDoc.remoteOperationsBuffer (fst r) = CollabDoc.remoteOperationsBuffer st
  /\ snd r = CollabDoc.Emit_synced
             :: (if CollabDoc.connected st
                 then map (CollabDoc.Socket_emit_operation (CollabDoc.roomId st))
                        (CollabDoc.offlineQueue st)
                 else [])
  /\ CollabDoc.offlineQueue (fst r)
     = (if CollabDoc.connected st then [] else CollabDoc.offlineQueue st)
  /\ (forall d0 m0,
        CollabDoc.on_initial_state (CollabDoc.set_metadata (CollabDoc.set_doc st d0) m0) d m = r).
Proof.
  cbv zeta. unfold CollabDoc.on_initial_state, CollabDoc.get.
  rewrite !and_then_pair. cbn [fst snd]. rewrite !processOfflineQueue_spec.
  cbn [CollabDoc.set_syncedWithServer CollabDoc.set_metadata CollabDoc.set_doc
       CollabDoc.connected CollabDoc.syncedWithServer CollabDoc.roomId CollabDoc.offlineQueue
       CollabDoc.doc CollabDoc.metadata CollabDoc.isLiveMode CollabDoc.remoteOperationsBuffer].
  rewrite andb_true_r.
  destruct (CollabDoc.connected st) eqn:Hc; cbn; repeat split; intros;
    rewrite ?and_then_pair; cbn [fst snd]; rewrite ?processOfflineQueue_spec; cbn;
    now rewrite ?Hc.
Qed.

(** ** The server's rooms *)

(** A room that is created only when absent: reading any room with the
    default gives what it gave before, and creating again changes nothing. *)
Lemma ensure_room {A : Type} (m : gmap string A) (k : string) (x : A) :
  let m' := if bool_decide (is_Some (m !! k)) then m else <[k := x]> m in
  (forall k', default x (m' !! k') = default x (m !! k'))
  /\ (if bool_decide (is_Some (m' !! k)) then m' else <[k := x]> m') = m'.
Proof.
  cbv zeta. case_bool_decide as Hs.
  - split; [reflexivity |]. now rewrite bool_decide_eq_true_2 by exact Hs.
  - split.
    + intros k'. destruct (decide (k = k')) as [<- | Hne].
      * rewrite lookup_insert_eq. destruct (m !! k); [| reflexivity].
        exfalso. apply Hs. eauto.
      * now rewrite lookup_insert_ne.
    + now rewrite bool_decide_eq_true_2 by (rewrite lookup_insert_eq; eauto).
Qed.

Lemma on_join_room_reply (srv : Server.t) (socketId roomId : string) :
  snd (Server.on_join_room srv socketId roomId)
  = [Server.Socket_emit socketId
       (Server.Initial_state (room_doc srv roomId) (room_metadata srv roomId))].
Proof.
  unfold Server.on_join_room, room_doc, room_metadata. cbn [snd].
  destruct (ensure_room (Server.roomStates srv) roomId (CObj ∅)) as [-> _].
  destruct (ensure_room (Server.roomMetadata srv) roomId ∅) as [Hm _].
  cbv zeta in Hm. now rewrite Hm.
Qed.

(** X17. Joining a room changes no room's document or metadata: every room
    reads after the join as it read before, a room never seen before as an
    empty document without metadata.  The join answers the joining socket
    alone, with the room's document and metadata; the socket becomes a
    member of the room beside those who were, other rooms keep their
    members, and joining again changes nothing more. *)
Theorem join_room_keeps_rooms (srv : Server.t) (socketId roomId : string) :
  let r := Server.on_join_room srv socketId roomId in
  (forall room, room_doc (fst r) room = room_doc srv room
                /\ room_metadata (fst r) room = room_metadata srv room)
  /\ snd r = [Server.Socket_emit socketId
                (Server.Initial_state (room_doc srv roomId) (room_metadata srv roomId))]
  /\ Server.members (fst r) roomId = {[socketId]} ∪ Server.members srv roomId
  /\ (forall room, room <> roomId -> Server.members (fst r) room = Server.members srv room)
  /\ fst (Server.on_join_room (fst r) socketId roomId) = fst r.
Proof.
  cbv zeta. split; [| split; [apply on_join_room_reply |]].
  - intros room. unfold Server.on_join_room, room_doc, room_metadata.
    cbn [fst Server.roomStates Server.roomMetadata].
    destruct (ensure_room (Server.roomStates srv) roomId (CObj ∅)) as [Hs _].
    destruct (ensure_room (Server.roomMetadata srv) roomId ∅) as [Hm _].
    cbv zeta in *. now rewrite Hs, Hm.
  - unfold Server.on_join_room, Server.members.
    cbn [fst Server.roomStates Server.roomMetadata Server.joined].
    destruct (ensure_room (Server.roomStates srv) roomId (CObj ∅)) as [_ Hs].
    destruct (ensure_room (Server.roomMetadata srv) roomId ∅) as [_ Hm].
    cbv zeta in *. repeat split.
    + now rewrite lookup_insert_eq.
    + intros room Hne. now rewrite lookup_insert_ne.
    + rewrite Hs, Hm, lookup_insert_eq, insert_insert_eq. cbn [default].
      f_equal. f_equal. set_solver.
Qed.

Lemma server_merge_set (state : container) (md : gmap string Metadata.t) (op : Operation.t) :
  Operation.op op = OpSet ->
  Server.merge state md op
  = if Merge.server_apply (md !! JSON_stringify (Operation.path op)) op
    then Some (Server.deepSet state (Operation.path op) (Operation.value op),
               <[JSON_stringify (Operation.path op) := Operation.triple op]> md)
    else None.
Proof. intros Hk. unfold Server.merge. now rewrite Hk. Qed.

Lemma on_operation_state (srv : Server.t) (socketId roomId : string) (op : Operation.t) :
  fst (Server.on_operation srv socketId roomId op)
  = match Server.merge (room_doc srv roomId) (room_metadata srv roomId) op with
    | Some (state, md) =>
        Server.mk (<[roomId := state]> (Server.roomStates srv))
          (<[roomId := md]> (Server.roomMetadata srv)) (Server.joined srv)
    | None => srv
    end.
Proof. reflexivity. Qed.

Lemma processOfflineQueue_keeps_document (st : CollabDoc.t) :
  CollabDoc.doc (fst (CollabDoc.processOfflineQueue st)) = CollabDoc.doc st
  /\ CollabDoc.metadata (fst (CollabDoc.processOfflineQueue st)) = CollabDoc.metadata st.
Proof. destruct (processOfflineQueue_frame st) as (_ & Hd & Hm & _). now split. Qed.

(** ** Sets at one path on the server *)

Lemma deepSet_step_uniform (c : container) (s next : segment) (rest : Path) :
  exists c0, forall w,
    Server.deepSet c (s :: next :: rest) w
    = set_prop c (ToPropertyKey (Some s)) (of_container (Server.deepSet c0 (next :: rest) w)).
Proof.
  destruct (negb (hasOwnProperty c (ToPropertyKey (Some s)))
            || negb (typeof_object (get_prop c (ToPropertyKey (Some s))))
            || is_null (get_prop c (ToPropertyKey (Some s)))) eqn:E.
  - exists (if is_number (Some next) then CArr [] ∅ else CObj ∅). intros w.
    cbn [Server.deepSet]. now rewrite E.
  - pose proof E as E'.
    rewrite !orb_false_iff, !negb_false_iff in E'. destruct E' as [[_ Ht] Hn].
    destruct (non_null_object_is_container _ Ht Hn) as [c0 Hc0]. exists c0. intros w.
    cbn [Server.deepSet]. now rewrite E, Hc0.
Qed.

Lemma deepSet_unfold_step (c : container) (s next : segment) (rest : Path) (v : jsval) :
  Server.deepSet c (s :: next :: rest) v =
  let k := ToPropertyKey (Some s) in
  let child := get_prop c k in
  if negb (hasOwnProperty c k) || negb (typeof_object child) || is_null child
  then set_prop c k
         (of_container
            (Server.deepSet (if is_number (Some next) then CArr [] ∅ else CObj ∅)
               (next :: rest) v))
  else match as_container child with
       | Some c0 => set_prop c k (of_container (Server.deepSet c0 (next :: rest) v))
       | None => c
       end.
Proof. reflexivity. Qed.

Lemma deepSet_overwrites (path : Path) (c : container) (v1 v2 : jsval) :
  Server.deepSet (Server.deepSet c path v2) path v1 = Server.deepSet c path v1.
Proof.
  revert c. induction path as [|s [|next rest] IH]; intros c.
  - apply set_prop_set_prop.
  - apply set_prop_set_prop.
  - destruct (deepSet_step_uniform c s next rest) as [c0 Hstep].
    rewrite (Hstep v2), (Hstep v1).
    set (d2 := Server.deepSet c0 (next :: rest) v2).
    rewrite deepSet_unfold_step. cbv zeta.
    rewrite has_set_prop, get_set_prop, as_of_container.
    replace (is_null (of_container d2)) with false by now destruct d2.
    replace (typeof_object (of_container d2)) with true by now destruct d2.
    cbn [negb orb]. subst d2. now rewrite IH, set_prop_set_prop.
Qed.

Lemma room_after_insert (rs : gmap string container) (rm : gmap string (gmap string Metadata.t))
    (j : gmap string (gset string)) (roomId : string) (d : container)
    (m : gmap string Metadata.t) :
  room_doc (Server.mk (<[roomId := d]> rs) (<[roomId := m]> rm) j) roomId = d
  /\ room_metadata (Server.mk (<[roomId := d]> rs) (<[roomId := m]> rm) j) roomId = m.
Proof.
  unfold room_doc, room_metadata. cbn [Server.roomStates Server.roomMetadata].
  now rewrite !lookup_insert_eq.
Qed.

Lemma server_apply_some (m : Metadata.t) (op : Operation.t) :
  Merge.server_apply (Some m) op = Merge.incomingWins op m.
Proof. apply server_apply_incomingWins. Qed.

Lemma on_operation_set (srv : Server.t) (socketId roomId : string) (op : Operation.t) :
  Operation.op op = OpSet ->
  fst (Server.on_operation srv socketId roomId op)
  = if Merge.server_apply
         (room_metadata srv roomId !! JSON_stringify (Operation.path op)) op
    then Server.mk
           (<[roomId := Server.deepSet (room_doc srv roomId) (Operation.path op)
                          (Operation.value op)]> (Server.roomStates srv))
           (<[roomId := <[JSON_stringify (Operation.path op) := Operation.triple op]>
                          (room_metadata srv roomId)]> (Server.roomMetadata srv))
           (Server.joined srv)
    else srv.
Proof.
  intros Hk. rewrite on_operation_state, (server_merge_set _ _ _ Hk).
  now destruct (Merge.server_apply _ _).
Qed.

(** The rooms after an accepted set, then a second set at the same path. *)
Lemma on_operation_set_twice (srv : Server.t) (b roomId : string) (op1 op2 : Operation.t) :
  Operation.op op2 = OpSet ->
  Operation.path op1 = Operation.path op2 ->
  let srv1 :=
    Server.mk
      (<[roomId := Server.deepSet (room_doc srv roomId) (Operation.path op1)
                     (Operation.value op1)]> (Server.roomStates srv))
      (<[roomId := <[JSON_stringify (Operation.path op1) := Operation.triple op1]>
                     (room_metadata srv roomId)]> (Server.roomMetadata srv))
      (Server.joined srv) in
  fst (Server.on_operation srv1 b roomId op2)
  = if Merge.incomingWins op2 (Operation.triple op1)
    then Server.mk
           (<[roomId := Server.deepSet (room_doc srv roomId) (Operation.path op2)
                          (Operation.value op2)]> (Server.roomStates srv))
           (<[roomId := <[JSON_stringify (Operation.path op2) := Operation.triple op2]>
                          (room_metadata srv roomId)]> (Server.roomMetadata srv))
           (Server.joined srv)
    else srv1.
Proof.
  intros Hk2 Hp srv1. rewrite (on_operation_set srv1 b roomId op2 Hk2). subst srv1.
  destruct (room_after_insert (Server.roomStates srv) (Server.roomMetadata srv)
              (Server.joined srv) roomId
              (Server.deepSet (room_doc srv roomId) (Operation.path op1) (Operation.value op1))
              (<[JSON_stringify (Operation.path op1) := Operation.triple op1]>
                 (room_metadata srv roomId))) as [-> ->].
  rewrite Hp, lookup_insert_eq, server_apply_some.
  destruct (Merge.incomingWins op2 (Operation.triple op1)); [| reflexivity].
  cbn [Server.roomStates Server.roomMetadata Server.joined].
  now rewrite deepSet_overwrites, !insert_insert_eq.
Qed.

Lemma server_sets_converge_to_winner (srv : Server.t) (a b c : string) (roomId : string)
    (op1 op2 : Operation.t) :
  Operation.op op1 = OpSet -> Operation.op op2 = OpSet ->
  Operation.path op1 = Operation.path op2 ->
  Merge.incomingWins op2 (Operation.triple op1) = true ->
  fst (Server.on_operation (fst (Server.on_operation srv a roomId op1)) b roomId op2)
    = fst (Server.on_operation srv c roomId op2)
  /\ fst (Server.on_operation (fst (Server.on_operation srv b roomId op2)) a roomId op1)
    = fst (Server.on_operation srv c roomId op2).
Proof.
  intros Hk1 Hk2 Hp Hwin.
  change (fst (Server.on_operation srv c roomId op2))
    with (fst (Server.on_operation srv b roomId op2)).
  pose proof (incomingWins_asym op1 op2 Hwin) as Hlose.
  split.
  - rewrite (on_operation_set srv a roomId op1 Hk1).
    destruct (Merge.server_apply _ op1) eqn:H1.
    + rewrite (on_operation_set_twice srv b roomId op1 op2 Hk2 Hp), Hwin.
      rewrite (on_operation_set srv b roomId op2 Hk2).
      assert (Merge.server_apply
                (room_metadata srv roomId !! JSON_stringify (Operation.path op2)) op2 = true)
        as ->; [| reflexivity].
      rewrite Hp in H1.
      destruct (room_metadata srv roomId !! JSON_stringify (Operation.path op2)) as [m|];
        [| reflexivity].
      rewrite server_apply_some in *. now apply (incomingWins_trans op1 op2 m).
    + reflexivity.
  - rewrite (on_operation_set srv b roomId op2 Hk2).
    destruct (Merge.server_apply _ op2) eqn:H2.
    + now rewrite (on_operation_set_twice srv a roomId op2 op1 Hk1 (eq_sym Hp)), Hlose.
    + rewrite (on_operation_set srv a roomId op1 Hk1), Hp.
      destruct (room_metadata srv roomId !! JSON_stringify (Operation.path op2)) as [m|];
        [| discriminate H2].
      rewrite server_apply_some in *. now rewrite (incomingWins_loses op1 op2 m).
Qed.

(** ** The server with the exceptions *)

Lemma deepDelete_unfold_step (c : container) (s next : segment) (rest : Path) :
  Server.deepDelete c (s :: next :: rest) =
  let k := ToPropertyKey (Some s) in
  let child := get_prop c k in
  if negb (hasOwnProperty c k) || negb (typeof_object child) || is_null child
  then c
  else match as_container child with
       | Some c0 => set_prop c k (of_container (Server.deepDelete c0 (next :: rest)))
       | None => c
       end.
Proof. reflexivity. Qed.

Lemma run_deepSet_unfold_step (c : container) (s next : segment) (rest : Path) (v : jsval) :
  ServerRun.deepSet c (s :: next :: rest) v =
  let k := ToPropertyKey (Some s) in
  let child := get_prop c k in
  if exotic_key c k then assign_fresh_exotic c k (Some next)
  else if negb (hasOwnProperty c k) || negb (typeof_object child) || is_null child
  then
    outcome_bind
      (ServerRun.deepSet (if is_number (Some next) then CArr [] ∅ else CObj ∅)
         (next :: rest) v) (fun c1 =>
    Returns (set_prop c k (of_container c1)))
  else match as_container child with
       | Some c0 =>
           outcome_bind (ServerRun.deepSet c0 (next :: rest) v) (fun c1 =>
           Returns (set_prop c k (of_container c1)))
       | None => Returns c
       end.
Proof. reflexivity. Qed.

Lemma run_deepSet_unfold_last (c : container) (path : Path) (v : jsval) :
  (length path <= 1)%nat ->
  ServerRun.deepSet c path v
  = if exotic_key c (ToPropertyKey (head path)) then Exotic
    else Returns (set_prop c (ToPropertyKey (head path)) v).
Proof. destruct path as [|s [|? ?]]; cbn [length]; [reflexivity | reflexivity | lia]. Qed.

Lemma run_deepDelete_unfold_step (c : container) (s next : segment) (rest : Path) :
  ServerRun.deepDelete c (s :: next :: rest) =
  let k := ToPropertyKey (Some s) in
  let child := get_prop c k in
  if exotic_key c k then Exotic
  else if negb (hasOwnProperty c k) || negb (typeof_object child) || is_null child
  then Returns c
  else match as_container child with
       | Some c0 =>
           outcome_bind (ServerRun.deepDelete c0 (next :: rest)) (fun c1 =>
           Returns (set_prop c k (of_container c1)))
       | None => Returns c
       end.
Proof. reflexivity. Qed.

(** The last step of [deepDelete] is the last step of the client's
    [delete], line for line. *)
Lemma run_deepDelete_unfold_last (c : container) (path : Path) (v : jsval) :
  (length path <= 1)%nat ->
  ServerRun.deepDelete c path = ClientRun.last_step OpDel c (head path) v.
Proof.
  destruct path as [|s [|? ?]]; cbn [length]; [| | lia];
    now destruct c as [els named | props].
Qed.

Lemma deepSet_returns (path : Path) (c c' : container) (v : jsval) :
  ServerRun.deepSet c path v = Returns c' -> Server.deepSet c path v = c'.
Proof.
  revert c c'. induction path as [|s [|next rest] IH]; intros c c'.
  1, 2: rewrite run_deepSet_unfold_last by (cbn; lia);
    destruct (exotic_key c _); [discriminate | now intros [= <-]].
  rewrite run_deepSet_unfold_step, deepSet_unfold_step. cbv zeta.
  destruct (exotic_key c _); [intros H; now apply assign_fresh_exotic_no_return in H |].
  destruct (negb _ || _ || _).
  - intros H. apply outcome_bind_returns in H as (c1 & H & [= <-]).
    apply IH in H. now rewrite H.
  - destruct (as_container _) as [c0|]; [| now intros [= <-]].
    intros H. apply outcome_bind_returns in H as (c1 & H & [= <-]).
    apply IH in H. now rewrite H.
Qed.

Lemma deepDelete_returns (path : Path) (c c' : container) :
  ServerRun.deepDelete c path = Returns c' -> Server.deepDelete c path = c'.
Proof.
  revert c c'. induction path as [|s [|next rest] IH]; intros c c'.
  1, 2: rewrite (run_deepDelete_unfold_last _ _ VUndef) by (cbn; lia);
    intros H; apply last_step_returns in H; exact H.
  rewrite run_deepDelete_unfold_step, deepDelete_unfold_step. cbv zeta.
  destruct (exotic_key c _); [discriminate |].
  destruct (negb _ || _ || _); [now intros [= <-] |].
  destruct (as_container _) as [c0|]; [| now intros [= <-]].
  intros H. apply outcome_bind_returns in H as (c1 & H & [= <-]).
  apply IH in H. now rewrite H.
Qed.

Lemma merge_returns (state : container) (md : gmap string Metadata.t) (op : Operation.t)
    (merged : option (container * gmap string Metadata.t)) :
  ServerRun.merge state md op = Returns merged -> Server.merge state md op = merged.
Proof.
  unfold ServerRun.merge, Server.merge.
  destruct (Merge.server_apply _ _); [| now intros [= <-]].
  intros H. apply outcome_bind_returns in H as (state1 & H & [= <-]).
  destruct (Operation.op op).
  - apply deepSet_returns in H. now rewrite H.
  - apply deepDelete_returns in H. now rewrite H.
Qed.

Lemma server_on_operation_returns (srv : Server.t) (socketId roomId : string)
    (op : Operation.t) (r : Server.t * list Server.Effect) :
  ServerRun.on_operation srv socketId roomId op = Returns r ->
  Server.on_operation srv socketId roomId op = r.
Proof.
  unfold ServerRun.on_operation, Server.on_operation. intros H.
  apply outcome_bind_returns in H as (merged & H & [= <-]).
  apply merge_returns in H. now rewrite H.
Qed.

(** Along a plain path [deepSet] returns, whatever the document holds. *)
Lemma deepSet_plain (path : Path) (c : container) (v : jsval) :
  plain_path path = true ->
  ServerRun.deepSet c path v = Returns (Server.deepSet c path v).
Proof.
  intros Hplain.
  assert (exists c', ServerRun.deepSet c path v = Returns c') as [c' H].
  { revert c Hplain. induction path as [|s [|next rest] IH]; intros c Hplain.
    - rewrite run_deepSet_unfold_last by (cbn; lia). cbn [head].
      change (ToPropertyKey None) with "undefined". rewrite exotic_undefined. eauto.
    - rewrite run_deepSet_unfold_last by (cbn; lia). cbn [head].
      apply andb_true_iff in Hplain as [Hs _]. rewrite (plain_not_exotic c s Hs). eauto.
    - cbn [plain_path forallb] in Hplain. apply andb_true_iff in Hplain as [Hs Hrest].
      rewrite run_deepSet_unfold_step. cbv zeta. rewrite (plain_not_exotic c s Hs).
      destruct (negb _ || _ || _).
      + destruct (IH (if is_number (Some next) then CArr [] ∅ else CObj ∅) Hrest) as [c1 ->].
        cbn. eauto.
      + destruct (as_container _) as [c0|]; [| eauto].
        destruct (IH c0 Hrest) as [c1 ->]. cbn. eauto. }
  rewrite H. f_equal. symmetry. now apply deepSet_returns.
Qed.

Lemma server_on_operation_plain (srv : Server.t) (socketId roomId : string)
    (op : Operation.t) :
  Operation.op op = OpSet ->
  plain_path (Operation.path op) = true ->
  ServerRun.on_operation srv socketId roomId op
  = Returns (Server.on_operation srv socketId roomId op).
Proof.
  intros Hk Hplain. unfold ServerRun.on_operation, Server.on_operation,
    ServerRun.merge, Server.merge.
  destruct (Merge.server_apply _ _); [| reflexivity].
  rewrite Hk, (deepSet_plain _ _ _ Hplain). reflexivity.
Qed.



(** ** Where the client and the server agree *)

Lemma get_prop_absent (c : container) (k : string) :
  hasOwnProperty c k = false -> get_prop c k = VUndef.
Proof.
  destruct c as [els named | props]; cbn [hasOwnProperty get_prop].
  - destruct (array_index k) as [i|]; intros H; apply bool_decide_eq_false in H.
    + now rewrite lookup_ge_None_2 by lia.
    + destruct (named !! k); [exfalso; apply H; eauto | reflexivity].
  - intros H. apply bool_decide_eq_false in H.
    destruct (props !! k); [exfalso; apply H; eauto | reflexivity].
Qed.

Lemma kinds_agree_fresh (b : bool) (path : Path) :
  kinds_agree (if b then CArr [] ∅ else CObj ∅) path.
Proof.
  destruct path as [|s [|next rest]]; try exact I. cbn [kinds_agree].
  rewrite get_prop_absent; [exact I |].
  destruct b; cbn [hasOwnProperty].
  - destruct (array_index _); apply bool_decide_eq_false; cbn; [lia |].
    rewrite lookup_empty. now intros [? ?].
  - apply bool_decide_eq_false. rewrite lookup_empty. now intros [? ?].
Qed.

(** On a path without a container of the wrong kind the two tests that
    decide whether to go on in the existing child are the same test. *)
Lemma tests_agree (c : container) (s next : segment) (rest : Path) :
  kinds_agree c (s :: next :: rest) ->
  let k := ToPropertyKey (Some s) in
  let child := get_prop c k in
  (negb (hasOwnProperty c k) || is_null child || negb (typeof_object child)
   || negb (Bool.eqb (Array_isArray child) (is_number (Some next))))
  = (negb (hasOwnProperty c k) || negb (typeof_object child) || is_null child)
  /\ forall c0, as_container child = Some c0 -> kinds_agree c0 (next :: rest).
Proof.
  cbn [kinds_agree]. cbv zeta. intros H.
  destruct (as_container (get_prop c (ToPropertyKey (Some s)))) as [c0|] eqn:E.
  - destruct H as [Hkind Hrest]. rewrite (as_container_inv _ _ E), Hkind, eqb_reflx.
    split; [now destruct c0; destruct (hasOwnProperty c _) |].
    now intros ? [= <-].
  - split; [| discriminate].
    destruct (get_prop c (ToPropertyKey (Some s))); try discriminate E;
      now destruct (hasOwnProperty c _).
Qed.

Lemma walk_set_is_deepSet (path : Path) (c : container) (v : jsval) :
  kinds_agree c path -> fst (CollabDoc.walk OpSet c path v) = Server.deepSet c path v.
Proof.
  revert c. induction path as [|s [|next rest] IH]; intros c Hk; try reflexivity.
  destruct (tests_agree c s next rest Hk) as [Htest Hchild]. cbv zeta in *.
  rewrite walk_unfold_step, deepSet_unfold_step. cbv zeta. rewrite Htest. clear Htest.
  destruct (negb _ || _ || _).
  - rewrite <- (IH _ (kinds_agree_fresh (is_number (Some next)) (next :: rest))).
    now destruct (CollabDoc.walk OpSet _ (next :: rest) v).
  - destruct (as_container _) as [c0|]; [| reflexivity].
    rewrite <- (IH c0 (Hchild c0 eq_refl)).
    now destruct (CollabDoc.walk OpSet c0 (next :: rest) v).
Qed.

Lemma walk_del_is_deepDelete (path : Path) (c : container) (v : jsval) :
  kinds_agree c path -> fst (CollabDoc.walk OpDel c path v) = Server.deepDelete c path.
Proof.
  revert c. induction path as [|s [|next rest] IH]; intros c Hk; try reflexivity.
  destruct (tests_agree c s next rest Hk) as [Htest Hchild]. cbv zeta in *.
  rewrite walk_unfold_step, deepDelete_unfold_step. cbv zeta. rewrite Htest. clear Htest.
  destruct (negb _ || _ || _); [reflexivity |].
  destruct (as_container _) as [c0|]; [| reflexivity].
  rewrite <- (IH c0 (Hchild c0 eq_refl)).
  now destruct (CollabDoc.walk OpDel c0 (next :: rest) v).
Qed.

(** Where the client's walk of a [set] returns on a path without a
    container of the wrong kind, [deepSet] returns the same document. *)
Lemma run_walk_set_is_deepSet (path : Path) (c : container) (v : jsval)
    (rw : container * bool) :
  kinds_agree c path ->
  ClientRun.walk OpSet c path v = Returns rw ->
  ServerRun.deepSet c path v = Returns (fst rw).
Proof.
  revert c rw. induction path as [|s [|next rest] IH]; intros c rw Hk H.
  1, 2: rewrite run_walk_unfold_last in H by (cbn; lia);
    rewrite run_deepSet_unfold_last by (cbn; lia);
    unfold ClientRun.last_step in H;
    destruct (exotic_key c _); [discriminate H | now injection H as <-].
  destruct (tests_agree c s next rest Hk) as [Htest Hchild]. cbv zeta in *.
  rewrite run_walk_unfold_step in H. rewrite run_deepSet_unfold_step. cbv zeta in *.
  destruct (shadows_hasOwnProperty c); [discriminate H |].
  destruct (exotic_key c _); [now apply assign_fresh_exotic_no_return in H |].
  rewrite Htest in H. clear Htest.
  destruct (negb _ || _ || _).
  - apply outcome_bind_returns in H as (r1 & Hw & [= <-]).
    rewrite (IH _ r1 (kinds_agree_fresh (is_number (Some next)) (next :: rest)) Hw).
    reflexivity.
  - destruct (as_container _) as [c0|]; [| now injection H as <-].
    apply outcome_bind_returns in H as (r1 & Hw & [= <-]).
    rewrite (IH c0 r1 (Hchild c0 eq_refl) Hw). reflexivity.
Qed.

Lemma run_walk_del_is_deepDelete (path : Path) (c : container) (v : jsval)
    (rw : container * bool) :
  kinds_agree c path ->
  ClientRun.walk OpDel c path v = Returns rw ->
  ServerRun.deepDelete c path = Returns (fst rw).
Proof.
  revert c rw. induction path as [|s [|next rest] IH]; intros c rw Hk H.
  1, 2: rewrite run_walk_unfold_last in H by (cbn; lia);
    rewrite (run_deepDelete_unfold_last _ _ v) by (cbn; lia);
    apply outcome_bind_returns in H as (c' & H & [= <-]); exact H.
  destruct (tests_agree c s next rest Hk) as [Htest Hchild]. cbv zeta in *.
  rewrite run_walk_unfold_step in H. rewrite run_deepDelete_unfold_step. cbv zeta in *.
  destruct (shadows_hasOwnProperty c); [discriminate H |].
  destruct (exotic_key c _); [discriminate H |].
  rewrite Htest in H. clear Htest.
  destruct (negb _ || _ || _); [now injection H as <- |].
  destruct (as_container _) as [c0|]; [| now injection H as <-].
  apply outcome_bind_returns in H as (r1 & Hw & [= <-]).
  rewrite (IH c0 r1 (Hchild c0 eq_refl) Hw). reflexivity.
Qed.



(** ** From the server to a replica that joins *)

Lemma JSON_roundtrip_of_container (c : container) :
  JSON_roundtrip (of_container c) = of_container (JSON_roundtrip_doc c).
Proof. now destruct c. Qed.

(** What an object holds under a key after the round trip. *)
Lemma lookup_roundtrip (props : gmap string jsval) (k : string) :
  omap (fun x => if is_undefined x then None else Some (JSON_roundtrip x)) props !! k
  = match props !! k with
    | Some x => if is_undefined x then None else Some (JSON_roundtrip x)
    | None => None
    end.
Proof. rewrite lookup_omap. now destruct (props !! k). Qed.

Lemma roundtrip_is_clear (props : gmap string jsval) :
  shadows_hasOwnProperty (CObj props) = false ->
  shadows_hasOwnProperty (JSON_roundtrip_doc (CObj props)) = false.
Proof.
  unfold shadows_hasOwnProperty. cbn [JSON_roundtrip_doc hasOwnProperty]. intros H.
  apply bool_decide_eq_false in H. apply bool_decide_eq_false.
  rewrite lookup_roundtrip. intros [x Hx]. apply H.
  destruct (props !! "hasOwnProperty"); [eauto | discriminate].
Qed.

(** Reading, in the document that arrives, a key of an object that held
    something under it. *)
Lemma run_get_roundtrip_step (props : gmap string jsval) (k : string) (x : jsval)
    (rest : Path) :
  shadows_hasOwnProperty (CObj props) = false -> k <> "__proto__" ->
  props !! k = Some x -> is_undefined x = false ->
  ClientRun.get_from (of_container (JSON_roundtrip_doc (CObj props))) (SStr k :: rest)
  = ClientRun.get_from (JSON_roundtrip x) rest.
Proof.
  intros Hclear Hk Hx Hdef.
  rewrite run_get_from_step, (roundtrip_is_clear props Hclear).
  change (ToPropertyKey (Some (SStr k))) with k.
  cbn [JSON_roundtrip_doc]. rewrite object_key_not_exotic by assumption.
  cbn [CollabDoc.get_from of_container as_container hasOwnProperty get_prop ToPropertyKey].
  rewrite lookup_roundtrip, Hx, Hdef. now rewrite bool_decide_eq_true_2 by eauto.
Qed.

(** What the server has set along a plain path of strings through
    objects, a replica reads in the document that arrives. *)
Lemma run_get_roundtrip_deepSet (path : Path) (c : container) (v : jsval) :
  path <> [] -> plain_path path = true -> property_names path = true ->
  Array_isArray (of_container c) = false -> kinds_agree c path ->
  (exists x0, ClientRun.get_from (of_container c) path = Returns x0) ->
  is_undefined v = false ->
  ClientRun.get_from (of_container (JSON_roundtrip_doc (Server.deepSet c path v))) path
  = Returns (JSON_roundtrip v).
Proof.
  revert c. induction path as [|s [|next rest] IH];
    intros c Hne Hplain Hnames Hobj Hkinds [x0 Hget] Hdef; [congruence | |].
  - destruct c as [els named | props]; [discriminate Hobj |].
    destruct s as [k | n]; [| discriminate Hnames].
    apply andb_true_iff in Hplain as [Hs _].
    destruct (plain_segment_keys _ Hs) as (Hh & Hp & _). cbn [ToPropertyKey] in Hh, Hp.
    rewrite run_get_from_step in Hget.
    destruct (shadows_hasOwnProperty (CObj props)) eqn:Hclear; [discriminate Hget |].
    cbn [Server.deepSet head ToPropertyKey set_prop].
    rewrite (run_get_roundtrip_step _ k v []); try assumption.
    + reflexivity.
    + change (CObj (<[k := v]> props)) with (set_prop (CObj props) k v).
      now rewrite shadows_set_prop.
    + apply lookup_insert_eq.
  - destruct c as [els named | props]; [discriminate Hobj |].
    destruct s as [k | n]; [| discriminate Hnames].
    cbn [plain_path forallb] in Hplain. apply andb_true_iff in Hplain as [Hs Hrest].
    cbn [property_names forallb] in Hnames. apply andb_true_iff in Hnames as [_ Hnrest].
    assert (is_number (Some next) = false) as Hnext.
    { cbn [forallb] in Hnrest. apply andb_true_iff in Hnrest as [Hn _].
      now apply negb_true_iff in Hn. }
    destruct (plain_segment_keys _ Hs) as (Hh & Hp & _). cbn [ToPropertyKey] in Hh, Hp.
    rewrite run_get_from_step in Hget.
    destruct (shadows_hasOwnProperty (CObj props)) eqn:Hclear; [discriminate Hget |].
    change (ToPropertyKey (Some (SStr k))) with k in Hget.
    rewrite (object_key_not_exotic props k Hp) in Hget.
    assert (exists c0,
              Server.deepSet (CObj props) (SStr k :: next :: rest) v
              = set_prop (CObj props) k (of_container (Server.deepSet c0 (next :: rest) v))
              /\ Array_isArray (of_container c0) = false
              /\ kinds_agree c0 (next :: rest)
              /\ exists x1, ClientRun.get_from (of_container c0) (next :: rest) = Returns x1)
      as (c0 & -> & Hobj0 & Hkinds0 & Hget0).
    { rewrite deepSet_unfold_step. cbv zeta.
      change (ToPropertyKey (Some (SStr k))) with k. rewrite Hnext.
      destruct (negb _ || _ || _) eqn:Et.
      - exists (CObj ∅). split; [reflexivity |]. split; [reflexivity |].
        split; [apply (kinds_agree_fresh false) |].
        cbn [forallb] in Hrest. apply andb_true_iff in Hrest as [Hn _].
        rewrite (run_get_from_step (CObj ∅)), (plain_not_exotic _ next Hn).
        change (shadows_hasOwnProperty (CObj ∅)) with false. cbv iota.
        rewrite (get_from_fresh false), run_get_from_undefined. eauto.
      - rewrite !orb_false_iff, !negb_false_iff in Et. destruct Et as [[Hhas Ht] Hn].
        destruct (non_null_object_is_container _ Ht Hn) as [c0 Hc0]. rewrite Hc0.
        exists c0. split; [reflexivity |].
        cbn [kinds_agree] in Hkinds. change (ToPropertyKey (Some (SStr k))) with k in Hkinds.
        rewrite Hc0 in Hkinds. destruct Hkinds as [Hkind Hk0].
        split; [now rewrite Hkind |]. split; [exact Hk0 |].
        exists x0. cbn [CollabDoc.get_from of_container as_container ToPropertyKey] in Hget.
        rewrite Hhas in Hget. cbn [negb] in Hget.
        now rewrite <- (as_container_inv _ _ Hc0). }
    cbn [set_prop].
    rewrite (run_get_roundtrip_step _ k (of_container (Server.deepSet c0 (next :: rest) v))
               (next :: rest)); try assumption.
    + rewrite JSON_roundtrip_of_container.
      apply IH; try assumption; discriminate.
    + match goal with |- shadows_hasOwnProperty (CObj (<[k := ?x]> props)) = false =>
        change (CObj (<[k := x]> props)) with (set_prop (CObj props) k x) end.
      now rewrite shadows_set_prop.
    + apply lookup_insert_eq.
    + now destruct (Server.deepSet c0 (next :: rest) v).
Qed.



(** ** The server's broadcast, when the handler returns

    On ordinary keys the handler emits exactly one message, the operation
    it received, to the room. *)
Lemma on_operation_broadcast
    (st : Server.t) (socketId roomId : string) (operation : Operation.t) :
  snd (Server.on_operation st socketId roomId operation)
    = [Server.Io_to_emit roomId (Server.Operation_msg roomId operation)]
  /\ Server.joined (fst (Server.on_operation st socketId roomId operation)) = Server.joined st
  /\ (forall e, e ∈ snd (Server.on_operation st socketId roomId operation) ->
        Server.recipients (fst (Server.on_operation st socketId roomId operation)) e
          = Server.members st roomId)
  /\ (socketId ∈ Server.members st roomId ->
      forall e, e ∈ snd (Server.on_operation st socketId roomId operation) ->
        socketId ∈ Server.recipients (fst (Server.on_operation st socketId roomId operation)) e).
Proof.
  assert (Server.joined (fst (Server.on_operation st socketId roomId operation))
          = Server.joined st) as Hj.
  { unfold Server.on_operation. cbn [fst].
    now destruct (Server.merge _ _ _) as [[state md]|]. }
  assert (forall e, e ∈ snd (Server.on_operation st socketId roomId operation) ->
            Server.recipients (fst (Server.on_operation st socketId roomId operation)) e
              = Server.members st roomId) as Hr.
  { intros e He. cbn [Server.on_operation snd] in He.
    apply list_elem_of_singleton in He as ->.
    unfold Server.recipients, Server.members. now rewrite Hj. }
  repeat split; [exact Hj | exact Hr |].
  intros Hin e He. now rewrite (Hr e He).
Qed.


(** X21. A handler that returns has rebroadcast.  Whenever the server's
    ['operation'] handler returns, whatever the merge decided, it has
    emitted exactly one message: the operation it received, unmodified,
    under the room it was sent for, to the sockets that joined the room;
    it has changed nobody's membership, so a sender that joined the room
    is among the recipients.  It does return when the merge rejects the
    operation, and for every [set] along a plain path. *)
Theorem server_rebroadcasts_when_it_returns
    (st : Server.t) (socketId roomId : string) (operation : Operation.t) :
  (forall r,
      ServerRun.on_operation st socketId roomId operation = Returns r ->
      snd r = [Server.Io_to_emit roomId (Server.Operation_msg roomId operation)]
      /\ Server.joined (fst r) = Server.joined st
      /\ (forall e, e ∈ snd r -> Server.recipients (fst r) e = Server.members st roomId)
      /\ (socketId ∈ Server.members st roomId ->
          forall e, e ∈ snd r -> socketId ∈ Server.recipients (fst r) e))
  /\ (Merge.server_apply
        (room_metadata st roomId !! JSON_stringify (Operation.path operation)) operation
      = false ->
      ServerRun.on_operation st socketId roomId operation
      = Returns (st, [Server.Io_to_emit roomId (Server.Operation_msg roomId operation)]))
  /\ (Operation.op operation = OpSet -> plain_path (Operation.path operation) = true ->
      exists r, ServerRun.on_operation st socketId roomId operation = Returns r).
Proof.
  split; [| split].
  - intros r Hr. apply server_on_operation_returns in Hr as <-.
    apply on_operation_broadcast.
  - intros Hrej. unfold ServerRun.on_operation, ServerRun.merge.
    fold (room_metadata st roomId). now rewrite Hrej.
  - intros Hk Hplain. rewrite (server_on_operation_plain st socketId roomId operation Hk Hplain).
    eauto.
Qed.

(** ** Pause and resume, once more

    What a paused replica does on ordinary keys: the local edits, the
    buffering, and [resume] as the replay of the buffer in arrival order
    followed by the flush. *)
Lemma paused_on_ordinary_keys (st : CollabDoc.t) :
  CollabDoc.isLiveMode st = false ->
  (forall path value idNow rnd now,
      let op := CollabDoc.local_op st OpSet path value idNow rnd now in
      let r := CollabDoc.set st path value idNow rnd now in
      CollabDoc.doc (fst r) = fst (CollabDoc.walk OpSet (CollabDoc.doc st) path value)
      /\ (path <> [] -> CollabDoc.get (fst r) path = value)
      /\ CollabDoc.offlineQueue (fst r) = CollabDoc.offlineQueue st ++ [op]
      /\ snd r = [CollabDoc.Emit_change path OpSet value false]
      /\ CollabDoc.isLiveMode (fst r) = false)
  /\ (forall path idNow rnd now,
      let op := CollabDoc.local_op st OpDel path VUndef idNow rnd now in
      let r := CollabDoc.delete_ st path idNow rnd now in
      CollabDoc.doc (fst r) = fst (CollabDoc.walk OpDel (CollabDoc.doc st) path VUndef)
      /\ CollabDoc.offlineQueue (fst r) = CollabDoc.offlineQueue st ++ [op]
      /\ (forall e, e ∈ snd r -> CollabDoc.is_send e = false)
      /\ CollabDoc.isLiveMode (fst r) = false)
  /\ (forall op,
      (forall q, q ∈ CollabDoc.offlineQueue st -> Operation.id q <> Operation.id op) ->
      CollabDoc.on_operation st (CollabDoc.roomId st) op
      = (CollabDoc.set_remoteOperationsBuffer st (CollabDoc.remoteOperationsBuffer st ++ [op]),
         []))
  /\ (let r1 := replay_in_arrival_order (CollabDoc.set_isLiveMode st true)
                  (CollabDoc.remoteOperationsBuffer st) in
      let r2 := CollabDoc.processOfflineQueue
                  (CollabDoc.set_remoteOperationsBuffer (fst r1) []) in
      CollabDoc.resume st = (fst r2, snd r1 ++ snd r2 ++ [CollabDoc.Emit_resume])
      /\ snd r2 = (if CollabDoc.connected st && CollabDoc.syncedWithServer st
                   then map (CollabDoc.Socket_emit_operation (CollabDoc.roomId st))
                          (CollabDoc.offlineQueue st)
                   else [])
      /\ CollabDoc.isLiveMode (fst r2) = true
      /\ CollabDoc.remoteOperationsBuffer (fst r2) = [])
  /\ CollabDoc.pause st = (st, [])
  /\ (forall st', CollabDoc.isLiveMode st' = true -> CollabDoc.resume st' = (st', [])).
Proof.
  intros Hpaused. repeat apply conj.
  - intros path value idNow rnd now op r. subst r.
    unfold CollabDoc.set. fold op. rewrite and_then_pair.
    destruct (applyOperation_frame st op false) as (_ & _ & Hq & _ & _ & Hl & _).
    cbv zeta in Hq, Hl.
    assert (CollabDoc.applyOperation st op false
            = (CollabDoc.set_metadata
                 (CollabDoc.set_doc st (fst (CollabDoc.walk OpSet (CollabDoc.doc st) path value)))
                 (<[JSON_stringify path := Operation.triple op]> (CollabDoc.metadata st)),
               [CollabDoc.Emit_change path OpSet value false])) as Happ.
    { unfold CollabDoc.applyOperation. rewrite client_apply_local. cbn [op CollabDoc.local_op
        Operation.op Operation.path Operation.value].
      pose proof (walk_set_finished path (CollabDoc.doc st) value) as Hfin.
      destruct (CollabDoc.walk OpSet (CollabDoc.doc st) path value) as [d fin].
      cbn in Hfin. now subst fin. }
    unfold CollabDoc.queueOrSendOperation. rewrite Hl, Hpaused. cbn [negb fst snd].
    rewrite Hq, Happ. cbn [fst snd CollabDoc.doc CollabDoc.set_metadata CollabDoc.set_doc
      CollabDoc.set_offlineQueue CollabDoc.offlineQueue CollabDoc.isLiveMode].
    repeat split; [| exact Hpaused].
    intros Hne. unfold CollabDoc.get. cbn [CollabDoc.doc]. now apply get_walk_set.
  - intros path idNow rnd now op r. subst r.
    unfold CollabDoc.delete_. fold op. rewrite and_then_pair.
    destruct (applyOperation_frame st op false) as (_ & _ & Hq & _ & _ & Hl & _).
    cbv zeta in Hq, Hl.
    unfold CollabDoc.queueOrSendOperation. rewrite Hl, Hpaused. cbn [negb fst snd].
    rewrite Hq, app_nil_r.
    cbn [CollabDoc.doc CollabDoc.set_offlineQueue CollabDoc.offlineQueue CollabDoc.isLiveMode].
    repeat split.
    + unfold CollabDoc.applyOperation. rewrite client_apply_local.
      cbn [op CollabDoc.local_op Operation.op Operation.path Operation.value].
      now destruct (CollabDoc.walk OpDel (CollabDoc.doc st) path VUndef) as [d [|]].
    + intros e He.
      destruct (applyOperation_effects st op false) as [E | E]; rewrite E in He.
      * now apply not_elem_of_nil in He.
      * now apply list_elem_of_singleton in He as ->.
    + congruence.
  - intros op Hfresh. unfold CollabDoc.on_operation, CollabDoc.applyRemoteOperation.
    rewrite String.eqb_refl, (findIndex_absent _ _ Hfresh), Hpaused. reflexivity.
  - unfold CollabDoc.resume. rewrite Hpaused. cbn [negb]. rewrite !and_then_pair.
    cbn [fst snd].
    destruct (drain_is_replay (CollabDoc.remoteOperationsBuffer st)
                (CollabDoc.set_isLiveMode st true)) as [Hs He].
    now rewrite Hs, He.
  - destruct (replay_frame (CollabDoc.remoteOperationsBuffer st)
                (CollabDoc.set_isLiveMode st true)) as (Hr & Hq & Hc & Hs & _).
    cbv zeta in *. rewrite processOfflineQueue_spec.
    cbn [CollabDoc.set_remoteOperationsBuffer CollabDoc.connected CollabDoc.syncedWithServer
      CollabDoc.roomId CollabDoc.offlineQueue].
    rewrite Hr, Hq, Hc, Hs. cbn [CollabDoc.set_isLiveMode CollabDoc.connected
      CollabDoc.syncedWithServer CollabDoc.roomId CollabDoc.offlineQueue].
    now destruct (CollabDoc.connected st && CollabDoc.syncedWithServer st).
  - destruct (replay_frame (CollabDoc.remoteOperationsBuffer st)
                (CollabDoc.set_isLiveMode st true)) as (_ & _ & _ & _ & Hl).
    cbv zeta in *. rewrite processOfflineQueue_spec.
    destruct (_ && _); cbn; exact Hl.
  - rewrite processOfflineQueue_spec. now destruct (_ && _).
  - unfold CollabDoc.pause. now rewrite Hpaused.
  - intros st' Hlive. unfold CollabDoc.resume. now rewrite Hlive.
Qed.


(** X22. A paused replica whose queue holds primitive values:
    - after a local [set] or [delete] that returns, has the operation as
      the new last entry of its Offline Queue, has sent nothing and is
      still paused;
    - appends an incoming operation of its room whose id is not in the
      Offline Queue to the Remote Buffer, and changes and emits nothing
      else; this never raises;
    - on a [resume] that returns has replayed the Remote Buffer in arrival
      order, each entry merged as a remote operation, then flushed the
      Offline Queue (all of it, in order, when connected and synced), then
      emitted [resume], ending live with an empty buffer;
    - ignores [pause].
    A live replica ignores [resume]. *)
Theorem paused_replica_buffers_and_replays (st : CollabDoc.t) :
  CollabDoc.isLiveMode st = false ->
  holds_primitives (CollabDoc.offlineQueue st) ->
  (forall path value idNow rnd now r,
      ClientRun.set st path value idNow rnd now = Returns r ->
      CollabDoc.offlineQueue (fst r)
      = CollabDoc.offlineQueue st ++ [CollabDoc.local_op st OpSet path value idNow rnd now]
      /\ snd r = [CollabDoc.Emit_change path OpSet value false]
      /\ CollabDoc.isLiveMode (fst r) = false)
  /\ (forall path idNow rnd now r,
      ClientRun.delete_ st path idNow rnd now = Returns r ->
      CollabDoc.offlineQueue (fst r)
      = CollabDoc.offlineQueue st ++ [CollabDoc.local_op st OpDel path VUndef idNow rnd now]
      /\ (forall e, e ∈ snd r -> CollabDoc.is_send e = false)
      /\ CollabDoc.isLiveMode (fst r) = false)
  /\ (forall op,
      (forall q, q ∈ CollabDoc.offlineQueue st -> Operation.id q <> Operation.id op) ->
      ClientRun.on_operation st (CollabDoc.roomId st) op
      = Returns
          (CollabDoc.set_remoteOperationsBuffer st (CollabDoc.remoteOperationsBuffer st ++ [op]),
           []))
  /\ (forall r,
      ClientRun.resume st = Returns r ->
      let r1 := replay_in_arrival_order (CollabDoc.set_isLiveMode st true)
                  (CollabDoc.remoteOperationsBuffer st) in
      let r2 := CollabDoc.processOfflineQueue
                  (CollabDoc.set_remoteOperationsBuffer (fst r1) []) in
      r = (fst r2, snd r1 ++ snd r2 ++ [CollabDoc.Emit_resume])
      /\ snd r2 = (if CollabDoc.connected st && CollabDoc.syncedWithServer st
                   then map (CollabDoc.Socket_emit_operation (CollabDoc.roomId st))
                          (CollabDoc.offlineQueue st)
                   else [])
      /\ CollabDoc.isLiveMode (fst r) = true
      /\ CollabDoc.remoteOperationsBuffer (fst r) = [])
  /\ ClientRun.step st CollabDoc.Call_pause = Returns (st, [])
  /\ (forall st', CollabDoc.isLiveMode st' = true -> ClientRun.resume st' = Returns (st', [])).
Proof.
  intros Hpaused _.
  destruct (paused_on_ordinary_keys st Hpaused)
    as (Hset & Hdel & Hbuf & (Hres & Hsent & Hlive & Hempty) & Hpause & Hresume).
  cbv zeta in *. repeat apply conj.
  - intros path value idNow rnd now r Hr. apply set_returns in Hr as <-.
    destruct (Hset path value idNow rnd now) as (_ & _ & Hq & He & Hl). now repeat split.
  - intros path idNow rnd now r Hr. apply delete_returns in Hr as <-.
    destruct (Hdel path idNow rnd now) as (_ & Hq & He & Hl). now repeat split.
  - intros op Hfresh. unfold ClientRun.on_operation, ClientRun.applyRemoteOperation.
    rewrite String.eqb_refl, (findIndex_absent _ _ Hfresh), Hpaused. reflexivity.
  - intros r Hr. apply resume_returns in Hr as <-. rewrite Hres. cbn [fst].
    now repeat split.
  - cbn [ClientRun.step CollabDoc.step]. now rewrite Hpause.
  - intros st' Hl. unfold ClientRun.resume. now rewrite Hl.
Qed.

Lemma paused_replica_buffers_and_replays_witness :
  exists r,
    ClientRun.resume paused_replica = Returns r
    /\ snd r
       = [CollabDoc.Emit_change [SStr "conflictKey"] OpSet (VStr "initialRemote") true;
          CollabDoc.Socket_emit_operation "room"
            (Operation.mk "A-1-q" [SStr "localQueue"] OpSet (VStr "localValue") 1 "A" 1);
          CollabDoc.Emit_resume]
    /\ CollabDoc.remoteOperationsBuffer (fst r) = [].
Proof.
  assert (holds_primitives (CollabDoc.offlineQueue paused_replica)) as Hprim
    by (repeat constructor).
  destruct (paused_replica_buffers_and_replays paused_replica eq_refl Hprim)
    as (_ & _ & _ & Hres & _).
  exists (CollabDoc.resume paused_replica).
  destruct (Hres (CollabDoc.resume paused_replica) eq_refl) as (_ & _ & _ & Hempty).
  split; [reflexivity |]. split; [reflexivity | exact Hempty].
Defined.
